(** * Lawnmower fleet backend: the device-facing protocol engine

    A shallow embedding of the protocol code of the backend,

    - [src/backend/services/protocolService.js] (frame codec and the
      session / presentation / application layers),
    - [src/backend/services/cryptoService.js] (Diffie-Hellman, hash, MAC,
      handshake payloads),
    - the [TCPService] class (per-connection dispatch and the command and
      notification handlers),

    followed by the properties of the specification that are stated about
    them.

    Conventions of the embedding.

    - A Node [Buffer] is a [list byte]; a JavaScript Number that holds an
      integer is a [Z], and the 32-bit operators ([&], [|], [^], [~], [<<],
      [>>], [>>> 0]) are written out with their [ToInt32] / [ToUint32]
      wrap-around in module [JS].
    - A function that throws returns a [Result]: [Ok v] or [Throw msg], where
      [msg] is the [message] of the JavaScript [Error].
    - The handlers of [TCPService] run in a small state monad over the
      service object that also collects, in program order, the calls made to
      the outside world (socket writes, SQL inserts): a value of type
      [list Event].  The helpers [logCommunication], [updateDeviceState],
      [storeTelemetryData] and [storeGPSData] are [async] in the source and
      are never awaited by their callers; the embedding records the insert
      that each of them issues before its first [await] at the place of the
      call.  [storeTelemetryData] goes on after its first [await]: what it
      does then is kept with the insert it waits for, as an [Await].
      Columns filled with [new Date()] are left out of the record of an
      insert, as is [console] output. *)

From Stdlib Require Import ZArith Lia List Strings.Byte Strings.String Strings.Ascii.
From Stdlib Require Import Zpow_facts DecimalString HexadecimalString QArith_base.
From stdpp Require Import base option list gmap strings.
From Equations Require Import Equations.
Import ListNotations.

Local Open Scope Z_scope.

(** ** JavaScript values *)

Inductive Result (A : Type) : Type :=
| Ok (value : A)
| Throw (message : string).
Arguments Ok {A} value.
Arguments Throw {A} message.

Module JS.

Definition toInt32 (x : Z) : Z := (x + 2 ^ 31) mod 2 ^ 32 - 2 ^ 31.
Definition toUint32 (x : Z) : Z := x mod 2 ^ 32.

(** [a & b], [a | b], [a ^ b], [~a] *)
Definition and (a b : Z) : Z := Z.land (toInt32 a) (toInt32 b).
Definition or (a b : Z) : Z := Z.lor (toInt32 a) (toInt32 b).
Definition xor (a b : Z) : Z := Z.lxor (toInt32 a) (toInt32 b).
Definition not (a : Z) : Z := Z.lnot (toInt32 a).
(** [a << n], [a >> n] *)
Definition shl (a n : Z) : Z := toInt32 (Z.shiftl (toInt32 a) (toUint32 n mod 32)).
Definition shr (a n : Z) : Z := Z.shiftr (toInt32 a) (toUint32 n mod 32).
(** [a >>> 0] *)
Definition ushr0 (a : Z) : Z := toUint32 a.

(** [Number(x)] for a BigInt [x]: the nearest double, that is, [x] with
    its significand rounded to 53 bits, ties to even.  The embedding
    holds this for [x] below [2^1024] in absolute value; from there on
    the source has [Infinity]. *)
Definition Number (x : Z) : Z :=
  let magnitude := Z.abs x in
  let shift := Z.log2 magnitude - 52 in
  if shift <=? 0 then x
  else
    let significand := Z.shiftr magnitude shift in
    let rest := Z.land magnitude (Z.ones shift) in
    let half := Z.shiftl 1 (shift - 1) in
    let significand :=
      if (half <? rest) || ((rest =? half) && Z.odd significand)
      then significand + 1
      else significand in
    Z.sgn x * Z.shiftl significand shift.

End JS.

(** ** Buffers *)

Definition Buffer : Type := list byte.

#[global] Instance byte_eq_decision : EqDecision byte := Byte.byte_eq_dec.

(** The value of a byte as a Number, and the byte that [Buffer.from([v])]
    and the [writeUInt..] methods store for the integer [v]. *)
Definition Z_of_byte (b : byte) : Z := Z.of_N (Byte.to_N b).

Definition byte_of_Z (v : Z) : byte :=
  match Byte.of_N (Z.to_N (v mod 256)) with
  | Some b => b
  | None => x00
  end.

Definition len (buffer : Buffer) : Z := Z.of_nat (length buffer).

(** [buffer[i]]: [None] is JavaScript's [undefined]. *)
Definition at_index (buffer : Buffer) (i : Z) : option byte :=
  if i <? 0 then None else buffer !! Z.to_nat i.

(** [buffer.slice(start, end)] and [buffer.slice(start)] for [0 <= start]
    (every call of the source is of that kind). *)
Definition slice (buffer : Buffer) (start stop : Z) : Buffer :=
  take (Z.to_nat (stop - start)) (drop (Z.to_nat start) buffer).

Definition slice_from (buffer : Buffer) (start : Z) : Buffer :=
  drop (Z.to_nat start) buffer.

(** [buffer[i]] read as a Number at an index the caller has checked to be in
    range. *)
Definition number_at (buffer : Buffer) (i : Z) : Z :=
  match at_index buffer i with
  | Some b => Z_of_byte b
  | None => 0
  end.

(** [a.equals(b)] *)
Definition equals (a b : Buffer) : bool := bool_decide (a = b).

(** Big-endian writers and readers. *)
Definition writeUInt16BE (v : Z) : Buffer :=
  [byte_of_Z (v / 2 ^ 8); byte_of_Z v].

Definition writeUInt32BE (v : Z) : Buffer :=
  [byte_of_Z (v / 2 ^ 24); byte_of_Z (v / 2 ^ 16); byte_of_Z (v / 2 ^ 8); byte_of_Z v].

Definition writeBigUInt64BE (v : Z) : Buffer :=
  writeUInt32BE (v / 2 ^ 32) ++ writeUInt32BE v.

Fixpoint readUIntBE (bytes : Buffer) (acc : Z) : Z :=
  match bytes with
  | [] => acc
  | b :: rest => readUIntBE rest (acc * 256 + Z_of_byte b)
  end.

Definition readUInt16BE (buffer : Buffer) (offset : Z) : Z :=
  readUIntBE (slice buffer offset (offset + 2)) 0.

Definition readUInt32BE (buffer : Buffer) (offset : Z) : Z :=
  readUIntBE (slice buffer offset (offset + 4)) 0.

Definition readBigUInt64BE (buffer : Buffer) (offset : Z) : Z :=
  readUIntBE (slice buffer offset (offset + 8)) 0.

(** [buffer.toString('hex')], [n.toString(16)], [`${n}`] for an integer
    [0 <= n], and [s.padStart(8, '0')]. *)
Definition decimal (n : Z) : string :=
  DecimalString.NilZero.string_of_uint (N.to_uint (Z.to_N n)).

Definition hex (n : Z) : string :=
  HexadecimalString.NilZero.string_of_uint (N.to_hex_uint (Z.to_N n)).

Fixpoint zeros (n : nat) : string :=
  match n with
  | O => EmptyString
  | S n' => String "0" (zeros n')
  end.

Definition padStart8 (s : string) : string :=
  zeros (8 - String.length s) +:+ s.

Definition hex2 (b : byte) : string :=
  let v := Z_of_byte b in hex (v / 16) +:+ hex (v mod 16).

Definition toHex (buffer : Buffer) : string :=
  fold_right (fun b acc => hex2 b +:+ acc) EmptyString buffer.

(** The objects that the parsers return. *)
Module Frame.
Record t : Type := mk { payload : Buffer; totalLength : Z }.
End Frame.

Module SessionMessage.
Record t : Type := mk { hmac : Buffer; messageType : Z; payload : Buffer }.
End SessionMessage.

Module PresentationMessage.
Record t : Type := mk { iin : Z; payload : Buffer }.
End PresentationMessage.

Module Command.
Record t : Type := mk { command : Z; payload : Buffer }.
End Command.

Module Challenge.
Record t : Type := mk { serverPublicKey : Z; nonce : Z; authS : Z }.
End Challenge.

Module ClientAuth.
Record t : Type := mk { clientPublicKey : Z; authC : Z }.
End ClientAuth.

(** ** protocolService.js *)

Module ProtocolService.

Definition SOF_MARKER : Z := 0xAA.

(** [encodeLength]: the loop [while (length > 0)], on the Number
    [length] (here [n]); [length >>= 7] leaves a 32-bit integer. *)
Equations? encodeLength_loop (n : Z) : Buffer by wf (Z.to_nat n) lt :=
  encodeLength_loop n with Z_gt_dec n 0 => {
    | left _ :=
        let byte := JS.and n 0x7F in
        let n' := JS.shr n 7 in
        let byte' := if n' >? 0 then JS.or byte 0x80 else byte in
        byte_of_Z byte' :: encodeLength_loop n';
    | right _ := [] }.
Proof.
  clear byte'; subst n'; clear byte.
  unfold JS.shr, JS.toInt32, JS.toUint32.
  change (7 mod 2 ^ 32 mod 32) with 7.
  rewrite Z.shiftr_div_pow2 by lia.
  pose proof (Z.mod_pos_bound (n + 2 ^ 31) (2 ^ 32) ltac:(lia)) as Hm.
  pose proof (Z.mod_le (n + 2 ^ 31) (2 ^ 32) ltac:(lia) ltac:(lia)) as Hle.
  set (t := (n + 2 ^ 31) mod 2 ^ 32 - 2 ^ 31) in *.
  assert (t <= n) by (unfold t; lia).
  assert (t / 2 ^ 7 < n).
  { destruct (Z_le_gt_dec t 0) as [Hneg|Hpos].
    - assert (t / 2 ^ 7 <= 0) by (apply Z.div_le_upper_bound; lia). lia.
    - assert (t / 2 ^ 7 < t) by (apply Z.div_lt; lia). lia. }
  lia.
Qed.

Definition encodeLength (length : Z) : Buffer :=
  if length =? 0 then [x00] else encodeLength_loop length.

(** [decodeLength]: the loop runs over the bytes of [buffer] from
    [startOffset] on; [rest] is what is left of the buffer at [offset]. *)
Fixpoint decodeLength_loop (rest : Buffer) (length offset shift : Z)
  : Result (Z * Z) :=
  match rest with
  | [] => Ok (length, offset)
  | b :: rest' =>
      let byte := Z_of_byte b in
      let length := JS.or length (JS.shl (JS.and byte 0x7F) shift) in
      let offset := offset + 1 in
      let shift := shift + 7 in
      if JS.and byte 0x80 =? 0 then Ok (length, offset)
      else if shift >=? 21 then Throw "Length encoding too long"
      else decodeLength_loop rest' length offset shift
  end.

Definition decodeLength (buffer : Buffer) (startOffset : Z) : Result (Z * Z) :=
  decodeLength_loop (slice_from buffer startOffset) 0 startOffset 0.

(** [calculateChecksum] *)
Definition sum_bytes (buffer : Buffer) : Z :=
  fold_left (fun sum b => sum + Z_of_byte b) buffer 0.

Definition calculateChecksum (buffer : Buffer) : Buffer :=
  let sum := sum_bytes buffer in
  let checksum := JS.and (JS.not sum + 1) 0xFFFF in
  [byte_of_Z (JS.and (JS.shr checksum 8) 0xFF); byte_of_Z (JS.and checksum 0xFF)].

Definition createFrame (payload : Buffer) : Buffer :=
  let lengthBytes := encodeLength (len payload) in
  let frameWithoutChecksum := [byte_of_Z SOF_MARKER] ++ lengthBytes ++ payload in
  let checksum := calculateChecksum frameWithoutChecksum in
  frameWithoutChecksum ++ checksum.

Definition parseFrame (buffer : Buffer) : Result Frame.t :=
  if len buffer <? 4 then Throw "Frame too short"
  else if negb (bool_decide (at_index buffer 0 = Some (byte_of_Z SOF_MARKER)))
  then Throw "Invalid SOF marker"
  else
    match decodeLength buffer 1 with
    | Throw e => Throw e
    | Ok (payloadLength, offset) =>
        if len buffer <? offset + payloadLength + 2 then Throw "Incomplete frame"
        else
          let payload := slice buffer offset (offset + payloadLength) in
          let receivedChecksum :=
            slice buffer (offset + payloadLength) (offset + payloadLength + 2) in
          let frameWithoutChecksum := slice buffer 0 (offset + payloadLength) in
          let calculatedChecksum := calculateChecksum frameWithoutChecksum in
          if negb (equals receivedChecksum calculatedChecksum)
          then Throw "Checksum mismatch"
          else Ok {| Frame.payload := payload;
                     Frame.totalLength := offset + payloadLength + 2 |}
    end.

(** Session layer.  [hmac = null] is [None]; a Buffer is always truthy. *)
Definition createSessionMessage (messageType : Z) (payload : Buffer)
    (hmac : option Buffer) : Buffer :=
  let hmac := match hmac with
              | Some h => h
              | None => [xfa; xde; xdb; xed]
              end in
  hmac ++ [byte_of_Z messageType] ++ payload.

Definition parseSessionMessage (buffer : Buffer) : Result SessionMessage.t :=
  if len buffer <? 5 then Throw "Session message too short"
  else Ok {| SessionMessage.hmac := slice buffer 0 4;
             SessionMessage.messageType := number_at buffer 4;
             SessionMessage.payload := slice_from buffer 5 |}.

(** Presentation layer. *)
Definition createPresentationMessage (iin : Z) (payload : Buffer) : Buffer :=
  writeUInt16BE iin ++ payload.

Definition parsePresentationMessage (buffer : Buffer)
  : Result PresentationMessage.t :=
  if len buffer <? 2 then Throw "Presentation message too short"
  else Ok {| PresentationMessage.iin := readUInt16BE buffer 0;
             PresentationMessage.payload := slice_from buffer 2 |}.

(** Application layer. *)
Definition createCommand (command : Z) (payload : Buffer) : Buffer :=
  [byte_of_Z command] ++ payload.

Definition parseCommand (buffer : Buffer) : Result Command.t :=
  if len buffer <? 1 then Throw "Command too short"
  else Ok {| Command.command := number_at buffer 0;
             Command.payload := slice_from buffer 1 |}.

(** [getMessageTypes()], [getCommands()], [getControlActions()],
    [getNotificationTypes()] *)
Definition REGULAR : Z := 0x00.
Definition HELLO : Z := 0x01.
Definition CHALLENGE : Z := 0x02.
Definition CLIENT_AUTH : Z := 0x03.
Definition NOTIFICATION : Z := 0x80.

Definition HEARTBEAT : Z := 0x00.
Definition CONTROL_DEVICE : Z := 0x01.
Definition ACK_ERROR : Z := 0x02.
Definition RESET_BLADE_TIME : Z := 0x03.

Definition STOP : Z := 0x00.
Definition START : Z := 0x01.
Definition HOME : Z := 0x02.

Definition DEVICE_STATUS : Z := 0x00.
Definition POSITION_UPDATE : Z := 0x01.

(** [verifyChecksum].  A missing byte of [checksumBuffer] is [undefined]:
    [undefined << 8] is [0], and [sum + undefined] is [NaN], which
    [& 0xFFFF] turns into [0]. *)
Definition verifyChecksum (frameBuffer checksumBuffer : Buffer) : bool :=
  let sum := sum_bytes frameBuffer in
  let sum :=
    sum + match at_index checksumBuffer 0 with
          | Some b => JS.shl (Z_of_byte b) 8
          | None => 0
          end in
  match at_index checksumBuffer 1 with
  | Some b => JS.and (sum + Z_of_byte b) 0xFFFF =? 0
  | None => true
  end.

End ProtocolService.


(** ** cryptoService.js *)

Module CryptoService.

Definition DH_GENERATOR : Z := 5.
Definition DH_MODULUS : Z := 0xFFFFFFFB.
Definition PSK : Z := 0xFEED5EED.

(** [crypto.randomInt(1, 0x10000)] and the 64-bit value read from
    [crypto.randomBytes(8)], as functions of the entropy drawn. *)
Definition generateRandomSecret (entropy : Z) : Z := 1 + entropy mod 0xFFFF.
Definition generateNonce (entropy : Z) : Z := entropy mod 2 ^ 64.

(** [modularExponentiation]: the loop [while (exponent > 0n)] on BigInts;
    [%] is the truncating remainder. *)
Equations? modularExponentiation_loop (result base exponent modulus : Z) : Z
  by wf (Z.to_nat exponent) lt :=
  modularExponentiation_loop result base exponent modulus
    with Z_gt_dec exponent 0 => {
    | left _ :=
        modularExponentiation_loop
          (if Z.rem exponent 2 =? 1 then Z.rem (result * base) modulus else result)
          (Z.rem (base * base) modulus)
          (Z.shiftr exponent 1)
          modulus;
    | right _ := result }.
Proof.
  rewrite Z.shiftr_div_pow2 by lia. change (2 ^ 1) with 2.
  assert (exponent / 2 < exponent) by (apply Z.div_lt; lia).
  assert (0 <= exponent / 2) by (apply Z.div_pos; lia).
  lia.
Qed.

(** The callers pass Numbers, so the guard [modulus === 1n] of the source,
    a strict comparison of a Number with a BigInt, is never taken.  The
    result of the loop is returned as [Number(result)], which rounds it
    when it has more than 53 bits. *)
Definition modularExponentiation (base exponent modulus : Z) : Z :=
  JS.Number (modularExponentiation_loop 1 (Z.rem base modulus) exponent modulus).

Definition calculatePublicKey (secret : Z) : Z :=
  modularExponentiation DH_GENERATOR secret DH_MODULUS.

Definition calculateSharedSecret (otherPublicKey mySecret : Z) : Z :=
  modularExponentiation otherPublicKey mySecret DH_MODULUS.

Definition calculateHash (payload : Buffer) : Z :=
  fold_left (fun hash b => JS.ushr0 (31 * hash + Z_of_byte b)) payload 0.

Definition calculateMAC (key : Z) (payload : Buffer) : Z :=
  let hash := calculateHash payload in
  JS.ushr0 (JS.xor hash key).

Definition createChallenge (serverSecret clientPublicKey nonce : Z) : Challenge.t :=
  let B := calculatePublicKey serverSecret in
  let macData := writeUInt32BE B ++ writeUInt32BE clientPublicKey
                 ++ writeBigUInt64BE nonce in
  let authS := calculateMAC PSK macData in
  {| Challenge.serverPublicKey := B; Challenge.nonce := nonce; Challenge.authS := authS |}.

Definition verifyAuth (publicKeyA publicKeyB nonce receivedAuth : Z)
    (isServer : bool) : bool :=
  let macData :=
    (if isServer
     then writeUInt32BE publicKeyA ++ writeUInt32BE publicKeyB
     else writeUInt32BE publicKeyB ++ writeUInt32BE publicKeyA)
    ++ writeBigUInt64BE nonce in
  let expectedAuth := calculateMAC PSK macData in
  expectedAuth =? receivedAuth.

Definition parseHelloPayload (buffer : Buffer) : Result Z :=
  if len buffer <? 4 then Throw "Invalid Hello message length"
  else Ok (readUInt32BE buffer 0).

Definition createChallengePayload (serverPublicKey nonce authS : Z) : Buffer :=
  writeUInt32BE serverPublicKey ++ writeBigUInt64BE nonce ++ writeUInt32BE authS.

Definition parseClientAuthPayload (buffer : Buffer) : Result Z :=
  if len buffer <? 4 then Throw "Invalid Client Authentication message length"
  else Ok (readUInt32BE buffer 0).

Definition calculateHMAC (key : Z) (payload : Buffer) : Z :=
  calculateMAC key payload.

Definition createAuthenticatedHMAC (sharedSecret : Z) (payload : Buffer) : Buffer :=
  let hmac := calculateHMAC sharedSecret payload in
  writeUInt32BE hmac.

Definition verifyAuthenticatedHMAC (sharedSecret : Z) (payload receivedHMAC : Buffer)
  : bool :=
  let expectedHMAC := calculateHMAC sharedSecret payload in
  let receivedHMACValue := readUInt32BE receivedHMAC 0 in
  expectedHMAC =? receivedHMACValue.

Definition getBypassHMAC : Buffer := [xfa; xde; xdb; xed].

Definition isBypassHMAC (hmac : Buffer) : bool :=
  let bypass := getBypassHMAC in
  equals hmac bypass.

(** The client's side of the handshake. *)
Definition createClientAuth (clientSecret serverPublicKey nonce : Z) : ClientAuth.t :=
  let A := calculatePublicKey clientSecret in
  let macData := writeUInt32BE A ++ writeUInt32BE serverPublicKey
                 ++ writeBigUInt64BE nonce in
  let authC := calculateMAC PSK macData in
  {| ClientAuth.clientPublicKey := A; ClientAuth.authC := authC |}.

Definition createHelloPayload (clientPublicKey : Z) : Buffer :=
  writeUInt32BE clientPublicKey.

Definition parseChallengePayload (buffer : Buffer) : Result Challenge.t :=
  if len buffer <? 16 then Throw "Invalid Challenge message length"
  else Ok {| Challenge.serverPublicKey := readUInt32BE buffer 0;
             Challenge.nonce := readBigUInt64BE buffer 4;
             Challenge.authS := readUInt32BE buffer 12 |}.

Definition createClientAuthPayload (authC : Z) : Buffer :=
  writeUInt32BE authC.

End CryptoService.

(** ** The TCP service *)

Module Lawnmower.
Record t : Type := mk { id : Z; name : string; port_number : Z }.
End Lawnmower.

(** [connectionInfo.authState] once [handleHello] has filled it. *)
Module AuthState.
Record t : Type :=
  mk { serverSecret : Z; clientPublicKey : Z; nonce : Z; serverPublicKey : Z }.
End AuthState.

(** The record kept per socket.  [sharedSecret = None] is [null];
    [authState = None] is the initial object, whose fields are all [null].
    The socket itself is represented by the events on it, and
    [lastActivity] only feeds the inactivity timer. *)
Module ConnectionInfo.
Record t : Type :=
  mk { id : Z;
       lawnmower : Lawnmower.t;
       authenticated : bool;
       sharedSecret : option Z;
       buffer : Buffer;
       authState : option AuthState.t }.

Definition set_buffer (c : t) (b : Buffer) : t :=
  mk (id c) (lawnmower c) (authenticated c) (sharedSecret c) b (authState c).

Definition set_authState (c : t) (a : AuthState.t) : t :=
  mk (id c) (lawnmower c) (authenticated c) (sharedSecret c) (buffer c) (Some a).

Definition set_authenticated (c : t) (secret : Z) : t :=
  mk (id c) (lawnmower c) true (Some secret) (buffer c) (authState c).
End ConnectionInfo.

Module TCPService.

Import ProtocolService.

(** The text of a log row.  The row of a position update interpolates two
    floats and an ISO date, whose rendering is outside the embedding: that
    row keeps the raw big-endian float32 bytes and the Unix seconds. *)
Inductive LogMessage : Type :=
| Text (s : string)
| PositionText (latitude longitude : Buffer) (unixSeconds : Z).

(** What a handler does to the outside world.  [Await query continuation]
    is [await] on an insert inside an [async] helper that nobody awaits:
    [query] is issued at this place; the calls of [continuation] are
    issued later, after everything that the handler and its callers still
    do in this turn, once [query] has resolved, and they are not issued
    at all when [query] is rejected. *)
#[warnings="-register-all"]
Inductive Event : Type :=
| SocketWrite (connectionId : Z) (data : Buffer)
| SocketDestroy (connectionId : Z)
| InsertCommunicationLog (lawnmowerId : Z) (severity eventType : string)
    (message : LogMessage)
| InsertDeviceState (lawnmowerId : Z) (state : string)
| InsertBatteryLevel (lawnmowerId : Z) (batteryLevel : Q)
| InsertGpsPosition (lawnmowerId : Z) (latitude longitude : Buffer)
    (unixSeconds : Z)
| Await (query : Event) (continuation : list Event).

(** The service object ([this.connections]) together with the entropy
    that [crypto] hands out: [entropy i] is the [i]-th value drawn. *)
Record State : Type :=
  mkState { connections : gmap Z ConnectionInfo.t;
            entropy : nat -> Z;
            drawn : nat }.

Definition M (A : Type) : Type := State -> A * State * list Event.

Definition ret {A : Type} (a : A) : M A := fun s => (a, s, []).

Definition bind {A B : Type} (m : M A) (f : A -> M B) : M B :=
  fun s =>
    let '(a, s1, e1) := m s in
    let '(b, s2, e2) := f a s1 in
    (b, s2, e1 ++ e2).

Notation "x <- m ;; k" := (bind m (fun x => k))
  (at level 100, m at next level, right associativity).
Notation "m ;;; k" := (bind m (fun _ => k))
  (at level 100, right associativity).

Definition emit (e : Event) : M unit := fun s => (tt, s, [e]).

Definition draw : M Z :=
  fun s => (entropy s (drawn s), mkState (connections s) (entropy s) (S (drawn s)), []).

Definition getConnection (connectionId : Z) : M (option ConnectionInfo.t) :=
  fun s => (connections s !! connectionId, s, []).

Definition setConnection (connectionId : Z) (c : ConnectionInfo.t) : M unit :=
  fun s => (tt, mkState (<[connectionId := c]> (connections s)) (entropy s) (drawn s), []).

(** [const connectionInfo = this.connections.get(connectionId);
     if (!connectionInfo) return;] *)
Definition withConnection (connectionId : Z) (k : ConnectionInfo.t -> M unit)
  : M unit :=
  c <- getConnection connectionId ;;
  match c with
  | Some connectionInfo => k connectionInfo
  | None => ret tt
  end.

Definition lawnmowerId (c : ConnectionInfo.t) : Z :=
  Lawnmower.id (ConnectionInfo.lawnmower c).

Definition logCommunication (lawnmowerId : Z) (severity eventType message : string)
  : M unit :=
  emit (InsertCommunicationLog lawnmowerId severity eventType (Text message)).

Definition updateDeviceState (lawnmowerId : Z) (state : string) : M unit :=
  emit (InsertDeviceState lawnmowerId state).

(** [storeTelemetryData]: [data.batteryLevel] is always defined at the one
    call, so the insert into [battery_levels] is issued and awaited;
    [if (data.state)], which tests for a non-empty string, and the insert
    into [device_states] come after that [await]. *)
Definition storeTelemetryData (lawnmowerId : Z) (batteryLevel : Q) (state : string)
  : M unit :=
  emit (Await (InsertBatteryLevel lawnmowerId batteryLevel)
          (if bool_decide (state = EmptyString) then []
           else [InsertDeviceState lawnmowerId state])).

Definition storeGPSData (lawnmowerId : Z) (latitude longitude : Buffer)
    (unixSeconds : Z) : M unit :=
  emit (InsertGpsPosition lawnmowerId latitude longitude unixSeconds).

(** The lines that every command handler repeats after it has built its
    presentation message: pick the HMAC, wrap, frame, write.
    In [hash ^ key] a [null] key counts as [0]. *)
Definition responseHMAC (connectionInfo : ConnectionInfo.t) (presentationMsg : Buffer)
  : Buffer :=
  if ConnectionInfo.authenticated connectionInfo
  then CryptoService.createAuthenticatedHMAC
         (default 0 (ConnectionInfo.sharedSecret connectionInfo)) presentationMsg
  else CryptoService.getBypassHMAC.

Definition writeResponse (connectionId : Z) (connectionInfo : ConnectionInfo.t)
    (presentationMsg : Buffer) : M unit :=
  let hmac := responseHMAC connectionInfo presentationMsg in
  let sessionMsg := createSessionMessage REGULAR presentationMsg (Some hmac) in
  let frame := createFrame sessionMsg in
  emit (SocketWrite connectionId frame).

Definition handleHello (connectionId : Z) (sessionMsg : SessionMessage.t) : M unit :=
  withConnection connectionId (fun connectionInfo =>
    match CryptoService.parseHelloPayload (SessionMessage.payload sessionMsg) with
    | Throw message =>
        logCommunication (lawnmowerId connectionInfo) "Error" "Auth_Hello_Error"
          ("Failed to process Hello: " +:+ message)
    | Ok clientPublicKey =>
        e1 <- draw ;;
        let serverSecret := CryptoService.generateRandomSecret e1 in
        e2 <- draw ;;
        let nonce := CryptoService.generateNonce e2 in
        let challenge := CryptoService.createChallenge serverSecret clientPublicKey nonce in
        setConnection connectionId
          (ConnectionInfo.set_authState connectionInfo
             {| AuthState.serverSecret := serverSecret;
                AuthState.clientPublicKey := clientPublicKey;
                AuthState.nonce := nonce;
                AuthState.serverPublicKey := Challenge.serverPublicKey challenge |}) ;;;
        let challengePayload :=
          CryptoService.createChallengePayload
            (Challenge.serverPublicKey challenge)
            (Challenge.nonce challenge)
            (Challenge.authS challenge) in
        let sessionMessage :=
          createSessionMessage CHALLENGE challengePayload
            (Some [x00; x00; x00; x00]) in
        let presentationMsg := createPresentationMessage 0 sessionMessage in
        let frame := createFrame presentationMsg in
        emit (SocketWrite connectionId frame) ;;;
        logCommunication (lawnmowerId connectionInfo) "Information" "Auth_Challenge_Sent"
          ("Challenge sent with g=" +:+ decimal CryptoService.DH_GENERATOR
           +:+ ", p=" +:+ decimal CryptoService.DH_MODULUS
           +:+ ", a=" +:+ decimal clientPublicKey)
    end).

(** [handleClientAuth].  Before any HELLO the fields of [authState] are
    [null], and [writeBigUInt64BE(null, 8)] in [verifyAuth] raises the
    engine's TypeError, which the handler catches like a parse error. *)
Definition handleClientAuth (connectionId : Z) (sessionMsg : SessionMessage.t)
  : M unit :=
  withConnection connectionId (fun connectionInfo =>
    let failed (message : string) : M unit :=
      logCommunication (lawnmowerId connectionInfo) "Error" "Auth_Client_Error"
        ("Failed to process client auth: " +:+ message) ;;;
      emit (SocketDestroy connectionId) in
    match CryptoService.parseClientAuthPayload (SessionMessage.payload sessionMsg) with
    | Throw message => failed message
    | Ok authC =>
        match ConnectionInfo.authState connectionInfo with
        | None => failed "Cannot mix BigInt and other types, use explicit conversions"
        | Some authState =>
            let isValid :=
              CryptoService.verifyAuth
                (AuthState.clientPublicKey authState)
                (AuthState.serverPublicKey authState)
                (AuthState.nonce authState)
                authC true in
            if isValid then
              let sharedSecret :=
                CryptoService.calculateSharedSecret
                  (AuthState.clientPublicKey authState)
                  (AuthState.serverSecret authState) in
              setConnection connectionId
                (ConnectionInfo.set_authenticated connectionInfo sharedSecret) ;;;
              logCommunication (lawnmowerId connectionInfo) "Information" "Auth_Success"
                ("Authentication successful. Shared secret: 0x"
                 +:+ padStart8 (hex sharedSecret))
            else
              logCommunication (lawnmowerId connectionInfo) "Error" "Auth_Failed"
                "Client authentication verification failed" ;;;
              emit (SocketDestroy connectionId)
        end
    end).

Definition handleHeartbeat (connectionId iin : Z) (payload : Buffer) : M unit :=
  withConnection connectionId (fun connectionInfo =>
    let responseCommand := createCommand 0x80 payload in
    let presentationMsg := createPresentationMessage iin responseCommand in
    writeResponse connectionId connectionInfo presentationMsg ;;;
    logCommunication (lawnmowerId connectionInfo) "Information" "Heartbeat_Response"
      ("Heartbeat echoed, payload length: " +:+ decimal (len payload))).

Definition sendErrorResponse (connectionId iin : Z) (errorMessage : string) : M unit :=
  withConnection connectionId (fun connectionInfo =>
    let responseCommand := createCommand 0xFF (list_byte_of_string errorMessage) in
    let presentationMsg := createPresentationMessage iin responseCommand in
    writeResponse connectionId connectionInfo presentationMsg ;;;
    logCommunication (lawnmowerId connectionInfo) "Error" "Error_Response"
      ("Error response sent: " +:+ errorMessage)).

(** [actionName] and [newState] of [handleControlDevice]; [None] is [null]. *)
Definition controlAction (action : Z) : string * option string :=
  if action =? STOP then ("STOP", Some "Paused")
  else if action =? START then ("START", Some "Mowing")
  else if action =? HOME then ("HOME", Some "ReturningToStation")
  else ("UNKNOWN", None).

Definition handleControlDevice (connectionId iin : Z) (payload : Buffer) : M unit :=
  withConnection connectionId (fun connectionInfo =>
    if len payload <? 1
    then sendErrorResponse connectionId iin "Invalid control command"
    else
      let action := number_at payload 0 in
      let '(actionName, newState) := controlAction action in
      match newState with
      | Some state => updateDeviceState (lawnmowerId connectionInfo) state
      | None => ret tt
      end ;;;
      let responseCommand := createCommand 0x81 [] in
      let presentationMsg := createPresentationMessage iin responseCommand in
      writeResponse connectionId connectionInfo presentationMsg ;;;
      logCommunication (lawnmowerId connectionInfo) "Information" "Control_Command"
        ("Control action " +:+ actionName +:+ " executed, new state: "
         +:+ default "null" newState)).

Definition handleAckError (connectionId iin : Z) : M unit :=
  withConnection connectionId (fun connectionInfo =>
    updateDeviceState (lawnmowerId connectionInfo) "Paused" ;;;
    let responseCommand := createCommand 0x82 [] in
    let presentationMsg := createPresentationMessage iin responseCommand in
    writeResponse connectionId connectionInfo presentationMsg ;;;
    logCommunication (lawnmowerId connectionInfo) "Information" "Ack_Error"
      "Error acknowledged, state changed to Paused").

Definition handleResetBladeTime (connectionId iin : Z) : M unit :=
  withConnection connectionId (fun connectionInfo =>
    let responseCommand := createCommand 0x83 [] in
    let presentationMsg := createPresentationMessage iin responseCommand in
    writeResponse connectionId connectionInfo presentationMsg ;;;
    logCommunication (lawnmowerId connectionInfo) "Information" "Reset_Blade_Time"
      "Blade time reset to 0").

Definition handleCommand (connectionId iin : Z) (command : Command.t) : M unit :=
  withConnection connectionId (fun connectionInfo =>
    let c := Command.command command in
    if c =? HEARTBEAT then handleHeartbeat connectionId iin (Command.payload command)
    else if c =? CONTROL_DEVICE
    then handleControlDevice connectionId iin (Command.payload command)
    else if c =? ACK_ERROR then handleAckError connectionId iin
    else if c =? RESET_BLADE_TIME then handleResetBladeTime connectionId iin
    else
      logCommunication (lawnmowerId connectionInfo) "Warning" "Unknown_Command"
        ("Unknown command: 0x" +:+ hex c)).

Definition handleRegularMessage (connectionId : Z) (sessionMsg : SessionMessage.t)
  : M unit :=
  withConnection connectionId (fun connectionInfo =>
    if negb (ConnectionInfo.authenticated connectionInfo)
       && negb (CryptoService.isBypassHMAC (SessionMessage.hmac sessionMsg))
    then
      logCommunication (lawnmowerId connectionInfo) "Warning" "Unauthenticated_Message"
        "Received message from unauthenticated connection"
    else
      let failed (message : string) : M unit :=
        logCommunication (lawnmowerId connectionInfo) "Error" "Command_Parse_Error"
          ("Failed to parse command: " +:+ message) in
      match parsePresentationMessage (SessionMessage.payload sessionMsg) with
      | Throw message => failed message
      | Ok presentationMsg =>
          match parseCommand (PresentationMessage.payload presentationMsg) with
          | Throw message => failed message
          | Ok command =>
              handleCommand connectionId (PresentationMessage.iin presentationMsg) command
          end
      end).

(** [stateMap[status] || 'Unknown'] *)
Definition stateMap (status : Z) : string :=
  if status =? 0x00 then "StationCharging"
  else if status =? 0x01 then "StationChargingCompleted"
  else if status =? 0x02 then "Mowing"
  else if status =? 0x03 then "ReturningToStation"
  else if status =? 0x04 then "Paused"
  else if status =? 0x80 then "Error"
  else "Unknown".

(** [`${data[0] / 2}`] *)
Definition showHalf (v : Z) : string :=
  decimal (v / 2) +:+ (if v mod 2 =? 0 then EmptyString else ".5").

Definition handleDeviceStatusNotification (connectionId : Z) (data : Buffer) : M unit :=
  withConnection connectionId (fun connectionInfo =>
    if len data <? 6 then ret tt
    else
      let batteryLevel := Qmake (number_at data 0) 2 in
      let bladeTime := readUInt32BE data 1 in
      let status := number_at data 5 in
      let stateName := stateMap status in
      storeTelemetryData (lawnmowerId connectionInfo) batteryLevel stateName ;;;
      logCommunication (lawnmowerId connectionInfo) "Information" "Status_Update"
        ("Battery: " +:+ showHalf (number_at data 0) +:+ "%, State: " +:+ stateName
         +:+ ", Blade: " +:+ decimal bladeTime +:+ "s")).

Definition handlePositionUpdateNotification (connectionId : Z) (data : Buffer)
  : M unit :=
  withConnection connectionId (fun connectionInfo =>
    if len data <? 12 then ret tt
    else
      let timestamp := readUInt32BE data 0 in
      let latitude := slice data 4 8 in
      let longitude := slice data 8 12 in
      storeGPSData (lawnmowerId connectionInfo) latitude longitude timestamp ;;;
      emit (InsertCommunicationLog (lawnmowerId connectionInfo) "Information"
              "Position_Update" (PositionText latitude longitude timestamp))).

Definition handleNotification (connectionId : Z) (sessionMsg : SessionMessage.t)
  : M unit :=
  withConnection connectionId (fun connectionInfo =>
    let ntPayload := SessionMessage.payload sessionMsg in
    if len ntPayload <? 1 then ret tt
    else
      let notificationType := number_at ntPayload 0 in
      let notificationData := slice_from ntPayload 1 in
      if notificationType =? DEVICE_STATUS
      then handleDeviceStatusNotification connectionId notificationData
      else if notificationType =? POSITION_UPDATE
      then handlePositionUpdateNotification connectionId notificationData
      else
        logCommunication (lawnmowerId connectionInfo) "Warning" "Unknown_Notification"
          ("Unknown notification type: 0x" +:+ hex notificationType)).

Definition processFrame (connectionId : Z) (payload : Buffer) : M unit :=
  withConnection connectionId (fun connectionInfo =>
    match parseSessionMessage payload with
    | Throw message =>
        logCommunication (lawnmowerId connectionInfo) "Error" "Message_Parse_Error"
          ("Failed to parse message: " +:+ message)
    | Ok sessionMsg =>
        let t := SessionMessage.messageType sessionMsg in
        if t =? HELLO then handleHello connectionId sessionMsg
        else if t =? CLIENT_AUTH then handleClientAuth connectionId sessionMsg
        else if t =? REGULAR then handleRegularMessage connectionId sessionMsg
        else if t =? NOTIFICATION then handleNotification connectionId sessionMsg
        else
          logCommunication (lawnmowerId connectionInfo) "Warning" "Unknown_Message_Type"
            ("Unknown message type: 0x" +:+ hex t)
    end).

(** The loop [while (connectionInfo.buffer.length > 0)] of [handleData].
    Every turn that does not leave the loop removes a whole frame, at
    least four bytes, from the buffer, so [fuel], which [handleData] sets
    to the length of the buffer, is never used up. *)
Fixpoint handleData_loop (fuel : nat) (connectionId : Z) : M unit :=
  match fuel with
  | O => ret tt
  | S fuel' =>
      withConnection connectionId (fun connectionInfo =>
        let buffer := ConnectionInfo.buffer connectionInfo in
        if len buffer >? 0 then
          match parseFrame buffer with
          | Ok frameResult =>
              setConnection connectionId
                (ConnectionInfo.set_buffer connectionInfo
                   (slice_from buffer (Frame.totalLength frameResult))) ;;;
              processFrame connectionId (Frame.payload frameResult) ;;;
              handleData_loop fuel' connectionId
          | Throw message =>
              if bool_decide (message = "Incomplete frame") then ret tt
              else
                logCommunication (lawnmowerId connectionInfo) "Error" "Invalid_Frame"
                  ("Broken frame: " +:+ message +:+ ". Data: " +:+ toHex buffer) ;;;
                setConnection connectionId (ConnectionInfo.set_buffer connectionInfo [])
          end
        else ret tt)
  end.

Definition handleData (connectionId : Z) (data : Buffer) : M unit :=
  withConnection connectionId (fun connectionInfo =>
    let buffer := ConnectionInfo.buffer connectionInfo ++ data in
    setConnection connectionId (ConnectionInfo.set_buffer connectionInfo buffer) ;;;
    handleData_loop (length buffer) connectionId).

End TCPService.

(** ** Vocabulary of the properties *)

Module Observed.

Import ProtocolService TCPService.

(** The frames written to the socket of a connection, in order. *)
Fixpoint socketWrites (connectionId : Z) (events : list Event) : list Buffer :=
  match events with
  | [] => []
  | SocketWrite c data :: rest =>
      if c =? connectionId then data :: socketWrites connectionId rest
      else socketWrites connectionId rest
  | _ :: rest => socketWrites connectionId rest
  end.

(** [frame] is one whole frame; its payload is a session message of type
    REGULAR, which carries a presentation message with the given IIN, which
    carries an application message with the given command and body. *)
Definition regularFrame (frame : Buffer) (iin command : Z) (body : Buffer) : Prop :=
  exists payload sessionMsg presentationMsg,
    parseFrame frame
    = Ok {| Frame.payload := payload; Frame.totalLength := len frame |}
    /\ parseSessionMessage payload = Ok sessionMsg
    /\ SessionMessage.messageType sessionMsg = REGULAR
    /\ parsePresentationMessage (SessionMessage.payload sessionMsg) = Ok presentationMsg
    /\ PresentationMessage.iin presentationMsg = iin
    /\ parseCommand (PresentationMessage.payload presentationMsg)
       = Ok {| Command.command := command; Command.payload := body |}.

(** The test of [handleRegularMessage]: the connection is authenticated or
    the message carries the bypass HMAC. *)
Definition passesGate (connectionInfo : ConnectionInfo.t)
    (sessionMsg : SessionMessage.t) : Prop :=
  ConnectionInfo.authenticated connectionInfo = true
  \/ SessionMessage.hmac sessionMsg = CryptoService.getBypassHMAC.

(** The service after [connectionInfo.buffer = buffer] on connection [c]. *)
Definition withBuffer (st : State) (connectionId : Z) (c : ConnectionInfo.t)
    (buffer : Buffer) : State :=
  mkState (<[connectionId := ConnectionInfo.set_buffer c buffer]> (connections st))
    (entropy st) (drawn st).

(** A computation that leaves the service object as it found it. *)
Definition preservesState {A : Type} (m : M A) : Prop :=
  forall st, snd (fst (m st)) = st.

(** The row that [handleRegularMessage] logs for a message it refuses. *)
Definition unauthenticatedRow (connectionInfo : ConnectionInfo.t) : Event :=
  InsertCommunicationLog (lawnmowerId connectionInfo) "Warning"
    "Unauthenticated_Message"
    (Text "Received message from unauthenticated connection").

End Observed.

(** ** Sample values *)

Module Sample.

Definition mower : Lawnmower.t := Lawnmower.mk 7 "Mower 7" 9007.

(** A connection right after [handleConnection]. *)
Definition fresh : ConnectionInfo.t :=
  ConnectionInfo.mk 1 mower false None [] None.

(** The same connection after a handshake with client secret 0x1234,
    server secret 0x5678 and nonce 0x0102030405060708: the public keys are
    906815736 and 124418418, the shared secret is 1476263253. *)
Definition authenticated : ConnectionInfo.t :=
  ConnectionInfo.mk 1 mower true (Some 1476263253) []
    (Some {| AuthState.serverSecret := 0x5678;
             AuthState.clientPublicKey := 906815736;
             AuthState.nonce := 0x0102030405060708;
             AuthState.serverPublicKey := 124418418 |}).

Definition entropy (i : nat) : Z :=
  match i with
  | O => 0x5677
  | S _ => 0x0102030405060708
  end.

Definition service (c : ConnectionInfo.t) : TCPService.State :=
  TCPService.mkState {[ 1 := c ]} entropy 0.

(** Session messages: a heartbeat with the bypass HMAC, IIN 1 and body
    DE AD BE EF; START with IIN 1; a REGULAR message without a body. *)
Definition bypassEcho : Buffer :=
  [xfa; xde; xdb; xed; x00; x00; x01; x00; xde; xad; xbe; xef].

Definition bypassStart : Buffer :=
  [xfa; xde; xdb; xed; x00; x00; x01; x01; x01].

Definition emptyRegular : Buffer := [x00; x00; x00; x00; x00].

End Sample.

(** ** stateService.js: StateService *)

(** [list.includes(x)] on an array of strings. *)
Definition includes (x : string) (l : list string) : bool := bool_decide (x ∈ l).

(** [list.join(', ')] *)
Fixpoint join_comma (l : list string) : string :=
  match l with
  | [] => EmptyString
  | [x] => x
  | x :: rest => x +:+ ", " +:+ join_comma rest
  end.

Module StateService.

Definition validStates : list string :=
  ["StationCharging"; "StationChargingCompleted"; "Mowing"; "ReturningToStation";
   "Paused"; "Error"].

(** [addStateChange]: the check that comes before the INSERT; the result
    is the row handed to the database (the timestamp is left out). *)
Definition addStateChange (lawnmowerId : Z) (state : string) : Result (Z * string) :=
  if negb (includes state validStates)
  then Throw ("Invalid state: " +:+ state +:+ ". Valid states are: "
              +:+ join_comma validStates)
  else Ok (lawnmowerId, state).

Definition getValidStates : list string := validStates.

End StateService.

(** ** ActionsService (the one that drives the mower over TCP) *)

Module CommandMapping.
(** [action = None] is [null]. *)
Record t : Type := mk { command : Z; action : option Z }.
End CommandMapping.

Module ActionsService.

Definition STOP : string := "stop".
Definition START : string := "start".
Definition HOME : string := "home".
Definition ACK_ERROR : string := "ackerror".

Definition getValidActions : list string := [STOP; START; HOME; ACK_ERROR].

(** The object literals are read with a key that is an action of
    [validActions] or a state stored in [device_states]; a key that is
    not written in the literal gives [None] ([undefined]). *)
Definition actionToCommandMap (action : string) : option CommandMapping.t :=
  if String.eqb action "stop" then Some (CommandMapping.mk 0x01 (Some 0x00))
  else if String.eqb action "start" then Some (CommandMapping.mk 0x01 (Some 0x01))
  else if String.eqb action "home" then Some (CommandMapping.mk 0x01 (Some 0x02))
  else if String.eqb action "ackerror" then Some (CommandMapping.mk 0x02 None)
  else None.

Definition validTransitions (currentState : string) : option (list string) :=
  if String.eqb currentState "StationCharging" then Some ["start"]
  else if String.eqb currentState "StationChargingCompleted" then Some ["start"]
  else if String.eqb currentState "Mowing" then Some ["stop"; "home"]
  else if String.eqb currentState "ReturningToStation" then Some ["stop"]
  else if String.eqb currentState "Paused" then Some ["start"; "home"]
  else if String.eqb currentState "Error" then Some ["ackerror"]
  else None.

Definition validateActionForState (action currentState : string) : bool :=
  let allowedActions := default [] (validTransitions currentState) in
  includes action allowedActions.

Definition stateTransitions (action : string) : option (string -> option string) :=
  if String.eqb action "stop" then
    Some (fun currentState =>
            if String.eqb currentState "Mowing" then Some "Paused"
            else if String.eqb currentState "ReturningToStation" then Some "Paused"
            else None)
  else if String.eqb action "start" then
    Some (fun currentState =>
            if String.eqb currentState "StationCharging" then Some "Mowing"
            else if String.eqb currentState "StationChargingCompleted" then Some "Mowing"
            else if String.eqb currentState "Paused" then Some "Mowing"
            else None)
  else if String.eqb action "home" then
    Some (fun currentState =>
            if String.eqb currentState "Mowing" then Some "ReturningToStation"
            else if String.eqb currentState "Paused" then Some "ReturningToStation"
            else None)
  else if String.eqb action "ackerror" then
    Some (fun currentState =>
            if String.eqb currentState "Error" then Some "Paused" else None)
  else None.

(** [stateTransitions[action]?.[currentState] || null]; every state in the
    table is a non-empty string, so [||] only replaces [undefined]. *)
Definition getExpectedStateForAction (action currentState : string) : option string :=
  match stateTransitions action with
  | Some row => row currentState
  | None => None
  end.

End ActionsService.

(** ** LawnmowerTCPClient (the client that ActionsService uses) *)

(** What [handleData] and the senders of the client do to the outside:
    [this.client.write(frame)] and [this.emit(...)].  An error is the
    [Error] built by the client itself, or one raised by the engine (a
    RangeError or TypeError of the Buffer and BigInt functions, or the
    TypeError of [this.client.write] when [this.client] is [null]), whose
    text is not part of the embedding.  A run stops at its first
    [EmitError]. *)
Module ClientError.
Inductive t : Type :=
| Message (message : string)
| Engine.
End ClientError.

Module ClientSessionMessage.
(** [messageType = None] is [undefined], read past the end. *)
Record t : Type := mk { hmac : Buffer; messageType : option Z; payload : Buffer }.
End ClientSessionMessage.

Module ClientFrame.
Record t : Type := mk { payload : Buffer; checksum : Buffer }.
End ClientFrame.

Module LawnmowerTCPClient.

Import ProtocolService.

Inductive Event : Type :=
| Write (frame : Buffer)
| EmitAuthenticated
| EmitResponse (sessionMsg : ClientSessionMessage.t)
| EmitError (error : ClientError.t).

(** [this.client] with [this.connected]: [null] until [connect], then the
    socket that [net.createConnection] returned.  The flag is kept with
    the socket, since the source sets it in the 'connect' callback of
    [this.client] and clears it on 'close', on 'error' and in
    [disconnect], before [this.client] is [null] again. *)
Inductive Client : Type :=
| NoSocket
| Socket (connected : bool).

(** The fields of the client; [None] is [null]. *)
Record t : Type :=
  mk { client : Client;
       authenticated : bool;
       sharedSecret : option Z;
       iinCounter : Z;
       clientSecret : option Z;
       clientPublicKey : option Z;
       serverPublicKey : option Z;
       nonce : option Z }.

(** [this.connected] *)
Definition connected (c : t) : bool :=
  match client c with
  | NoSocket => false
  | Socket connected => connected
  end.

(** The constructor. *)
Definition new : t := mk NoSocket false None 1 None None None None.

(** What the promise of a sender does before it waits: [Written] is
    [this.client.write(frame)], after which the promise waits for the
    answer; [Rejected] and [Resolved] are [reject(error)] and [resolve()]
    at once. *)
Inductive Sent : Type :=
| Written (frame : Buffer)
| Rejected (error : ClientError.t)
| Resolved.

Definition DH_GENERATOR : Z := 5.
Definition DH_MODULUS : Z := 0xFFFFFFFB.
Definition PSK : Z := 0xFEED5EED.

(** [buffer.slice(start, end)] for any integers. *)
Definition adjustOffset (offset length : Z) : Z :=
  if offset <? 0 then Z.max (offset + length) 0 else Z.min offset length.

Definition sliceAny (buffer : Buffer) (start stop : Z) : Buffer :=
  let s := adjustOffset start (len buffer) in
  let e := adjustOffset stop (len buffer) in
  take (Z.to_nat (e - s)) (drop (Z.to_nat s) buffer).

(** Protocol methods.  [createFrame] (with [encodeLength] and
    [calculateChecksum]), [createPresentationMessage] and
    [parsePresentationMessage] have the text of the methods of
    [protocolService] with the same names. *)
Definition createFrame (payload : Buffer) : Buffer := ProtocolService.createFrame payload.

Definition createPresentationMessage (iin : Z) (payload : Buffer) : Buffer :=
  ProtocolService.createPresentationMessage iin payload.

Definition parsePresentationMessage (buffer : Buffer) : Result PresentationMessage.t :=
  ProtocolService.parsePresentationMessage buffer.

(** [decodeLength] of the client has no limit on the length field. *)
Fixpoint decodeLength_loop (rest : Buffer) (length offset shift : Z) : Z * Z :=
  match rest with
  | [] => (length, offset)
  | b :: rest' =>
      let byte := Z_of_byte b in
      let length := JS.or length (JS.shl (JS.and byte 0x7F) shift) in
      let offset := offset + 1 in
      let shift := shift + 7 in
      if JS.and byte 0x80 =? 0 then (length, offset)
      else decodeLength_loop rest' length offset shift
  end.

Definition decodeLength (buffer : Buffer) (startOffset : Z) : Z * Z :=
  decodeLength_loop (slice_from buffer startOffset) 0 startOffset 0.

(** [parseFrame] of the client: a wrong checksum only prints a warning. *)
Definition parseFrame (buffer : Buffer) : Result ClientFrame.t :=
  if negb (bool_decide (at_index buffer 0 = Some (byte_of_Z SOF_MARKER)))
  then Throw "Invalid SOF marker"
  else
    let '(payloadLength, offset) := decodeLength buffer 1 in
    let payload := sliceAny buffer offset (offset + payloadLength) in
    let receivedChecksum :=
      sliceAny buffer (offset + payloadLength) (offset + payloadLength + 2) in
    if len buffer <? offset + payloadLength + 2
    then Throw "Frame too short for declared length and checksum"
    else Ok {| ClientFrame.payload := payload;
               ClientFrame.checksum := receivedChecksum |}.

Definition createSessionMessage (messageType : Z) (payload : Buffer)
    (hmac : option Buffer) : Buffer :=
  let hmac := match hmac with
              | Some h => h
              | None => [x00; x00; x00; x00]
              end in
  hmac ++ [byte_of_Z messageType] ++ payload.

Definition parseSessionMessage (buffer : Buffer) : ClientSessionMessage.t :=
  {| ClientSessionMessage.hmac := slice buffer 0 4;
     ClientSessionMessage.messageType := Z_of_byte <$> at_index buffer 4;
     ClientSessionMessage.payload := slice_from buffer 5 |}.

(** Crypto methods; [modularExponentiation], [calculateHash] and
    [calculateMAC] have the text of the methods of [cryptoService]. *)
Definition generateRandomSecret (entropy : Z) : Z := 1 + entropy mod 0xFFFF.

Definition modularExponentiation (base exponent modulus : Z) : Z :=
  CryptoService.modularExponentiation base exponent modulus.

Definition calculatePublicKey (secret : Z) : Z :=
  modularExponentiation DH_GENERATOR secret DH_MODULUS.

Definition calculateSharedSecret (otherPublicKey mySecret : Z) : Z :=
  modularExponentiation otherPublicKey mySecret DH_MODULUS.

Definition calculateMAC (key : Z) (payload : Buffer) : Z :=
  CryptoService.calculateMAC key payload.

Definition calculateAuth (keyA keyB nonce : Z) : Z :=
  let macData := writeUInt32BE keyA ++ writeUInt32BE keyB ++ writeBigUInt64BE nonce in
  calculateMAC PSK macData.

Definition calculateHMAC (key : Z) (payload : Buffer) : Buffer :=
  let hmac := calculateMAC key payload in
  writeUInt32BE hmac.

(** [authenticate]: the frame written for HELLO.  [entropy] is what
    [crypto.randomInt] draws.  Without a socket [this.client.write]
    raises a TypeError, after the two assignments, and the promise is
    rejected with it. *)
Definition authenticate (entropy : Z) (c : t) : t * Sent :=
  if authenticated c then (c, Resolved)
  else
    let secret := generateRandomSecret entropy in
    let publicKey := calculatePublicKey secret in
    let c' := mk (client c) (authenticated c) (sharedSecret c) (iinCounter c)
                (Some secret) (Some publicKey) (serverPublicKey c) (nonce c) in
    let helloPayload := writeUInt32BE publicKey in
    let sessionMessage := createSessionMessage 0x01 helloPayload None in
    let frame := createFrame sessionMessage in
    match client c with
    | NoSocket => (c', Rejected ClientError.Engine)
    | Socket _ => (c', Written frame)
    end.

(** [handleChallenge].  The three reads raise a RangeError on a payload
    that is too short, each after the assignments before it; a [null]
    key is written as 0 by [writeUInt32BE]; [this.client.write] raises a
    TypeError without a socket, and [BigInt(null)] in
    [calculateSharedSecret] raises one after the frame is written. *)
Definition handleChallenge (payload : Buffer) (c : t) : t * list Event :=
  if len payload <? 4 then (c, [EmitError ClientError.Engine])
  else
    let serverPublicKey := readUInt32BE payload 0 in
    let c1 := mk (client c) (authenticated c) (sharedSecret c) (iinCounter c)
                (clientSecret c) (clientPublicKey c) (Some serverPublicKey) (nonce c) in
    if len payload <? 12 then (c1, [EmitError ClientError.Engine])
    else
      let nonce := readBigUInt64BE payload 4 in
      let c2 := mk (client c) (authenticated c) (sharedSecret c) (iinCounter c)
                  (clientSecret c) (clientPublicKey c) (Some serverPublicKey)
                  (Some nonce) in
      if len payload <? 16 then (c2, [EmitError ClientError.Engine])
      else
        let authS := readUInt32BE payload 12 in
        let clientKey := default 0 (clientPublicKey c) in
        let expectedAuthS := calculateAuth serverPublicKey clientKey nonce in
        if negb (authS =? expectedAuthS)
        then (c2, [EmitError (ClientError.Message "Server authentication failed")])
        else
          let authC := calculateAuth clientKey serverPublicKey nonce in
          let authCPayload := writeUInt32BE authC in
          let sessionMessage := createSessionMessage 0x03 authCPayload None in
          let frame := createFrame sessionMessage in
          match client c, clientSecret c with
          | NoSocket, _ => (c2, [EmitError ClientError.Engine])
          | Socket _, None => (c2, [Write frame; EmitError ClientError.Engine])
          | Socket _, Some secret =>
              let sharedSecret := calculateSharedSecret serverPublicKey secret in
              (mk (client c) true (Some sharedSecret) (iinCounter c)
                  (clientSecret c) (clientPublicKey c) (Some serverPublicKey)
                  (Some nonce),
               [Write frame; EmitAuthenticated])
          end.

(** [handleData]: one chunk is read as one frame, presentation header
    first, session message inside. *)
Definition handleData (data : Buffer) (c : t) : t * list Event :=
  match parseFrame data with
  | Throw message => (c, [EmitError (ClientError.Message message)])
  | Ok frame =>
      match parsePresentationMessage (ClientFrame.payload frame) with
      | Throw message => (c, [EmitError (ClientError.Message message)])
      | Ok presentationMsg =>
          let sessionMsg :=
            parseSessionMessage (PresentationMessage.payload presentationMsg) in
          match ClientSessionMessage.messageType sessionMsg with
          | Some t =>
              if t =? 0x02
              then handleChallenge (ClientSessionMessage.payload sessionMsg) c
              else if (t =? 0x00) || (t =? 0x01)
              then (c, [EmitResponse sessionMsg])
              else (c, [])
          | None => (c, [EmitError ClientError.Engine])
          end
      end
  end.

(** [sendControlCommand]: what the promise does before it waits for the
    response. *)
Definition sendControlCommand (command : Z) (actionPayload : option Z) (c : t)
  : t * Sent :=
  if negb (connected c) then (c, Rejected (ClientError.Message "Not connected"))
  else if negb (authenticated c)
  then (c, Rejected (ClientError.Message "Not authenticated"))
  else
    let commandPayload :=
      [byte_of_Z command]
      ++ match actionPayload with
         | Some a => [byte_of_Z a]
         | None => []
         end in
    let iin := iinCounter c in
    let c' := mk (client c) (authenticated c) (sharedSecret c) (iin + 1)
                (clientSecret c) (clientPublicKey c) (serverPublicKey c) (nonce c) in
    if (iin <? 0) || (65535 <? iin) then (c', Rejected ClientError.Engine)
    else
      let presentationMsg := createPresentationMessage iin commandPayload in
      let hmac := calculateHMAC (default 0 (sharedSecret c)) presentationMsg in
      let sessionMessage := createSessionMessage 0x00 presentationMsg (Some hmac) in
      let frame := createFrame sessionMessage in
      match client c with
      | NoSocket => (c', Rejected ClientError.Engine)
      | Socket _ => (c', Written frame)
      end.

End LawnmowerTCPClient.

(** ** Invariants of a connection *)

Module Invariant.

Import TCPService.

(** What [handleHello] stores: a secret of [crypto.randomInt(1, 0x10000)],
    its public key, a 64-bit nonce and the 32-bit key read from HELLO. *)
Definition wellFormedAuthState (a : AuthState.t) : Prop :=
  1 <= AuthState.serverSecret a <= 0xFFFF
  /\ 0 <= AuthState.clientPublicKey a < 2 ^ 32
  /\ 0 <= AuthState.nonce a < 2 ^ 64
  /\ AuthState.serverPublicKey a
     = CryptoService.calculatePublicKey (AuthState.serverSecret a).

Definition wellFormed (c : ConnectionInfo.t) : Prop :=
  (forall a, ConnectionInfo.authState c = Some a -> wellFormedAuthState a)
  /\ (ConnectionInfo.authenticated c = true ->
      exists a k,
        ConnectionInfo.authState c = Some a
        /\ ConnectionInfo.sharedSecret c = Some k
        /\ 0 <= k < CryptoService.DH_MODULUS)
  /\ (ConnectionInfo.authenticated c = false -> ConnectionInfo.sharedSecret c = None).

(** The service after a computation, and what it did. *)
Definition stateAfter {A : Type} (m : M A) (st : State) : State := snd (fst (m st)).
Definition eventsOf {A : Type} (m : M A) (st : State) : list Event := snd (m st).

End Invariant.

(** ** Values that the properties compare with *)

Module Expected.

Import ProtocolService TCPService.

(** The checksum as a number: the two's complement of the byte sum,
    modulo [2^16]. *)
Definition checksumValue (buffer : Buffer) : Z := (- sum_bytes buffer) mod 2 ^ 16.

(** The record that [handleHello] stores for a client key, given the
    entropy that the service draws next. *)
Definition helloAuthState (st : State) (clientPublicKey : Z) : AuthState.t :=
  let serverSecret := CryptoService.generateRandomSecret (entropy st (drawn st)) in
  {| AuthState.serverSecret := serverSecret;
     AuthState.clientPublicKey := clientPublicKey;
     AuthState.nonce := CryptoService.generateNonce (entropy st (S (drawn st)));
     AuthState.serverPublicKey := CryptoService.calculatePublicKey serverSecret |}.

(** The service once [handleHello] has stored that record. *)
Definition afterHello (st : State) (connectionId : Z) (c : ConnectionInfo.t)
    (clientPublicKey : Z) : State :=
  mkState
    (<[connectionId :=
         ConnectionInfo.set_authState c (helloAuthState st clientPublicKey)]>
       (connections st))
    (entropy st) (S (S (drawn st))).

(** The frame that [handleHello] writes for the record it stores. *)
Definition challengeFrame (a : AuthState.t) : Buffer :=
  createFrame
    (createPresentationMessage 0
       (createSessionMessage CHALLENGE
          (CryptoService.createChallengePayload
             (AuthState.serverPublicKey a) (AuthState.nonce a)
             (CryptoService.calculateMAC CryptoService.PSK
                (writeUInt32BE (AuthState.serverPublicKey a)
                 ++ writeUInt32BE (AuthState.clientPublicKey a)
                 ++ writeBigUInt64BE (AuthState.nonce a))))
          (Some [x00; x00; x00; x00]))).

(** The service once [handleClientAuth] has accepted the client. *)
Definition afterClientAuth (st : State) (connectionId : Z) (c : ConnectionInfo.t)
    (a : AuthState.t) : State :=
  mkState
    (<[connectionId :=
         ConnectionInfo.set_authenticated c
           (CryptoService.calculateSharedSecret
              (AuthState.clientPublicKey a) (AuthState.serverSecret a))]>
       (connections st))
    (entropy st) (drawn st).

(** The MAC that the server expects in CLIENT_AUTH. *)
Definition expectedAuthC (a : AuthState.t) : Z :=
  CryptoService.calculateMAC CryptoService.PSK
    (writeUInt32BE (AuthState.clientPublicKey a)
     ++ writeUInt32BE (AuthState.serverPublicKey a)
     ++ writeBigUInt64BE (AuthState.nonce a)).

(** The frames of a client that is built from the client-side functions
    of [cryptoService] and from [protocolService]. *)
Definition helloFrame (clientSecret : Z) : Buffer :=
  createFrame
    (createSessionMessage HELLO
       (CryptoService.createHelloPayload
          (CryptoService.calculatePublicKey clientSecret)) None).

Definition clientAuthFrame (clientSecret : Z) (challenge : Challenge.t) : Buffer :=
  createFrame
    (createSessionMessage CLIENT_AUTH
       (CryptoService.createClientAuthPayload
          (ClientAuth.authC
             (CryptoService.createClientAuth clientSecret
                (Challenge.serverPublicKey challenge)
                (Challenge.nonce challenge)))) None).

(** The status bytes that [stateMap] names. *)
Definition knownStatus (status : Z) : Prop :=
  status = 0x00 \/ status = 0x01 \/ status = 0x02 \/ status = 0x03
  \/ status = 0x04 \/ status = 0x80.

End Expected.
(** * Properties *)

(** ** Bytes and 32-bit operators *)

Section Bytes.

Lemma Z_of_byte_range (b : byte) : 0 <= Z_of_byte b < 256.
Proof.
  unfold Z_of_byte. pose proof (Byte.to_N_bounded b). lia.
Qed.

Lemma Z_of_byte_of_Z (v : Z) : Z_of_byte (byte_of_Z v) = v mod 256.
Proof.
  unfold Z_of_byte, byte_of_Z.
  pose proof (Z.mod_pos_bound v 256 ltac:(lia)) as Hv.
  destruct (Byte.of_N (Z.to_N (v mod 256))) as [b|] eqn:E.
  - apply Byte.to_of_N in E. rewrite E. lia.
  - apply Byte.of_N_None_iff in E. lia.
Qed.

Lemma byte_of_Z_of_byte (b : byte) : byte_of_Z (Z_of_byte b) = b.
Proof.
  unfold byte_of_Z. pose proof (Z_of_byte_range b) as Hb.
  rewrite Z.mod_small by lia. unfold Z_of_byte. rewrite N2Z.id.
  now rewrite Byte.of_to_N.
Qed.

Lemma Z_of_byte_of_Z_small (v : Z) : 0 <= v < 256 -> Z_of_byte (byte_of_Z v) = v.
Proof. intros Hv. rewrite Z_of_byte_of_Z. apply Z.mod_small; lia. Qed.

Lemma toInt32_small (x : Z) : - 2 ^ 31 <= x < 2 ^ 31 -> JS.toInt32 x = x.
Proof. intros Hx. unfold JS.toInt32. rewrite Z.mod_small; lia. Qed.

Lemma toInt32_cong (x : Z) : JS.toInt32 x mod 2 ^ 32 = x mod 2 ^ 32.
Proof.
  unfold JS.toInt32.
  rewrite Zminus_mod, Zmod_mod, <- Zminus_mod.
  f_equal. lia.
Qed.

(** [x & 0x7F], [x & 0x80], [x | 0x80], [x >> 7] on small values. *)
Lemma and_7F (x : Z) : 0 <= x < 2 ^ 31 -> JS.and x 0x7F = x mod 128.
Proof.
  intros Hx. unfold JS.and. rewrite !toInt32_small by lia.
  change 0x7F with (Z.ones 7). rewrite Z.land_ones by lia. reflexivity.
Qed.

Lemma shr_7 (x : Z) : 0 <= x < 2 ^ 31 -> JS.shr x 7 = x / 128.
Proof.
  intros Hx. unfold JS.shr. rewrite toInt32_small by lia.
  change (JS.toUint32 7 mod 32) with 7. now rewrite Z.shiftr_div_pow2 by lia.
Qed.

Lemma land_shiftl_low (acc x s : Z) :
  0 <= s -> 0 <= acc < 2 ^ s -> Z.land acc (Z.shiftl x s) = 0.
Proof.
  intros Hs Hacc. apply Z.bits_inj'. intros i Hi.
  rewrite Z.land_spec, Z.bits_0.
  destruct (Z_lt_dec i s) as [Hlt|Hge].
  - rewrite (Z.shiftl_spec_low x s i) by lia. apply andb_false_r.
  - rewrite <- (Z.mod_small acc (2 ^ s)) by lia.
    rewrite Z.mod_pow2_bits_high by lia. reflexivity.
Qed.

Lemma lor_shiftl_low (acc x s : Z) :
  0 <= s -> 0 <= acc < 2 ^ s -> Z.lor acc (x * 2 ^ s) = acc + x * 2 ^ s.
Proof.
  intros Hs Hacc. rewrite <- Z.shiftl_mul_pow2 by lia.
  pose proof (land_shiftl_low acc x s Hs Hacc) as H0.
  rewrite (Z.add_nocarry_lxor _ _ H0). symmetry. now apply Z.lxor_lor.
Qed.

Lemma or_80 (x : Z) : 0 <= x < 128 -> JS.or x 0x80 = x + 128.
Proof.
  intros Hx. unfold JS.or. rewrite !toInt32_small by lia.
  change 0x80 with (1 * 2 ^ 7). apply lor_shiftl_low; lia.
Qed.

Lemma and_80 (x : Z) : 0 <= x < 256 -> JS.and x 0x80 = 128 * (x / 128).
Proof.
  intros Hx. unfold JS.and. rewrite !toInt32_small by lia.
  pose proof (Z.mod_pos_bound x 128 ltac:(lia)) as Hm.
  pose proof (Z.div_mod x 128 ltac:(lia)) as Hdm.
  assert (Hd : x / 128 = 0 \/ x / 128 = 1) by lia.
  assert (Hx' : x = Z.lor (x mod 128) (x / 128 * 2 ^ 7)).
  { rewrite lor_shiftl_low by lia. lia. }
  assert (Hlow : Z.land (x mod 128) 128 = 0).
  { apply (land_shiftl_low (x mod 128) 1 7); lia. }
  rewrite Hx' at 1.
  rewrite Z.land_lor_distr_l, Hlow, Z.lor_0_l.
  destruct Hd as [-> | ->]; reflexivity.
Qed.

Lemma shl_small (x s : Z) :
  0 <= x < 128 -> 0 <= s <= 14 -> JS.shl x s = x * 2 ^ s.
Proof.
  intros Hx Hs. unfold JS.shl, JS.toUint32.
  rewrite (toInt32_small x) by lia.
  rewrite (Z.mod_small s (2 ^ 32)) by lia.
  rewrite (Z.mod_small s 32) by lia.
  rewrite Z.shiftl_mul_pow2 by lia.
  apply toInt32_small.
  assert (0 < 2 ^ s <= 2 ^ 14) by (split; [apply Z.pow_pos_nonneg; lia | apply Z.pow_le_mono_r; lia]).
  nia.
Qed.

Lemma or_shifted (acc x s : Z) :
  0 <= s <= 14 -> 0 <= acc < 2 ^ s -> 0 <= x < 128 ->
  JS.or acc (x * 2 ^ s) = acc + x * 2 ^ s.
Proof.
  intros Hs Hacc Hx. unfold JS.or.
  assert (0 < 2 ^ s <= 2 ^ 14) by (split; [apply Z.pow_pos_nonneg; lia | apply Z.pow_le_mono_r; lia]).
  rewrite !toInt32_small by nia.
  apply lor_shiftl_low; lia.
Qed.

End Bytes.

(** ** Frame codec *)

Section FrameCodec.

Import ProtocolService.

(** The loop of [encodeLength], one turn at a time. *)
Lemma encodeLength_loop_step (n : Z) :
  encodeLength_loop n
  = if n >? 0
    then byte_of_Z (if JS.shr n 7 >? 0 then JS.or (JS.and n 0x7F) 0x80
                    else JS.and n 0x7F)
           :: encodeLength_loop (JS.shr n 7)
    else [].
Proof.
  etransitivity; [apply encodeLength_loop_equation_1|].
  destruct (Z_gt_dec n 0) as [Hgt|Hle]; cbn.
  - destruct (Z.gtb_spec n 0); [reflexivity | lia].
  - destruct (Z.gtb_spec n 0); [lia | reflexivity].
Qed.

Lemma encodeLength_loop_nonpos (n : Z) : n <= 0 -> encodeLength_loop n = [].
Proof.
  intros Hn. rewrite encodeLength_loop_step.
  destruct (Z.gtb_spec n 0); [lia | reflexivity].
Qed.

Lemma encodeLength_loop_pos (n : Z) :
  0 < n < 2 ^ 31 ->
  encodeLength_loop n
  = byte_of_Z (n mod 128 + (if n / 128 >? 0 then 128 else 0))
      :: encodeLength_loop (n / 128).
Proof.
  intros Hn. rewrite encodeLength_loop_step.
  destruct (Z.gtb_spec n 0); [|lia].
  rewrite shr_7, and_7F by lia.
  pose proof (Z.mod_pos_bound n 128 ltac:(lia)).
  destruct (n / 128 >? 0).
  - now rewrite or_80 by lia.
  - now rewrite Z.add_0_r.
Qed.

(** The three shapes of an encoded length below [2^21]. *)
Lemma encodeLength_1 (n : Z) :
  0 <= n < 2 ^ 7 -> encodeLength n = [byte_of_Z n].
Proof.
  intros Hn. unfold encodeLength.
  destruct (Z.eqb_spec n 0) as [->|Hnz]; [reflexivity|].
  rewrite encodeLength_loop_pos by lia.
  rewrite (Z.div_small n 128) by lia.
  rewrite (Z.mod_small n 128) by lia.
  rewrite encodeLength_loop_nonpos by lia.
  cbn. now rewrite Z.add_0_r.
Qed.

Lemma encodeLength_2 (n : Z) :
  2 ^ 7 <= n < 2 ^ 14 ->
  encodeLength n = [byte_of_Z (n mod 128 + 128); byte_of_Z (n / 128)].
Proof.
  intros Hn. unfold encodeLength.
  destruct (Z.eqb_spec n 0) as [->|Hnz]; [lia|].
  assert (1 <= n / 128 < 128).
  { split; [apply Z.div_le_lower_bound; lia | apply Z.div_lt_upper_bound; lia]. }
  rewrite encodeLength_loop_pos by lia.
  destruct (Z.gtb_spec (n / 128) 0); [|lia].
  rewrite encodeLength_loop_pos by lia.
  rewrite (Z.div_small (n / 128) 128) by lia.
  rewrite (Z.mod_small (n / 128) 128) by lia.
  rewrite encodeLength_loop_nonpos by lia.
  cbn. now rewrite Z.add_0_r.
Qed.

Lemma encodeLength_3 (n : Z) :
  2 ^ 14 <= n < 2 ^ 21 ->
  encodeLength n
  = [byte_of_Z (n mod 128 + 128); byte_of_Z (n / 128 mod 128 + 128);
     byte_of_Z (n / 128 / 128)].
Proof.
  intros Hn. unfold encodeLength.
  destruct (Z.eqb_spec n 0) as [->|Hnz]; [lia|].
  assert (128 <= n / 128 < 2 ^ 14).
  { split; [apply Z.div_le_lower_bound; lia | apply Z.div_lt_upper_bound; lia]. }
  assert (1 <= n / 128 / 128 < 128).
  { split; [apply Z.div_le_lower_bound; lia | apply Z.div_lt_upper_bound; lia]. }
  rewrite encodeLength_loop_pos by lia.
  destruct (Z.gtb_spec (n / 128) 0); [|lia].
  rewrite encodeLength_loop_pos by lia.
  destruct (Z.gtb_spec (n / 128 / 128) 0); [|lia].
  rewrite encodeLength_loop_pos by lia.
  rewrite (Z.div_small (n / 128 / 128) 128) by lia.
  rewrite (Z.mod_small (n / 128 / 128) 128) by lia.
  rewrite encodeLength_loop_nonpos by lia.
  cbn. now rewrite Z.add_0_r.
Qed.

(** From [2^21] on the encoding starts with three continuation bytes. *)
Lemma encodeLength_long (n : Z) :
  2 ^ 21 <= n < 2 ^ 31 ->
  exists rest,
    encodeLength n
    = byte_of_Z (n mod 128 + 128) :: byte_of_Z (n / 128 mod 128 + 128)
        :: byte_of_Z (n / 128 / 128 mod 128 + 128) :: rest
    /\ rest <> [].
Proof.
  intros Hn. unfold encodeLength.
  destruct (Z.eqb_spec n 0) as [->|Hnz]; [lia|].
  assert (2 ^ 14 <= n / 128 < 2 ^ 24).
  { split; [apply Z.div_le_lower_bound; lia | apply Z.div_lt_upper_bound; lia]. }
  assert (2 ^ 7 <= n / 128 / 128 < 2 ^ 17).
  { split; [apply Z.div_le_lower_bound; lia | apply Z.div_lt_upper_bound; lia]. }
  assert (1 <= n / 128 / 128 / 128 < 2 ^ 10).
  { split; [apply Z.div_le_lower_bound; lia | apply Z.div_lt_upper_bound; lia]. }
  rewrite encodeLength_loop_pos by lia.
  destruct (Z.gtb_spec (n / 128) 0); [|lia].
  rewrite encodeLength_loop_pos by lia.
  destruct (Z.gtb_spec (n / 128 / 128) 0); [|lia].
  rewrite encodeLength_loop_pos by lia.
  destruct (Z.gtb_spec (n / 128 / 128 / 128) 0); [|lia].
  rewrite (encodeLength_loop_pos (n / 128 / 128 / 128)) by lia.
  eexists. split; [reflexivity | discriminate].
Qed.

(** One turn of the loop of [decodeLength]. *)
Lemma decodeLength_loop_cons (b : byte) (rest : Buffer) (acc offset shift : Z) :
  0 <= shift <= 14 -> 0 <= acc < 2 ^ shift ->
  decodeLength_loop (b :: rest) acc offset shift
  = if Z_of_byte b <? 128
    then Ok (acc + Z_of_byte b * 2 ^ shift, offset + 1)
    else if shift + 7 >=? 21 then Throw "Length encoding too long"
         else decodeLength_loop rest (acc + (Z_of_byte b - 128) * 2 ^ shift)
                (offset + 1) (shift + 7).
Proof.
  intros Hs Hacc. pose proof (Z_of_byte_range b) as Hb.
  cbn [decodeLength_loop].
  rewrite and_7F, and_80 by lia.
  pose proof (Z.mod_pos_bound (Z_of_byte b) 128 ltac:(lia)) as Hm.
  pose proof (Z.div_mod (Z_of_byte b) 128 ltac:(lia)) as Hdm.
  rewrite shl_small by lia.
  rewrite or_shifted by lia.
  destruct (Z.ltb_spec (Z_of_byte b) 128) as [Hlt|Hge].
  - assert (Z_of_byte b / 128 = 0) as -> by lia.
    cbn. f_equal. f_equal. f_equal. f_equal. lia.
  - assert (Z_of_byte b / 128 = 1) as Hq by lia.
    rewrite Hq. cbn [Z.mul Z.eqb Pos.mul].
    replace (Z_of_byte b mod 128) with (Z_of_byte b - 128) by lia.
    reflexivity.
Qed.

End FrameCodec.

Section FrameRoundTrip.

Import ProtocolService.

Lemma len_app (a b : Buffer) : len (a ++ b) = len a + len b.
Proof. unfold len. rewrite length_app. lia. Qed.

Lemma len_cons (x : byte) (a : Buffer) : len (x :: a) = 1 + len a.
Proof. unfold len. cbn [length]. lia. Qed.

Lemma len_nonneg (a : Buffer) : 0 <= len a.
Proof. unfold len. lia. Qed.

Lemma slice_from_app (a b : Buffer) : slice_from (a ++ b) (len a) = b.
Proof.
  unfold slice_from, len. rewrite Nat2Z.id. apply drop_app_length.
Qed.

Lemma slice_prefix (a b : Buffer) : slice (a ++ b) 0 (len a) = a.
Proof.
  unfold slice, len. rewrite Z.sub_0_r, Nat2Z.id. cbn [Z.to_nat drop].
  apply take_app_length.
Qed.

Lemma slice_middle (a b c : Buffer) (n : Z) :
  n = len b -> slice (a ++ b ++ c) (len a) (len a + n) = b.
Proof.
  intros ->. unfold slice, len.
  replace (Z.of_nat (length a) + Z.of_nat (length b) - Z.of_nat (length a))
    with (Z.of_nat (length b)) by lia.
  rewrite !Nat2Z.id, drop_app_length. apply take_app_length.
Qed.

Lemma len_calculateChecksum (buffer : Buffer) : len (calculateChecksum buffer) = 2.
Proof. reflexivity. Qed.

Lemma encodeLength_nonempty (n : Z) : 0 <= n -> 1 <= len (encodeLength n).
Proof.
  intros Hn. unfold encodeLength.
  destruct (Z.eqb_spec n 0) as [->|Hnz]; [unfold len; cbn [length]; lia|].
  rewrite encodeLength_loop_step.
  destruct (Z.gtb_spec n 0) as [Hgt|Hle]; [|lia].
  rewrite len_cons. pose proof (len_nonneg (encodeLength_loop (JS.shr n 7))). lia.
Qed.

(** Decoding an encoded length, whatever follows it in the buffer. *)
Lemma decodeLength_encodeLength (n offset : Z) (rest : Buffer) :
  0 <= n < 2 ^ 21 ->
  decodeLength_loop (encodeLength n ++ rest) 0 offset 0
  = Ok (n, offset + len (encodeLength n)).
Proof.
  intros Hn.
  pose proof (Z.mod_pos_bound n 128 ltac:(lia)) as Hm.
  pose proof (Z.div_mod n 128 ltac:(lia)) as Hdm.
  destruct (Z_lt_dec n (2 ^ 7)) as [H1|H1];
    [|destruct (Z_lt_dec n (2 ^ 14)) as [H2|H2]].
  - rewrite encodeLength_1 by lia. cbn [app].
    rewrite decodeLength_loop_cons by lia.
    rewrite Z_of_byte_of_Z_small by lia.
    destruct (Z.ltb_spec n 128); [|lia].
    change (2 ^ 0) with 1. change (2 ^ (0 + 7)) with 128.
    change (2 ^ (0 + 7 + 7)) with (128 * 128).
    f_equal; f_equal; unfold len; cbn [length]; lia.
  - assert (1 <= n / 128 < 128).
    { split; [apply Z.div_le_lower_bound; lia | apply Z.div_lt_upper_bound; lia]. }
    rewrite encodeLength_2 by lia. cbn [app].
    rewrite decodeLength_loop_cons by lia.
    rewrite Z_of_byte_of_Z_small by lia.
    destruct (Z.ltb_spec (n mod 128 + 128) 128); [lia|].
    change (0 + 7 >=? 21) with false. cbv iota.
    rewrite decodeLength_loop_cons by lia.
    rewrite Z_of_byte_of_Z_small by lia.
    destruct (Z.ltb_spec (n / 128) 128); [|lia].
    change (2 ^ 0) with 1. change (2 ^ (0 + 7)) with 128.
    change (2 ^ (0 + 7 + 7)) with (128 * 128).
    f_equal; f_equal; unfold len; cbn [length]; lia.
  - assert (128 <= n / 128 < 2 ^ 14).
    { split; [apply Z.div_le_lower_bound; lia | apply Z.div_lt_upper_bound; lia]. }
    assert (1 <= n / 128 / 128 < 128).
    { split; [apply Z.div_le_lower_bound; lia | apply Z.div_lt_upper_bound; lia]. }
    pose proof (Z.mod_pos_bound (n / 128) 128 ltac:(lia)) as Hm2.
    pose proof (Z.div_mod (n / 128) 128 ltac:(lia)) as Hdm2.
    rewrite encodeLength_3 by lia. cbn [app].
    rewrite decodeLength_loop_cons by lia.
    rewrite Z_of_byte_of_Z_small by lia.
    destruct (Z.ltb_spec (n mod 128 + 128) 128); [lia|].
    change (0 + 7 >=? 21) with false. cbv iota.
    rewrite decodeLength_loop_cons by lia.
    rewrite Z_of_byte_of_Z_small by lia.
    destruct (Z.ltb_spec (n / 128 mod 128 + 128) 128); [lia|].
    change (0 + 7 + 7 >=? 21) with false. cbv iota.
    rewrite decodeLength_loop_cons by lia.
    rewrite Z_of_byte_of_Z_small by lia.
    destruct (Z.ltb_spec (n / 128 / 128) 128); [|lia].
    change (2 ^ 0) with 1. change (2 ^ (0 + 7)) with 128.
    change (2 ^ (0 + 7 + 7)) with (128 * 128).
    f_equal; f_equal; unfold len; cbn [length]; lia.
Qed.

End FrameRoundTrip.

Section ParseFrame.

Import ProtocolService.

(** [parseFrame] on a buffer that starts with SOF, a length field [L] that
    decodes to the length of [p], then [p] and the checksum of what came
    before. *)
Lemma parseFrame_layout (L p tail : Buffer) :
  (forall rest, decodeLength_loop (L ++ rest) 0 1 0 = Ok (len p, 1 + len L)) ->
  1 <= len L ->
  let F := byte_of_Z SOF_MARKER :: L ++ p in
  parseFrame (F ++ calculateChecksum F ++ tail)
  = Ok {| Frame.payload := p; Frame.totalLength := len F + 2 |}.
Proof.
  intros Hdec HL F.
  pose proof (len_nonneg p) as Hp. pose proof (len_nonneg tail) as Ht.
  assert (HF : len F = 1 + len L + len p).
  { unfold F. rewrite len_cons, len_app. lia. }
  set (C := calculateChecksum F).
  assert (HC : len C = 2) by reflexivity.
  unfold parseFrame.
  replace (len (F ++ C ++ tail) <? 4) with false
    by (symmetry; apply Z.ltb_ge; rewrite !len_app; lia).
  replace (at_index (F ++ C ++ tail) 0) with (Some (byte_of_Z SOF_MARKER))
    by reflexivity.
  rewrite bool_decide_eq_true_2 by reflexivity. cbn [negb].
  assert (Hd : decodeLength (F ++ C ++ tail) 1 = Ok (len p, 1 + len L)).
  { unfold decodeLength, slice_from. change (Z.to_nat 1) with 1%nat.
    unfold F. cbn [app drop]. rewrite <- app_assoc. apply Hdec. }
  rewrite Hd.
  replace (len (F ++ C ++ tail) <? 1 + len L + len p + 2) with false
    by (symmetry; apply Z.ltb_ge; rewrite !len_app; lia).
  assert (Hrecv : slice (F ++ C ++ tail) (1 + len L + len p) (1 + len L + len p + 2) = C).
  { rewrite <- HF. apply (slice_middle F C tail 2). now rewrite HC. }
  assert (Hfwc : slice (F ++ C ++ tail) 0 (1 + len L + len p) = F).
  { rewrite <- HF. apply slice_prefix. }
  assert (Hpay : slice (F ++ C ++ tail) (1 + len L) (1 + len L + len p) = p).
  { replace (F ++ C ++ tail) with ((byte_of_Z SOF_MARKER :: L) ++ p ++ (C ++ tail))
      by (unfold F; cbn [app]; now rewrite <- app_assoc).
    rewrite <- (len_cons (byte_of_Z SOF_MARKER) L).
    now apply slice_middle. }
  rewrite Hrecv, Hfwc, Hpay. fold C.
  unfold equals. rewrite bool_decide_eq_true_2 by reflexivity. cbn [negb].
  f_equal. f_equal. lia.
Qed.

(** The round trip of the frame codec, with anything after the frame. *)
Lemma parseFrame_createFrame_app (p tail : Buffer) :
  len p <= 2 ^ 21 - 1 ->
  parseFrame (createFrame p ++ tail)
  = Ok {| Frame.payload := p; Frame.totalLength := len (createFrame p) |}.
Proof.
  intros Hp. pose proof (len_nonneg p) as Hp0.
  set (L := encodeLength (len p)).
  assert (Hdec : forall rest, decodeLength_loop (L ++ rest) 0 1 0 = Ok (len p, 1 + len L))
    by (intros rest; apply decodeLength_encodeLength; lia).
  assert (HL : 1 <= len L) by (apply encodeLength_nonempty; lia).
  pose proof (parseFrame_layout L p tail Hdec HL) as Hlay. cbv zeta in Hlay.
  replace (createFrame p ++ tail)
    with ((byte_of_Z SOF_MARKER :: L ++ p)
            ++ calculateChecksum (byte_of_Z SOF_MARKER :: L ++ p) ++ tail)
    by (unfold createFrame; fold L; now rewrite <- app_assoc).
  rewrite Hlay. f_equal. f_equal.
  unfold createFrame. fold L. now rewrite len_app.
Qed.

(** A payload that [parseFrame] returns is shorter than [2^21]. *)
Lemma decodeLength_loop_bound (rest : Buffer) (offset n o : Z) :
  decodeLength_loop rest 0 offset 0 = Ok (n, o) ->
  0 <= n < 2 ^ 21 /\ offset <= o <= offset + 3.
Proof.
  destruct rest as [|b1 rest].
  { cbn [decodeLength_loop]. intros [= <- <-]. lia. }
  pose proof (Z_of_byte_range b1).
  rewrite decodeLength_loop_cons by lia.
  change (2 ^ 0) with 1.
  destruct (Z.ltb_spec (Z_of_byte b1) 128).
  { intros [= <- <-]. lia. }
  change (0 + 7 >=? 21) with false. cbv iota.
  destruct rest as [|b2 rest].
  { cbn [decodeLength_loop]. intros [= <- <-]. lia. }
  pose proof (Z_of_byte_range b2).
  rewrite decodeLength_loop_cons by (change (2 ^ (0 + 7)) with 128; lia).
  change (2 ^ (0 + 7)) with 128.
  destruct (Z.ltb_spec (Z_of_byte b2) 128).
  { intros [= <- <-]. lia. }
  change (0 + 7 + 7 >=? 21) with false. cbv iota.
  destruct rest as [|b3 rest].
  { cbn [decodeLength_loop]. intros [= <- <-]. lia. }
  pose proof (Z_of_byte_range b3).
  rewrite decodeLength_loop_cons by (change (2 ^ (0 + 7 + 7)) with 16384; lia).
  change (2 ^ (0 + 7 + 7)) with 16384.
  destruct (Z.ltb_spec (Z_of_byte b3) 128).
  { intros [= <- <-]. lia. }
  change (0 + 7 + 7 + 7 >=? 21) with true. cbv iota. discriminate.
Qed.

Lemma parseFrame_inv (buffer : Buffer) (frame : Frame.t) :
  parseFrame buffer = Ok frame ->
  exists offset,
    decodeLength buffer 1 = Ok (len (Frame.payload frame), offset)
    /\ at_index buffer 0 = Some (byte_of_Z SOF_MARKER)
    /\ 4 <= len buffer
    /\ Frame.totalLength frame = offset + len (Frame.payload frame) + 2
    /\ Frame.totalLength frame <= len buffer
    /\ len (Frame.payload frame) < 2 ^ 21.
Proof.
  unfold parseFrame.
  destruct (Z.ltb_spec (len buffer) 4) as [|H4]; [discriminate|].
  destruct (bool_decide (at_index buffer 0 = Some (byte_of_Z SOF_MARKER))) eqn:Hsof;
    [|discriminate].
  apply bool_decide_eq_true_1 in Hsof. cbn [negb].
  destruct (decodeLength buffer 1) as [[n o]|] eqn:Hd; [|discriminate].
  destruct (Z.ltb_spec (len buffer) (o + n + 2)) as [|Hlen]; [discriminate|].
  destruct (negb _); [discriminate|].
  intros [= <-]. cbn [Frame.payload Frame.totalLength].
  pose proof Hd as Hd'. unfold decodeLength in Hd'.
  pose proof (decodeLength_loop_bound _ _ _ _ Hd') as [Hn Ho].
  assert (Hpl : len (slice buffer o (o + n)) = n).
  { unfold slice, len. rewrite length_take, length_drop.
    unfold len in Hlen. lia. }
  exists o. rewrite Hpl. repeat split; try lia; try assumption.
Qed.

End ParseFrame.

Section FrameClaims.

Import ProtocolService.

(** C1. Frame codec round trip: for every payload [p] of at most
    [2^21 - 1] bytes, [parseFrame (createFrame p)] succeeds and returns
    exactly [p], with [totalLength] the length of [createFrame p]; the same
    holds when arbitrary bytes follow the encoded frame. *)
Theorem frame_round_trip (p tail : Buffer) :
  len p <= 2 ^ 21 - 1 ->
  parseFrame (createFrame p)
  = Ok {| Frame.payload := p; Frame.totalLength := len (createFrame p) |}
  /\ parseFrame (createFrame p ++ tail)
     = Ok {| Frame.payload := p; Frame.totalLength := len (createFrame p) |}.
Proof.
  intros Hp. split.
  - rewrite <- (app_nil_r (createFrame p)) at 1.
    now apply parseFrame_createFrame_app.
  - now apply parseFrame_createFrame_app.
Qed.

Lemma frame_round_trip_witness :
  len [xde; xad; xbe; xef] <= 2 ^ 21 - 1
  /\ parseFrame (createFrame [xde; xad; xbe; xef])
     = Ok {| Frame.payload := [xde; xad; xbe; xef];
             Frame.totalLength := len (createFrame [xde; xad; xbe; xef]) |}
  /\ parseFrame (createFrame [xde; xad; xbe; xef] ++ [xaa; x00])
     = Ok {| Frame.payload := [xde; xad; xbe; xef];
             Frame.totalLength := len (createFrame [xde; xad; xbe; xef]) |}.
Proof.
  split; [vm_compute; discriminate|].
  apply (frame_round_trip [xde; xad; xbe; xef] [xaa; x00]).
  vm_compute; discriminate.
Defined.

(** The sum of the checksum over zero bytes. *)
Lemma sum_bytes_app (a b : Buffer) : sum_bytes (a ++ b) = sum_bytes a + sum_bytes b.
Proof.
  unfold sum_bytes. rewrite fold_left_app.
  generalize (fold_left (fun sum x => sum + Z_of_byte x) a 0). intros s.
  revert s. induction b as [|x b IH]; intros s; cbn [fold_left].
  - lia.
  - rewrite IH, (IH (0 + Z_of_byte x)). lia.
Qed.

Lemma sum_bytes_zeros (n : nat) : sum_bytes (repeat x00 n) = 0.
Proof.
  induction n as [|n IH]; [reflexivity|].
  change (repeat x00 (S n)) with ([x00] ++ repeat x00 n).
  rewrite sum_bytes_app, IH. reflexivity.
Qed.

Lemma decodeLength_too_long (b1 b2 b3 : byte) (rest : Buffer) (offset : Z) :
  128 <= Z_of_byte b1 -> 128 <= Z_of_byte b2 -> 128 <= Z_of_byte b3 ->
  decodeLength_loop (b1 :: b2 :: b3 :: rest) 0 offset 0
  = Throw "Length encoding too long".
Proof.
  intros H1 H2 H3.
  pose proof (Z_of_byte_range b1). pose proof (Z_of_byte_range b2).
  pose proof (Z_of_byte_range b3).
  rewrite decodeLength_loop_cons by lia. change (2 ^ 0) with 1.
  destruct (Z.ltb_spec (Z_of_byte b1) 128); [lia|].
  change (0 + 7 >=? 21) with false. cbv iota.
  rewrite decodeLength_loop_cons by (change (2 ^ (0 + 7)) with 128; lia).
  change (2 ^ (0 + 7)) with 128.
  destruct (Z.ltb_spec (Z_of_byte b2) 128); [lia|].
  change (0 + 7 + 7 >=? 21) with false. cbv iota.
  rewrite decodeLength_loop_cons by (change (2 ^ (0 + 7 + 7)) with 16384; lia).
  destruct (Z.ltb_spec (Z_of_byte b3) 128); [lia|].
  reflexivity.
Qed.

(** C7, as the code has it.  [createFrame] has no length check and never
    rejects a payload: it always returns SOF, length field, payload and
    checksum.  For a payload of [2^21] bytes or more (below [2^31]) the
    length field takes more than three bytes, and [parseFrame] refuses the
    frame with "Length encoding too long". *)
Theorem createFrame_long_payload (p tail : Buffer) :
  2 ^ 21 - 1 < len p < 2 ^ 31 ->
  createFrame p
  = [byte_of_Z SOF_MARKER] ++ encodeLength (len p) ++ p
    ++ calculateChecksum ([byte_of_Z SOF_MARKER] ++ encodeLength (len p) ++ p)
  /\ 3 < len (encodeLength (len p))
  /\ parseFrame (createFrame p ++ tail) = Throw "Length encoding too long".
Proof.
  intros Hp.
  destruct (encodeLength_long (len p) ltac:(lia)) as (rest & HL & Hrest).
  split; [|split].
  - unfold createFrame. now rewrite <- !app_assoc.
  - rewrite HL, !len_cons. destruct rest as [|x rest]; [congruence|].
    rewrite len_cons. pose proof (len_nonneg rest). lia.
  - unfold parseFrame, createFrame. rewrite HL.
    set (C := calculateChecksum _).
    replace (len _ <? 4) with false
      by (symmetry; apply Z.ltb_ge; cbn [app]; rewrite !len_cons;
          match goal with |- context [len ?l] => pose proof (len_nonneg l) end; lia).
    replace (at_index _ 0) with (Some (byte_of_Z SOF_MARKER)) by reflexivity.
    rewrite bool_decide_eq_true_2 by reflexivity. cbn [negb].
    unfold decodeLength, slice_from. change (Z.to_nat 1) with 1%nat.
    cbn [app drop].
    pose proof (Z.mod_pos_bound (len p) 128 ltac:(lia)).
    pose proof (Z.mod_pos_bound (len p / 128) 128 ltac:(lia)).
    pose proof (Z.mod_pos_bound (len p / 128 / 128) 128 ltac:(lia)).
    rewrite decodeLength_too_long; [reflexivity | | |];
      rewrite Z_of_byte_of_Z_small; lia.
Qed.

Lemma createFrame_long_payload_witness :
  2 ^ 21 - 1 < len (repeat x00 (Z.to_nat (2 ^ 21))) < 2 ^ 31
  /\ parseFrame (createFrame (repeat x00 (Z.to_nat (2 ^ 21))) ++ [])
     = Throw "Length encoding too long".
Proof.
  assert (H : 2 ^ 21 - 1 < len (repeat x00 (Z.to_nat (2 ^ 21))) < 2 ^ 31).
  { unfold len. rewrite repeat_length, Z2Nat.id; lia. }
  split; [exact H|].
  exact (proj2 (proj2 (createFrame_long_payload _ [] H))).
Defined.

Lemma createFrame_zero_payload (p : Buffer) :
  len p = 2 ^ 21 -> sum_bytes p = 0 ->
  createFrame p = [xaa; x80; x80; x80; x01] ++ p ++ [xfd; xd5].
Proof.
  intros Hlen Hsum. unfold createFrame. rewrite Hlen.
  replace (encodeLength (2 ^ 21)) with [x80; x80; x80; x01]
    by (vm_compute; reflexivity).
  unfold calculateChecksum.
  rewrite !sum_bytes_app, Hsum.
  replace (sum_bytes [byte_of_Z SOF_MARKER]) with 170 by (vm_compute; reflexivity).
  replace (sum_bytes [x80; x80; x80; x01]) with 385 by (vm_compute; reflexivity).
  change (byte_of_Z SOF_MARKER) with xaa.
  replace (byte_of_Z (JS.and (JS.shr (JS.and (JS.not (170 + (385 + 0)) + 1) 65535) 8) 255))
    with xfd by (vm_compute; reflexivity).
  replace (byte_of_Z (JS.and (JS.and (JS.not (170 + (385 + 0)) + 1) 65535) 255))
    with xd5 by (vm_compute; reflexivity).
  cbn [app]. reflexivity.
Qed.

(** C7, counterexample to the claim as stated: a payload of [2^21] bytes is
    not rejected; [createFrame] returns a frame for it, with a four-byte
    length field. *)
Lemma createFrame_does_not_reject :
  exists p : Buffer,
    2 ^ 21 - 1 < len p
    /\ createFrame p = [xaa; x80; x80; x80; x01] ++ p ++ [xfd; xd5].
Proof.
  exists (repeat x00 (Z.to_nat (2 ^ 21))).
  assert (Hlen : len (repeat x00 (Z.to_nat (2 ^ 21))) = 2 ^ 21).
  { unfold len. rewrite repeat_length, Z2Nat.id; lia. }
  split; [lia|].
  apply createFrame_zero_payload; [exact Hlen | apply sum_bytes_zeros].
Qed.





End FrameClaims.

(** ** Diffie-Hellman *)

Section DiffieHellman.

Import CryptoService.

(** The loop of [modularExponentiation], one turn at a time. *)
Lemma modularExponentiation_loop_step (result base exponent modulus : Z) :
  modularExponentiation_loop result base exponent modulus
  = if exponent >? 0
    then modularExponentiation_loop
           (if Z.rem exponent 2 =? 1 then Z.rem (result * base) modulus else result)
           (Z.rem (base * base) modulus) (Z.shiftr exponent 1) modulus
    else result.
Proof.
  etransitivity; [apply modularExponentiation_loop_equation_1|].
  destruct (Z_gt_dec exponent 0) as [Hgt|Hle]; cbn.
  - destruct (Z.gtb_spec exponent 0); [reflexivity | lia].
  - destruct (Z.gtb_spec exponent 0); [lia | reflexivity].
Qed.

(** Square-and-multiply computes the modular power. *)
Lemma modularExponentiation_loop_spec (modulus exponent : Z) :
  1 < modulus -> 0 <= exponent ->
  forall result base,
    0 <= result < modulus -> 0 <= base < modulus ->
    modularExponentiation_loop result base exponent modulus
    = (result * base ^ exponent) mod modulus.
Proof.
  intros Hm He. generalize He. pattern exponent.
  apply Z_lt_induction; [|exact He].
  clear exponent He. intros e IH He result base Hr Hb.
  rewrite modularExponentiation_loop_step.
  destruct (Z.gtb_spec e 0) as [Hpos|Hzero].
  - assert (Hq : 0 <= e / 2 < e)
      by (split; [apply Z.div_pos; lia | apply Z.div_lt; lia]).
    rewrite Z.shiftr_div_pow2 by lia. change (2 ^ 1) with 2.
    rewrite !Z.rem_mod_nonneg by nia.
    pose proof (Z.mod_pos_bound (base * base) modulus ltac:(lia)) as Hbb.
    pose proof (Z.mod_pos_bound (result * base) modulus ltac:(lia)) as Hrb.
    pose proof (Z.mod_pos_bound e 2 ltac:(lia)) as Hd.
    pose proof (Z.div_mod e 2 ltac:(lia)) as Hdm.
    rewrite IH by (try lia; destruct (e mod 2 =? 1); lia).
    rewrite Z.mul_mod, <- Zpower_mod, <- Z.mul_mod by lia.
    assert (Hpow : base ^ e = (base * base) ^ (e / 2) * base ^ (e mod 2)).
    { rewrite Hdm at 1. rewrite Z.pow_add_r, Z.pow_mul_r by lia.
      now rewrite Z.pow_2_r. }
    rewrite Hpow.
    destruct (Z.eqb_spec (e mod 2) 1) as [H1|H1].
    + rewrite H1, Z.pow_1_r, Z.mul_mod_idemp_l by lia. f_equal. ring.
    + assert (e mod 2 = 0) as -> by lia. rewrite Z.pow_0_r. f_equal. ring.
  - assert (e = 0) as -> by lia.
    rewrite Z.pow_0_r, Z.mul_1_r. symmetry. apply Z.mod_small. lia.
Qed.

(** [Number(x)] is [x] for a BigInt of at most 53 bits. *)
Lemma Number_exact (x : Z) : 0 <= x < 2 ^ 53 -> JS.Number x = x.
Proof.
  intros Hx. unfold JS.Number. cbv zeta.
  destruct (Z.leb_spec (Z.log2 (Z.abs x) - 52) 0) as [_|Hs]; [reflexivity|].
  exfalso. rewrite Z.abs_eq in Hs by lia.
  destruct (Z.eq_dec x 0) as [->|Hx0]; [cbn in Hs; lia|].
  assert (Z.log2 x < 53) by (apply Z.log2_lt_pow2; lia).
  lia.
Qed.

Lemma modularExponentiation_spec (base exponent modulus : Z) :
  1 < modulus <= 2 ^ 53 -> 0 <= base -> 0 <= exponent ->
  modularExponentiation base exponent modulus = base ^ exponent mod modulus.
Proof.
  intros Hm Hb He. unfold modularExponentiation.
  rewrite Z.rem_mod_nonneg by lia.
  pose proof (Z.mod_pos_bound base modulus ltac:(lia)).
  rewrite modularExponentiation_loop_spec by lia.
  rewrite Z.mul_1_l, <- Zpower_mod by lia.
  apply Number_exact.
  pose proof (Z.mod_pos_bound (base ^ exponent) modulus ltac:(lia)). lia.
Qed.

Lemma calculatePublicKey_range (secret : Z) :
  0 <= secret -> 0 <= calculatePublicKey secret < DH_MODULUS.
Proof.
  intros Hs. unfold calculatePublicKey.
  rewrite modularExponentiation_spec by (unfold DH_MODULUS, DH_GENERATOR; lia).
  apply Z.mod_pos_bound. reflexivity.
Qed.

Lemma shared_secret_spec (a b : Z) :
  0 <= a -> 0 <= b ->
  calculateSharedSecret (calculatePublicKey a) b
  = DH_GENERATOR ^ (a * b) mod DH_MODULUS.
Proof.
  intros Ha Hb. pose proof (calculatePublicKey_range a Ha) as Hr.
  unfold calculateSharedSecret.
  rewrite modularExponentiation_spec by (unfold DH_MODULUS in *; lia).
  unfold calculatePublicKey.
  rewrite modularExponentiation_spec by (unfold DH_MODULUS, DH_GENERATOR; lia).
  rewrite <- Zpower_mod by reflexivity.
  now rewrite Z.pow_mul_r by lia.
Qed.

(** C4. Diffie-Hellman commutativity: for all secrets [s_a], [s_b] in
    [[1, 0xFFFF]], both sides derive the same shared secret, with
    generator 5 and modulus 0xFFFFFFFB. *)
Theorem shared_secret_commutes (s_a s_b : Z) :
  1 <= s_a <= 0xFFFF -> 1 <= s_b <= 0xFFFF ->
  calculateSharedSecret (calculatePublicKey s_a) s_b
  = calculateSharedSecret (calculatePublicKey s_b) s_a.
Proof.
  intros Ha Hb. rewrite !shared_secret_spec by lia.
  now rewrite Z.mul_comm.
Qed.

Lemma shared_secret_commutes_witness :
  (1 <= 0x1234 <= 0xFFFF /\ 1 <= 0x5678 <= 0xFFFF)
  /\ calculateSharedSecret (calculatePublicKey 0x1234) 0x5678
     = calculateSharedSecret (calculatePublicKey 0x5678) 0x1234.
Proof.
  split; [lia|]. apply (shared_secret_commutes 0x1234 0x5678); lia.
Defined.

Example calculatePublicKey_1234 : calculatePublicKey 0x1234 = 906815736.
Proof. vm_compute. reflexivity. Qed.

End DiffieHellman.

(** ** Layered messages *)

Section Layers.

Import ProtocolService.

Lemma readUInt16BE_writeUInt16BE (v : Z) (rest : Buffer) :
  0 <= v < 2 ^ 16 -> readUInt16BE (writeUInt16BE v ++ rest) 0 = v.
Proof.
  intros Hv. unfold readUInt16BE, writeUInt16BE, slice.
  change (take _ _) with [byte_of_Z (v / 2 ^ 8); byte_of_Z v].
  cbn [readUIntBE]. rewrite !Z_of_byte_of_Z.
  assert (0 <= v / 2 ^ 8 < 256)
    by (split; [apply Z.div_pos; lia | apply Z.div_lt_upper_bound; lia]).
  rewrite (Z.mod_small (v / 2 ^ 8)) by lia.
  pose proof (Z.div_mod v 256 ltac:(lia)). change (2 ^ 8) with 256 in *. lia.
Qed.

Lemma readUIntBE_bound (bytes : Buffer) (acc : Z) :
  0 <= acc ->
  0 <= readUIntBE bytes acc < (acc + 1) * 256 ^ len bytes.
Proof.
  revert acc. induction bytes as [|b bytes IH]; intros acc Hacc.
  - cbn [readUIntBE]. change (256 ^ len []) with 1. lia.
  - cbn [readUIntBE]. pose proof (Z_of_byte_range b) as Hb.
    specialize (IH (acc * 256 + Z_of_byte b) ltac:(lia)).
    rewrite len_cons, Z.pow_add_r, Z.pow_1_r by (try lia; apply len_nonneg).
    assert (0 < 256 ^ len bytes) by (apply Z.pow_pos_nonneg; [lia | apply len_nonneg]).
    nia.
Qed.

Lemma readUInt16BE_range (buffer : Buffer) (offset : Z) :
  0 <= readUInt16BE buffer offset < 2 ^ 16.
Proof.
  unfold readUInt16BE.
  pose proof (readUIntBE_bound (slice buffer offset (offset + 2)) 0 ltac:(lia)) as Hb.
  assert (Hl : len (slice buffer offset (offset + 2)) <= 2).
  { unfold slice, len. rewrite length_take. lia. }
  pose proof (len_nonneg (slice buffer offset (offset + 2))) as Hl0.
  assert (256 ^ len (slice buffer offset (offset + 2)) <= 256 ^ 2)
    by (apply Z.pow_le_mono_r; lia).
  lia.
Qed.

Lemma number_at_0 (b : byte) (rest : Buffer) : number_at (b :: rest) 0 = Z_of_byte b.
Proof. reflexivity. Qed.

Lemma slice_from_1 (b : byte) (rest : Buffer) : slice_from (b :: rest) 1 = rest.
Proof. reflexivity. Qed.

Lemma parsePresentationMessage_create (iin : Z) (payload : Buffer) :
  0 <= iin < 2 ^ 16 ->
  parsePresentationMessage (createPresentationMessage iin payload)
  = Ok {| PresentationMessage.iin := iin; PresentationMessage.payload := payload |}.
Proof.
  intros Hiin. unfold parsePresentationMessage.
  replace (len (createPresentationMessage iin payload) <? 2) with false
    by (symmetry; apply Z.ltb_ge; unfold createPresentationMessage, writeUInt16BE;
        cbn [app]; rewrite !len_cons; pose proof (len_nonneg payload); lia).
  unfold createPresentationMessage.
  rewrite readUInt16BE_writeUInt16BE by exact Hiin.
  reflexivity.
Qed.

Lemma parseCommand_create (command : Z) (payload : Buffer) :
  0 <= command < 256 ->
  parseCommand (createCommand command payload)
  = Ok {| Command.command := command; Command.payload := payload |}.
Proof.
  intros Hc. unfold parseCommand, createCommand. cbn [app].
  replace (len (byte_of_Z command :: payload) <? 1) with false
    by (symmetry; apply Z.ltb_ge; rewrite len_cons; pose proof (len_nonneg payload); lia).
  rewrite number_at_0, slice_from_1.
  now rewrite Z_of_byte_of_Z_small.
Qed.

Lemma parseSessionMessage_create (messageType : Z) (hmac payload : Buffer) :
  len hmac = 4 -> 0 <= messageType < 256 ->
  parseSessionMessage (createSessionMessage messageType payload (Some hmac))
  = Ok {| SessionMessage.hmac := hmac;
          SessionMessage.messageType := messageType;
          SessionMessage.payload := payload |}.
Proof.
  intros Hh Ht.
  destruct hmac as [|h0 [|h1 [|h2 [|h3 [|h4 hmac]]]]];
    try (unfold len in Hh; cbn in Hh; lia).
  unfold parseSessionMessage, createSessionMessage. cbn [app].
  replace (len _ <? 5) with false
    by (symmetry; apply Z.ltb_ge; rewrite !len_cons; pose proof (len_nonneg payload); lia).
  change (number_at _ 4) with (Z_of_byte (byte_of_Z messageType)).
  rewrite Z_of_byte_of_Z_small by lia. reflexivity.
Qed.

Lemma parseSessionMessage_app (hmac body : Buffer) (t : byte) :
  len hmac = 4 ->
  parseSessionMessage (hmac ++ [t] ++ body)
  = Ok {| SessionMessage.hmac := hmac;
          SessionMessage.messageType := Z_of_byte t;
          SessionMessage.payload := body |}.
Proof.
  intros Hh.
  destruct hmac as [|h0 [|h1 [|h2 [|h3 [|h4 hmac]]]]];
    try (unfold len in Hh; cbn in Hh; lia).
  unfold parseSessionMessage. cbn [app].
  replace (len _ <? 5) with false
    by (symmetry; apply Z.ltb_ge; rewrite !len_cons; pose proof (len_nonneg body); lia).
  reflexivity.
Qed.

Lemma parsePresentationMessage_inv (buffer : Buffer) (m : PresentationMessage.t) :
  parsePresentationMessage buffer = Ok m ->
  0 <= PresentationMessage.iin m < 2 ^ 16
  /\ len (PresentationMessage.payload m) = len buffer - 2
  /\ 2 <= len buffer.
Proof.
  unfold parsePresentationMessage.
  destruct (Z.ltb_spec (len buffer) 2); [discriminate|].
  intros [= <-]. cbn [PresentationMessage.iin PresentationMessage.payload].
  split; [apply readUInt16BE_range|].
  split; [|lia].
  unfold slice_from, len in *. rewrite length_drop. lia.
Qed.

Lemma parseCommand_inv (buffer : Buffer) (c : Command.t) :
  parseCommand buffer = Ok c ->
  0 <= Command.command c < 256
  /\ len (Command.payload c) = len buffer - 1
  /\ 1 <= len buffer.
Proof.
  unfold parseCommand.
  destruct (Z.ltb_spec (len buffer) 1); [discriminate|].
  intros [= <-]. cbn [Command.command Command.payload].
  split.
  - unfold number_at. destruct (at_index buffer 0); [apply Z_of_byte_range | lia].
  - split; [|lia]. unfold slice_from, len in *. rewrite length_drop. lia.
Qed.

Lemma parseSessionMessage_inv (buffer : Buffer) (m : SessionMessage.t) :
  parseSessionMessage buffer = Ok m ->
  len (SessionMessage.hmac m) = 4
  /\ len (SessionMessage.payload m) = len buffer - 5.
Proof.
  unfold parseSessionMessage.
  destruct (Z.ltb_spec (len buffer) 5); [discriminate|].
  intros [= <-]. cbn [SessionMessage.hmac SessionMessage.payload].
  unfold slice, slice_from, len in *.
  rewrite length_take, !length_drop. lia.
Qed.

End Layers.

(** ** Handlers *)

Section Handlers.

Import ProtocolService TCPService Observed.

Lemma withConnection_some (connectionId : Z) (k : ConnectionInfo.t -> M unit)
    (st : State) (c : ConnectionInfo.t) :
  connections st !! connectionId = Some c ->
  withConnection connectionId k st = k c st.
Proof.
  intros H. unfold withConnection, bind, getConnection. rewrite H.
  destruct (k c st) as [[u s] e]. reflexivity.
Qed.

Lemma withConnection_none (connectionId : Z) (k : ConnectionInfo.t -> M unit)
    (st : State) :
  connections st !! connectionId = None ->
  withConnection connectionId k st = (tt, st, []).
Proof.
  intros H. unfold withConnection, bind, getConnection. rewrite H. reflexivity.
Qed.

(** The frame that a command handler writes for a presentation message. *)
Local Abbreviation responseFrame c presentationMsg :=
  (createFrame
     (createSessionMessage REGULAR presentationMsg
        (Some (responseHMAC c presentationMsg)))).

Ltac run_handler H :=
  repeat rewrite (withConnection_some _ _ _ _ H);
  unfold bind, emit, ret, writeResponse, logCommunication, updateDeviceState;
  cbv beta iota zeta; cbn [app]; try reflexivity.

Lemma handleHeartbeat_run st connectionId c iin payload :
  connections st !! connectionId = Some c ->
  handleHeartbeat connectionId iin payload st
  = (tt, st,
     [SocketWrite connectionId
        (responseFrame c (createPresentationMessage iin (createCommand 0x80 payload)));
      InsertCommunicationLog (lawnmowerId c) "Information" "Heartbeat_Response"
        (Text ("Heartbeat echoed, payload length: " +:+ decimal (len payload)))]).
Proof. intros H. unfold handleHeartbeat. run_handler H. Qed.

Lemma sendErrorResponse_run st connectionId c iin errorMessage :
  connections st !! connectionId = Some c ->
  sendErrorResponse connectionId iin errorMessage st
  = (tt, st,
     [SocketWrite connectionId
        (responseFrame c (createPresentationMessage iin
                            (createCommand 0xFF (list_byte_of_string errorMessage))));
      InsertCommunicationLog (lawnmowerId c) "Error" "Error_Response"
        (Text ("Error response sent: " +:+ errorMessage))]).
Proof. intros H. unfold sendErrorResponse. run_handler H. Qed.

Lemma handleControlDevice_run st connectionId c iin payload :
  connections st !! connectionId = Some c ->
  1 <= len payload ->
  handleControlDevice connectionId iin payload st
  = (tt, st,
     match snd (controlAction (number_at payload 0)) with
     | Some state => [InsertDeviceState (lawnmowerId c) state]
     | None => []
     end
     ++ [SocketWrite connectionId
           (responseFrame c (createPresentationMessage iin (createCommand 0x81 [])));
         InsertCommunicationLog (lawnmowerId c) "Information" "Control_Command"
           (Text ("Control action " +:+ fst (controlAction (number_at payload 0))
                  +:+ " executed, new state: "
                  +:+ default "null" (snd (controlAction (number_at payload 0)))))]).
Proof.
  intros H Hlen. unfold handleControlDevice.
  rewrite (withConnection_some _ _ _ _ H).
  destruct (Z.ltb_spec (len payload) 1); [lia|].
  destruct (controlAction (number_at payload 0)) as [actionName [state|]];
    run_handler H.
Qed.

Lemma handleControlDevice_empty st connectionId c iin payload :
  connections st !! connectionId = Some c ->
  len payload < 1 ->
  handleControlDevice connectionId iin payload st
  = sendErrorResponse connectionId iin "Invalid control command" st.
Proof.
  intros H Hlen. unfold handleControlDevice.
  rewrite (withConnection_some _ _ _ _ H).
  destruct (Z.ltb_spec (len payload) 1); [reflexivity | lia].
Qed.

Lemma handleAckError_run st connectionId c iin :
  connections st !! connectionId = Some c ->
  handleAckError connectionId iin st
  = (tt, st,
     [InsertDeviceState (lawnmowerId c) "Paused";
      SocketWrite connectionId
        (responseFrame c (createPresentationMessage iin (createCommand 0x82 [])));
      InsertCommunicationLog (lawnmowerId c) "Information" "Ack_Error"
        (Text "Error acknowledged, state changed to Paused")]).
Proof. intros H. unfold handleAckError. run_handler H. Qed.

Lemma handleResetBladeTime_run st connectionId c iin :
  connections st !! connectionId = Some c ->
  handleResetBladeTime connectionId iin st
  = (tt, st,
     [SocketWrite connectionId
        (responseFrame c (createPresentationMessage iin (createCommand 0x83 [])));
      InsertCommunicationLog (lawnmowerId c) "Information" "Reset_Blade_Time"
        (Text "Blade time reset to 0")]).
Proof. intros H. unfold handleResetBladeTime. run_handler H. Qed.

Lemma handleCommand_unfold st connectionId c iin command :
  connections st !! connectionId = Some c ->
  handleCommand connectionId iin command st
  = let code := Command.command command in
    if code =? HEARTBEAT
    then handleHeartbeat connectionId iin (Command.payload command) st
    else if code =? CONTROL_DEVICE
    then handleControlDevice connectionId iin (Command.payload command) st
    else if code =? ACK_ERROR then handleAckError connectionId iin st
    else if code =? RESET_BLADE_TIME then handleResetBladeTime connectionId iin st
    else (tt, st,
          [InsertCommunicationLog (lawnmowerId c) "Warning" "Unknown_Command"
             (Text ("Unknown command: 0x" +:+ hex code))]).
Proof.
  intros H. unfold handleCommand. rewrite (withConnection_some _ _ _ _ H).
  cbv zeta.
  repeat match goal with |- context [if ?b then _ else _] => destruct b end;
    reflexivity.
Qed.

Lemma len_responseHMAC c presentationMsg : len (responseHMAC c presentationMsg) = 4.
Proof. unfold responseHMAC. destruct (ConnectionInfo.authenticated c); reflexivity. Qed.

(** What a command handler writes decodes, layer by layer, to the IIN, the
    command and the body it was built from. *)
Lemma responseFrame_decodes c iin command body :
  0 <= iin < 2 ^ 16 -> 0 <= command < 256 -> len body + 8 <= 2 ^ 21 - 1 ->
  regularFrame
    (responseFrame c (createPresentationMessage iin (createCommand command body)))
    iin command body.
Proof.
  intros Hiin Hc Hlen.
  set (presentationMsg := createPresentationMessage iin (createCommand command body)).
  set (hmac := responseHMAC c presentationMsg).
  assert (Hh : len hmac = 4) by apply len_responseHMAC.
  assert (Hp : len presentationMsg = 3 + len body).
  { unfold presentationMsg, createPresentationMessage, writeUInt16BE, createCommand.
    cbn [app]. rewrite !len_cons. lia. }
  set (sessionBytes := createSessionMessage REGULAR presentationMsg (Some hmac)).
  assert (Hs : len sessionBytes = 8 + len body).
  { unfold sessionBytes, createSessionMessage. rewrite !len_app, Hh, Hp.
    unfold len at 1. cbn [length]. lia. }
  exists sessionBytes,
    {| SessionMessage.hmac := hmac; SessionMessage.messageType := REGULAR;
       SessionMessage.payload := presentationMsg |},
    {| PresentationMessage.iin := iin;
       PresentationMessage.payload := createCommand command body |}.
  cbn [SessionMessage.messageType SessionMessage.payload
       PresentationMessage.iin PresentationMessage.payload].
  split.
  { rewrite <- (app_nil_r (createFrame sessionBytes)) at 1.
    apply parseFrame_createFrame_app. lia. }
  split.
  { apply parseSessionMessage_create; [exact Hh | unfold REGULAR; lia]. }
  split; [reflexivity|].
  split.
  { apply parsePresentationMessage_create. exact Hiin. }
  split; [reflexivity|].
  apply parseCommand_create. exact Hc.
Qed.

Lemma socketWrites_write connectionId frame rest :
  socketWrites connectionId (SocketWrite connectionId frame :: rest)
  = frame :: socketWrites connectionId rest.
Proof. cbn [socketWrites]. now rewrite Z.eqb_refl. Qed.

(** [processFrame] hands a REGULAR session message to
    [handleRegularMessage]. *)
Lemma processFrame_regular st connectionId c payload sessionMsg :
  connections st !! connectionId = Some c ->
  parseSessionMessage payload = Ok sessionMsg ->
  SessionMessage.messageType sessionMsg = REGULAR ->
  processFrame connectionId payload st
  = handleRegularMessage connectionId sessionMsg st.
Proof.
  intros H Hs Ht. unfold processFrame.
  rewrite (withConnection_some _ _ _ _ H), Hs. cbv zeta. rewrite Ht.
  reflexivity.
Qed.

Lemma processFrame_hello st connectionId c payload sessionMsg :
  connections st !! connectionId = Some c ->
  parseSessionMessage payload = Ok sessionMsg ->
  SessionMessage.messageType sessionMsg = HELLO ->
  processFrame connectionId payload st = handleHello connectionId sessionMsg st.
Proof.
  intros H Hs Ht. unfold processFrame.
  rewrite (withConnection_some _ _ _ _ H), Hs. cbv zeta. rewrite Ht.
  reflexivity.
Qed.

Lemma isBypassHMAC_true hmac :
  CryptoService.isBypassHMAC hmac = true <-> hmac = CryptoService.getBypassHMAC.
Proof.
  unfold CryptoService.isBypassHMAC, equals. cbv zeta.
  apply bool_decide_eq_true.
Qed.

(** The three outcomes of [handleRegularMessage]. *)
Lemma handleRegularMessage_refused st connectionId c sessionMsg :
  connections st !! connectionId = Some c ->
  ~ passesGate c sessionMsg ->
  handleRegularMessage connectionId sessionMsg st = (tt, st, [unauthenticatedRow c]).
Proof.
  intros H Hgate. unfold handleRegularMessage.
  rewrite (withConnection_some _ _ _ _ H).
  destruct (ConnectionInfo.authenticated c) eqn:Ha.
  { exfalso. apply Hgate. now left. }
  destruct (CryptoService.isBypassHMAC (SessionMessage.hmac sessionMsg)) eqn:Hb.
  { exfalso. apply Hgate. right. now apply isBypassHMAC_true. }
  reflexivity.
Qed.

Lemma handleRegularMessage_passed st connectionId c sessionMsg :
  connections st !! connectionId = Some c ->
  passesGate c sessionMsg ->
  handleRegularMessage connectionId sessionMsg st
  = match parsePresentationMessage (SessionMessage.payload sessionMsg) with
    | Throw message =>
        (tt, st,
         [InsertCommunicationLog (lawnmowerId c) "Error" "Command_Parse_Error"
            (Text ("Failed to parse command: " +:+ message))])
    | Ok presentationMsg =>
        match parseCommand (PresentationMessage.payload presentationMsg) with
        | Throw message =>
            (tt, st,
             [InsertCommunicationLog (lawnmowerId c) "Error" "Command_Parse_Error"
                (Text ("Failed to parse command: " +:+ message))])
        | Ok command =>
            handleCommand connectionId (PresentationMessage.iin presentationMsg)
              command st
        end
    end.
Proof.
  intros H Hgate. unfold handleRegularMessage.
  rewrite (withConnection_some _ _ _ _ H).
  assert (Hb : negb (ConnectionInfo.authenticated c)
               && negb (CryptoService.isBypassHMAC (SessionMessage.hmac sessionMsg))
               = false).
  { destruct Hgate as [Ha|Hh].
    - now rewrite Ha.
    - apply isBypassHMAC_true in Hh. rewrite Hh. apply andb_false_r. }
  rewrite Hb. cbv zeta.
  destruct (parsePresentationMessage _) as [presentationMsg|message]; [|reflexivity].
  destruct (parseCommand _) as [command|message]; reflexivity.
Qed.

(** Every run of [handleCommand] either writes one frame or logs the
    Unknown_Command warning, and leaves the service as it was. *)
Lemma handleCommand_outcome st connectionId c iin command :
  connections st !! connectionId = Some c ->
  exists events,
    handleCommand connectionId iin command st = (tt, st, events)
    /\ ((exists frame, socketWrites connectionId events = [frame])
        \/ exists text,
             events = [InsertCommunicationLog (lawnmowerId c) "Warning"
                         "Unknown_Command" (Text text)]).
Proof.
  intros H. rewrite (handleCommand_unfold _ _ _ _ _ H). cbv zeta.
  destruct (_ =? HEARTBEAT).
  { rewrite (handleHeartbeat_run _ _ _ _ _ H). eexists. split; [reflexivity|].
    left. rewrite socketWrites_write. cbn [socketWrites]. eauto. }
  destruct (_ =? CONTROL_DEVICE).
  { destruct (Z_lt_dec (len (Command.payload command)) 1) as [Hl|Hl].
    - rewrite (handleControlDevice_empty _ _ _ _ _ H Hl).
      rewrite (sendErrorResponse_run _ _ _ _ _ H). eexists. split; [reflexivity|].
      left. rewrite socketWrites_write. cbn [socketWrites]. eauto.
    - assert (Hl' : 1 <= len (Command.payload command)) by lia.
      rewrite (handleControlDevice_run _ _ _ _ _ H Hl').
      eexists. split; [reflexivity|]. left.
      destruct (snd (controlAction _)); cbn [app socketWrites];
        rewrite Z.eqb_refl; eauto. }
  destruct (_ =? ACK_ERROR).
  { rewrite (handleAckError_run _ _ _ _ H). eexists. split; [reflexivity|].
    left. cbn [socketWrites]. rewrite Z.eqb_refl. eauto. }
  destruct (_ =? RESET_BLADE_TIME).
  { rewrite (handleResetBladeTime_run _ _ _ _ H). eexists. split; [reflexivity|].
    left. cbn [socketWrites]. rewrite Z.eqb_refl. eauto. }
  eexists. split; [reflexivity|]. right. eauto.
Qed.

End Handlers.

(** ** The session loop *)

Section SessionLoop.

Import ProtocolService TCPService Observed.

(** On "Incomplete frame" the loop keeps the bytes and waits. *)
Lemma handleData_waits st connectionId c data :
  connections st !! connectionId = Some c ->
  parseFrame (ConnectionInfo.buffer c ++ data) = Throw "Incomplete frame" ->
  handleData connectionId data st
  = (tt, withBuffer st connectionId c (ConnectionInfo.buffer c ++ data), []).
Proof.
  intros H Hp. unfold handleData. rewrite (withConnection_some _ _ _ _ H).
  cbv zeta. unfold bind at 1. unfold setConnection at 1.
  fold (withBuffer st connectionId c (ConnectionInfo.buffer c ++ data)).
  set (buffer := ConnectionInfo.buffer c ++ data) in *.
  set (st1 := withBuffer st connectionId c buffer).
  assert (H1 : connections st1 !! connectionId = Some (ConnectionInfo.set_buffer c buffer))
    by apply lookup_insert_eq.
  destruct (length buffer) as [|fuel] eqn:Hl; [reflexivity|].
  cbn [handleData_loop]. rewrite (withConnection_some _ _ _ _ H1).
  cbv zeta. cbn [ConnectionInfo.buffer ConnectionInfo.set_buffer].
  destruct (len buffer >? 0); [|reflexivity].
  rewrite Hp. reflexivity.
Qed.

(** On every other error the loop logs Invalid_Frame and throws the
    buffered bytes away. *)
Lemma handleData_resets st connectionId c data message :
  connections st !! connectionId = Some c ->
  0 < len (ConnectionInfo.buffer c ++ data) ->
  parseFrame (ConnectionInfo.buffer c ++ data) = Throw message ->
  message <> "Incomplete frame" ->
  exists st',
    handleData connectionId data st
    = (tt, st',
       [InsertCommunicationLog (lawnmowerId c) "Error" "Invalid_Frame"
          (Text ("Broken frame: " +:+ message +:+ ". Data: "
                 +:+ toHex (ConnectionInfo.buffer c ++ data)))])
    /\ ConnectionInfo.buffer <$> connections st' !! connectionId = Some [].
Proof.
  intros H Hpos Hp Hne. unfold handleData. rewrite (withConnection_some _ _ _ _ H).
  cbv zeta. unfold bind at 1. unfold setConnection at 1.
  fold (withBuffer st connectionId c (ConnectionInfo.buffer c ++ data)).
  set (buffer := ConnectionInfo.buffer c ++ data) in *.
  set (st1 := withBuffer st connectionId c buffer).
  assert (H1 : connections st1 !! connectionId = Some (ConnectionInfo.set_buffer c buffer))
    by apply lookup_insert_eq.
  destruct (length buffer) as [|fuel] eqn:Hl; [unfold len in Hpos; lia|].
  cbn [handleData_loop]. rewrite (withConnection_some _ _ _ _ H1).
  cbv zeta. cbn [ConnectionInfo.buffer ConnectionInfo.set_buffer].
  destruct (Z.gtb_spec (len buffer) 0); [|lia].
  rewrite Hp. rewrite bool_decide_eq_false_2 by exact Hne.
  unfold bind, logCommunication, emit, setConnection. cbv beta iota zeta.
  eexists. split; [reflexivity|].
  cbn [connections]. now rewrite lookup_insert_eq.
Qed.


(** Handlers other than [handleHello] and [handleClientAuth] leave the
    service object alone. *)
Lemma preservesState_ret {A : Type} (a : A) : preservesState (ret a).
Proof. intros st. reflexivity. Qed.

Lemma preservesState_emit (e : Event) : preservesState (emit e).
Proof. intros st. reflexivity. Qed.

Lemma preservesState_bind {A B : Type} (m : M A) (k : A -> M B) :
  preservesState m -> (forall a, preservesState (k a)) -> preservesState (bind m k).
Proof.
  intros Hm Hk st. unfold bind. specialize (Hm st).
  destruct (m st) as [[a s1] e1]. cbn [fst snd] in Hm. subst s1.
  specialize (Hk a st). destruct (k a st) as [[b s2] e2]. exact Hk.
Qed.

Lemma preservesState_getConnection connectionId :
  preservesState (getConnection connectionId).
Proof. intros st. reflexivity. Qed.

Lemma preservesState_withConnection connectionId (k : ConnectionInfo.t -> M unit) :
  (forall c, preservesState (k c)) -> preservesState (withConnection connectionId k).
Proof.
  intros Hk. unfold withConnection. apply preservesState_bind.
  - apply preservesState_getConnection.
  - intros [c|]; [apply Hk | apply preservesState_ret].
Qed.

Create HintDb handlers.
#[local] Hint Resolve preservesState_ret preservesState_emit
  preservesState_getConnection : handlers.

Ltac preserves :=
  repeat first
    [ progress intros
    | apply preservesState_withConnection
    | apply preservesState_bind
    | solve [auto with handlers]
    | match goal with
      | |- preservesState (if ?b then _ else _) => destruct b
      | |- preservesState (match ?x with _ => _ end) => destruct x
      | |- preservesState (let '(_, _) := ?x in _) => destruct x
      end
    | progress unfold logCommunication, updateDeviceState, storeTelemetryData,
        storeGPSData, writeResponse
    | progress cbv zeta ].

Lemma preservesState_handleCommand connectionId iin command :
  preservesState (handleCommand connectionId iin command).
Proof.
  unfold handleCommand, handleHeartbeat, handleControlDevice, handleAckError,
    handleResetBladeTime, sendErrorResponse.
  preserves.
Qed.

Lemma preservesState_handleRegularMessage connectionId sessionMsg :
  preservesState (handleRegularMessage connectionId sessionMsg).
Proof.
  unfold handleRegularMessage. preserves;
    apply preservesState_handleCommand.
Qed.

Lemma preservesState_handleNotification connectionId sessionMsg :
  preservesState (handleNotification connectionId sessionMsg).
Proof.
  unfold handleNotification, handleDeviceStatusNotification,
    handlePositionUpdateNotification.
  preserves.
Qed.

(** No handler touches the receive buffer of the connection. *)
Lemma processFrame_keeps_buffer st connectionId c payload :
  connections st !! connectionId = Some c ->
  exists c',
    connections (snd (fst (processFrame connectionId payload st))) !! connectionId
    = Some c'
    /\ ConnectionInfo.buffer c' = ConnectionInfo.buffer c.
Proof.
  intros H. unfold processFrame. rewrite (withConnection_some _ _ _ _ H).
  destruct (parseSessionMessage payload) as [sessionMsg|message];
    [|exists c; split; [exact H | reflexivity]].
  cbv zeta.
  destruct (_ =? HELLO).
  { unfold handleHello. rewrite (withConnection_some _ _ _ _ H).
    destruct (CryptoService.parseHelloPayload _);
      [|exists c; split; [exact H | reflexivity]].
    unfold bind, draw, setConnection, emit, logCommunication.
    cbv beta iota zeta. cbn [fst snd connections].
    eexists. split; [apply lookup_insert_eq | reflexivity]. }
  destruct (_ =? CLIENT_AUTH).
  { unfold handleClientAuth. rewrite (withConnection_some _ _ _ _ H). cbv zeta.
    destruct (CryptoService.parseClientAuthPayload _);
      [|exists c; split; [exact H | reflexivity]].
    destruct (ConnectionInfo.authState c);
      [|exists c; split; [exact H | reflexivity]].
    destruct (CryptoService.verifyAuth _ _ _ _ _);
      [|exists c; split; [exact H | reflexivity]].
    unfold bind, setConnection, emit, logCommunication.
    cbv beta iota zeta. cbn [fst snd connections].
    eexists. split; [apply lookup_insert_eq | reflexivity]. }
  destruct (_ =? REGULAR).
  { rewrite preservesState_handleRegularMessage.
    exists c. split; [exact H | reflexivity]. }
  destruct (_ =? NOTIFICATION).
  { rewrite preservesState_handleNotification.
    exists c. split; [exact H | reflexivity]. }
  exists c. split; [exact H | reflexivity].
Qed.

(** The fuel that [handleData] gives to its loop is enough: with fuel at
    least the length of the buffer, one more unit changes nothing. *)
Lemma handleData_loop_fuel connectionId (fuel : nat) :
  forall st c,
    connections st !! connectionId = Some c ->
    (length (ConnectionInfo.buffer c) <= fuel)%nat ->
    handleData_loop (S fuel) connectionId st = handleData_loop fuel connectionId st.
Proof.
  induction fuel as [|fuel IH]; intros st c H Hlen.
  - cbn [handleData_loop]. rewrite (withConnection_some _ _ _ _ H). cbv zeta.
    destruct (ConnectionInfo.buffer c) as [|b rest]; [reflexivity|].
    cbn [length] in Hlen. lia.
  - change (handleData_loop (S (S fuel)) connectionId st)
      with (withConnection connectionId (fun connectionInfo =>
              let buffer := ConnectionInfo.buffer connectionInfo in
              if len buffer >? 0 then
                match parseFrame buffer with
                | Ok frameResult =>
                    setConnection connectionId
                      (ConnectionInfo.set_buffer connectionInfo
                         (slice_from buffer (Frame.totalLength frameResult))) ;;;
                    processFrame connectionId (Frame.payload frameResult) ;;;
                    handleData_loop (S fuel) connectionId
                | Throw message =>
                    if bool_decide (message = "Incomplete frame") then ret tt
                    else
                      logCommunication (lawnmowerId connectionInfo) "Error"
                        "Invalid_Frame"
                        ("Broken frame: " +:+ message +:+ ". Data: " +:+ toHex buffer) ;;;
                      setConnection connectionId
                        (ConnectionInfo.set_buffer connectionInfo [])
                end
              else ret tt) st).
    change (handleData_loop (S fuel) connectionId st)
      with (withConnection connectionId (fun connectionInfo =>
              let buffer := ConnectionInfo.buffer connectionInfo in
              if len buffer >? 0 then
                match parseFrame buffer with
                | Ok frameResult =>
                    setConnection connectionId
                      (ConnectionInfo.set_buffer connectionInfo
                         (slice_from buffer (Frame.totalLength frameResult))) ;;;
                    processFrame connectionId (Frame.payload frameResult) ;;;
                    handleData_loop fuel connectionId
                | Throw message =>
                    if bool_decide (message = "Incomplete frame") then ret tt
                    else
                      logCommunication (lawnmowerId connectionInfo) "Error"
                        "Invalid_Frame"
                        ("Broken frame: " +:+ message +:+ ". Data: " +:+ toHex buffer) ;;;
                      setConnection connectionId
                        (ConnectionInfo.set_buffer connectionInfo [])
                end
              else ret tt) st).
    rewrite !(withConnection_some _ _ _ _ H). cbv zeta.
    destruct (len (ConnectionInfo.buffer c) >? 0); [|reflexivity].
    destruct (parseFrame (ConnectionInfo.buffer c)) as [frameResult|message] eqn:Hp;
      [|reflexivity].
    apply parseFrame_inv in Hp as (o & Hd & _ & _ & Htot & Hle & _).
    unfold decodeLength in Hd. apply decodeLength_loop_bound in Hd as [_ Ho].
    pose proof (len_nonneg (Frame.payload frameResult)) as Hp0.
    unfold bind at 1 3. unfold setConnection at 1 2.
    set (rest := slice_from (ConnectionInfo.buffer c) (Frame.totalLength frameResult)).
    set (st1 := mkState _ _ _).
    assert (H1 : connections st1 !! connectionId
                 = Some (ConnectionInfo.set_buffer c rest))
      by apply lookup_insert_eq.
    destruct (processFrame_keeps_buffer st1 connectionId _
                (Frame.payload frameResult) H1) as (c2 & H2 & Hb2).
    unfold bind.
    destruct (processFrame connectionId (Frame.payload frameResult) st1)
      as [[u st2] e2].
    cbn [fst snd] in H2.
    rewrite (IH st2 c2 H2); [reflexivity|].
    rewrite Hb2. cbn [ConnectionInfo.buffer ConnectionInfo.set_buffer].
    unfold rest, slice_from. rewrite length_drop. unfold len in *. lia.
Qed.


Lemma handleData_loop_enough_fuel connectionId (fuel : nat) st c :
  connections st !! connectionId = Some c ->
  (length (ConnectionInfo.buffer c) <= fuel)%nat ->
  handleData_loop fuel connectionId st
  = handleData_loop (length (ConnectionInfo.buffer c)) connectionId st.
Proof.
  intros H Hle. induction Hle as [|fuel Hle IH]; [reflexivity|].
  now rewrite (handleData_loop_fuel connectionId fuel st c H Hle).
Qed.

End SessionLoop.

Section CommandClaims.

Import ProtocolService TCPService Observed.

(** C3, as the code has it.  For every REGULAR session message: one that
    fails the test (the connection is not authenticated and the HMAC is
    not the bypass 0xFADEDBED) gets the one row
    Warning/Unauthenticated_Message, no response, and the service is left
    as it was, whatever its body; one whose body holds a presentation
    header and a command byte is handed to [handleCommand] if and only if
    it passes the test; and one that passes the test with a body that does
    not parse is not handed on, it gets the one row
    Error/Command_Parse_Error. *)
Theorem regular_message_gate st connectionId c payload sessionMsg :
  connections st !! connectionId = Some c ->
  parseSessionMessage payload = Ok sessionMsg ->
  SessionMessage.messageType sessionMsg = REGULAR ->
  (~ passesGate c sessionMsg ->
   processFrame connectionId payload st = (tt, st, [unauthenticatedRow c]))
  /\ (forall presentationMsg command,
        parsePresentationMessage (SessionMessage.payload sessionMsg)
        = Ok presentationMsg ->
        parseCommand (PresentationMessage.payload presentationMsg) = Ok command ->
        (processFrame connectionId payload st
         = handleCommand connectionId (PresentationMessage.iin presentationMsg)
             command st
         <-> passesGate c sessionMsg))
  /\ (forall message,
        passesGate c sessionMsg ->
        parsePresentationMessage (SessionMessage.payload sessionMsg) = Throw message
        \/ (exists presentationMsg,
              parsePresentationMessage (SessionMessage.payload sessionMsg)
              = Ok presentationMsg
              /\ parseCommand (PresentationMessage.payload presentationMsg)
                 = Throw message) ->
        processFrame connectionId payload st
        = (tt, st,
           [InsertCommunicationLog (lawnmowerId c) "Error" "Command_Parse_Error"
              (Text ("Failed to parse command: " +:+ message))])).
Proof.
  intros H Hs Ht.
  rewrite (processFrame_regular _ _ _ _ _ H Hs Ht).
  split; [|split].
  - intros Hng. now apply handleRegularMessage_refused.
  - intros presentationMsg command Hp Hc. split.
    + intros Heq.
      destruct (ConnectionInfo.authenticated c) eqn:Ha; [now left|].
      destruct (CryptoService.isBypassHMAC (SessionMessage.hmac sessionMsg)) eqn:Hb;
        [right; now apply isBypassHMAC_true|].
      exfalso.
      assert (Hng : ~ passesGate c sessionMsg).
      { intros [Ha'|Hh]; [congruence|].
        apply isBypassHMAC_true in Hh. congruence. }
      rewrite (handleRegularMessage_refused _ _ _ _ H Hng) in Heq.
      destruct (handleCommand_outcome st connectionId c
                  (PresentationMessage.iin presentationMsg) command H)
        as (events & Hrun & [[frame Hw] | [text Hlog]]);
        rewrite Hrun in Heq; injection Heq as <-.
      * cbn [socketWrites unauthenticatedRow] in Hw. discriminate.
      * unfold unauthenticatedRow in Hlog. discriminate.
    + intros Hgate. rewrite (handleRegularMessage_passed _ _ _ _ H Hgate), Hp, Hc.
      reflexivity.
  - intros message Hgate Hfail.
    rewrite (handleRegularMessage_passed _ _ _ _ H Hgate).
    destruct Hfail as [Hp | (presentationMsg & Hp & Hc)].
    + rewrite Hp. reflexivity.
    + rewrite Hp, Hc. reflexivity.
Qed.

(** The three parts at work: on a connection that is not authenticated, a
    REGULAR message without a body and with the HMAC 00 00 00 00 is
    refused; a heartbeat with the bypass HMAC is handed to
    [handleCommand]; on an authenticated connection the message without a
    body gets the Command_Parse_Error row. *)
Lemma regular_message_gate_witness :
  processFrame 1 Sample.emptyRegular (Sample.service Sample.fresh)
  = (tt, Sample.service Sample.fresh, [unauthenticatedRow Sample.fresh])
  /\ (processFrame 1 Sample.bypassEcho (Sample.service Sample.fresh)
      = handleCommand 1 1
          {| Command.command := 0; Command.payload := [xde; xad; xbe; xef] |}
          (Sample.service Sample.fresh)
      <-> passesGate Sample.fresh
            {| SessionMessage.hmac := [xfa; xde; xdb; xed];
               SessionMessage.messageType := 0;
               SessionMessage.payload := [x00; x01; x00; xde; xad; xbe; xef] |})
  /\ processFrame 1 Sample.emptyRegular (Sample.service Sample.authenticated)
     = (tt, Sample.service Sample.authenticated,
        [InsertCommunicationLog 7 "Error" "Command_Parse_Error"
           (Text "Failed to parse command: Presentation message too short")]).
Proof.
  refine (conj _ (conj _ _)).
  - refine (proj1 (regular_message_gate (Sample.service Sample.fresh) 1 Sample.fresh
                     Sample.emptyRegular
                     {| SessionMessage.hmac := [x00; x00; x00; x00];
                        SessionMessage.messageType := 0;
                        SessionMessage.payload := [] |}
                     _ _ _) _); [vm_compute; reflexivity ..|].
    intros [Ha | Hh]; [discriminate Ha | discriminate Hh].
  - refine (proj1 (proj2 (regular_message_gate (Sample.service Sample.fresh) 1
                            Sample.fresh Sample.bypassEcho
                            {| SessionMessage.hmac := [xfa; xde; xdb; xed];
                               SessionMessage.messageType := 0;
                               SessionMessage.payload :=
                                 [x00; x01; x00; xde; xad; xbe; xef] |}
                            _ _ _))
              {| PresentationMessage.iin := 1;
                 PresentationMessage.payload := [x00; xde; xad; xbe; xef] |}
              {| Command.command := 0; Command.payload := [xde; xad; xbe; xef] |}
              _ _); vm_compute; reflexivity.
  - refine (proj2 (proj2 (regular_message_gate (Sample.service Sample.authenticated) 1
                            Sample.authenticated Sample.emptyRegular
                            {| SessionMessage.hmac := [x00; x00; x00; x00];
                               SessionMessage.messageType := 0;
                               SessionMessage.payload := [] |}
                            _ _ _))
              "Presentation message too short" _ _);
      [vm_compute; reflexivity .. | left; reflexivity | left; vm_compute; reflexivity].
Defined.

(** C3, counterexample to the claim as stated: on an authenticated
    connection a REGULAR message without a body passes the test and is
    still not handed to [handleCommand], whatever IIN and command one
    looks for; the handler logs Error/Command_Parse_Error. *)
Lemma authenticated_regular_not_dispatched :
  ConnectionInfo.authenticated Sample.authenticated = true
  /\ processFrame 1 Sample.emptyRegular (Sample.service Sample.authenticated)
     = (tt, Sample.service Sample.authenticated,
        [InsertCommunicationLog 7 "Error" "Command_Parse_Error"
           (Text "Failed to parse command: Presentation message too short")])
  /\ forall iin command,
       processFrame 1 Sample.emptyRegular (Sample.service Sample.authenticated)
       <> handleCommand 1 iin command (Sample.service Sample.authenticated).
Proof.
  assert (H : connections (Sample.service Sample.authenticated) !! 1
              = Some Sample.authenticated) by (vm_compute; reflexivity).
  assert (Hrun : processFrame 1 Sample.emptyRegular (Sample.service Sample.authenticated)
                 = (tt, Sample.service Sample.authenticated,
                    [InsertCommunicationLog 7 "Error" "Command_Parse_Error"
                       (Text "Failed to parse command: Presentation message too short")])).
  { rewrite (processFrame_regular _ _ _ _
               {| SessionMessage.hmac := [x00; x00; x00; x00];
                  SessionMessage.messageType := 0;
                  SessionMessage.payload := [] |} H);
      [|reflexivity|reflexivity].
    rewrite (handleRegularMessage_passed _ _ _ _ H); [reflexivity|].
    left. reflexivity. }
  split; [reflexivity|]. split; [exact Hrun|].
  intros iin command Heq. rewrite Hrun in Heq.
  destruct (handleCommand_outcome _ 1 _ iin command H)
    as (events & Hc & [[frame Hw] | [text Hlog]]);
    rewrite Hc in Heq; apply (f_equal snd) in Heq; cbn [snd] in Heq; subst events.
  - cbn [socketWrites] in Hw. discriminate.
  - discriminate.
Qed.

End CommandClaims.

Section ResponseClaims.

Import ProtocolService TCPService Observed.

(** C5. For every request command that the server answers (heartbeat
    0x00, control-device 0x01, ack-error 0x02, reset-blade-time 0x03, and
    the 0xFF error response to a control-device request without a body), the
    IIN of the presentation message of the response equals the IIN of the
    presentation message of the request. *)
Theorem response_iin_equals_request_iin
    st connectionId c buffer frame sessionMsg presentationMsg command :
  connections st !! connectionId = Some c ->
  parseFrame buffer = Ok frame ->
  parseSessionMessage (Frame.payload frame) = Ok sessionMsg ->
  SessionMessage.messageType sessionMsg = REGULAR ->
  passesGate c sessionMsg ->
  parsePresentationMessage (SessionMessage.payload sessionMsg) = Ok presentationMsg ->
  parseCommand (PresentationMessage.payload presentationMsg) = Ok command ->
  0 <= Command.command command <= 3 ->
  exists events response responseCommand responseBody,
    processFrame connectionId (Frame.payload frame) st = (tt, st, events)
    /\ socketWrites connectionId events = [response]
    /\ regularFrame response (PresentationMessage.iin presentationMsg)
         responseCommand responseBody
    /\ (responseCommand = Command.command command + 0x80 \/ responseCommand = 0xFF).
Proof.
  intros H Hf Hs Ht Hgate Hp Hc Hcode.
  apply parseFrame_inv in Hf as (_ & _ & _ & _ & _ & _ & Hlen).
  apply parseSessionMessage_inv in Hs as Hs'. destruct Hs' as [_ Hls].
  apply parsePresentationMessage_inv in Hp as Hp'. destruct Hp' as (Hiin & Hlp & _).
  apply parseCommand_inv in Hc as Hc'. destruct Hc' as (_ & Hlc & _).
  pose proof (len_nonneg (Command.payload command)) as Hb0.
  rewrite (processFrame_regular _ _ _ _ _ H Hs Ht).
  rewrite (handleRegularMessage_passed _ _ _ _ H Hgate), Hp, Hc.
  rewrite (handleCommand_unfold _ _ _ _ _ H). cbv zeta.
  set (iin := PresentationMessage.iin presentationMsg) in *.
  set (code := Command.command command) in *.
  destruct (Z.eqb_spec code HEARTBEAT) as [E|N0].
  { rewrite (handleHeartbeat_run _ _ _ _ _ H).
    eexists _, _, 0x80, (Command.payload command).
    split; [reflexivity|]. split; [apply socketWrites_write|].
    split; [apply responseFrame_decodes; lia|].
    left. rewrite E. reflexivity. }
  destruct (Z.eqb_spec code CONTROL_DEVICE) as [E|N1].
  { destruct (Z_lt_dec (len (Command.payload command)) 1) as [Hl|Hl].
    - rewrite (handleControlDevice_empty _ _ _ _ _ H Hl).
      rewrite (sendErrorResponse_run _ _ _ _ _ H).
      eexists _, _, 0xFF, (list_byte_of_string "Invalid control command").
      split; [reflexivity|]. split; [apply socketWrites_write|].
      split; [apply responseFrame_decodes; try lia; vm_compute; discriminate|].
      now right.
    - assert (Hl' : 1 <= len (Command.payload command)) by lia.
      rewrite (handleControlDevice_run _ _ _ _ _ H Hl').
      eexists _, _, 0x81, [].
      split; [reflexivity|].
      split.
      { destruct (snd (controlAction _)); cbn [app socketWrites];
          now rewrite Z.eqb_refl. }
      split; [apply responseFrame_decodes; try lia; vm_compute; discriminate|].
      left. rewrite E. reflexivity. }
  destruct (Z.eqb_spec code ACK_ERROR) as [E|N2].
  { rewrite (handleAckError_run _ _ _ _ H).
    eexists _, _, 0x82, [].
    split; [reflexivity|].
    split; [cbn [socketWrites]; now rewrite Z.eqb_refl|].
    split; [apply responseFrame_decodes; try lia; vm_compute; discriminate|].
    left. rewrite E. reflexivity. }
  destruct (Z.eqb_spec code RESET_BLADE_TIME) as [E|Hne].
  { rewrite (handleResetBladeTime_run _ _ _ _ H).
    eexists _, _, 0x83, [].
    split; [reflexivity|]. split; [apply socketWrites_write|].
    split; [apply responseFrame_decodes; try lia; vm_compute; discriminate|].
    left. rewrite E. reflexivity. }
  unfold HEARTBEAT, CONTROL_DEVICE, ACK_ERROR, RESET_BLADE_TIME in *. lia.
Qed.


Lemma response_iin_equals_request_iin_witness :
  exists events response responseCommand responseBody,
    processFrame 1 Sample.bypassEcho (Sample.service Sample.fresh)
    = (tt, Sample.service Sample.fresh, events)
    /\ socketWrites 1 events = [response]
    /\ regularFrame response 1 responseCommand responseBody
    /\ (responseCommand = 0 + 0x80 \/ responseCommand = 0xFF).
Proof.
  refine (response_iin_equals_request_iin
            (Sample.service Sample.fresh) 1 Sample.fresh
            (createFrame Sample.bypassEcho)
            {| Frame.payload := Sample.bypassEcho; Frame.totalLength := 16 |}
            {| SessionMessage.hmac := [xfa; xde; xdb; xed];
               SessionMessage.messageType := 0;
               SessionMessage.payload := [x00; x01; x00; xde; xad; xbe; xef] |}
            {| PresentationMessage.iin := 1;
               PresentationMessage.payload := [x00; xde; xad; xbe; xef] |}
            {| Command.command := 0; Command.payload := [xde; xad; xbe; xef] |}
            _ _ _ _ _ _ _ _);
    try (vm_compute; reflexivity).
  - right. reflexivity.
  - cbn. lia.
Defined.

(** C6. For every accepted ControlDevice request (command 0x01) whose
    body starts with an action in {0x00, 0x01, 0x02}, the handler persists
    the mapped device state (STOP -> Paused, START -> Mowing,
    HOME -> ReturningToStation) and replies with command 0x81 and an empty
    body. *)
Theorem control_device_persists_and_acknowledges
    st connectionId c payload sessionMsg presentationMsg action rest state :
  connections st !! connectionId = Some c ->
  parseSessionMessage payload = Ok sessionMsg ->
  SessionMessage.messageType sessionMsg = REGULAR ->
  passesGate c sessionMsg ->
  parsePresentationMessage (SessionMessage.payload sessionMsg) = Ok presentationMsg ->
  parseCommand (PresentationMessage.payload presentationMsg)
  = Ok {| Command.command := CONTROL_DEVICE; Command.payload := action :: rest |} ->
  In (Z_of_byte action, state)
     [(STOP, "Paused"); (START, "Mowing"); (HOME, "ReturningToStation")] ->
  exists response text,
    processFrame connectionId payload st
    = (tt, st,
       [InsertDeviceState (lawnmowerId c) state;
        SocketWrite connectionId response;
        InsertCommunicationLog (lawnmowerId c) "Information" "Control_Command"
          (Text text)])
    /\ regularFrame response (PresentationMessage.iin presentationMsg) 0x81 [].
Proof.
  intros H Hs Ht Hgate Hp Hc Hin.
  apply parsePresentationMessage_inv in Hp as Hp'. destruct Hp' as (Hiin & _ & _).
  rewrite (processFrame_regular _ _ _ _ _ H Hs Ht).
  rewrite (handleRegularMessage_passed _ _ _ _ H Hgate), Hp, Hc.
  rewrite (handleCommand_unfold _ _ _ _ _ H). cbv zeta.
  cbn [Command.command Command.payload].
  change (CONTROL_DEVICE =? HEARTBEAT) with false.
  change (CONTROL_DEVICE =? CONTROL_DEVICE) with true. cbv iota.
  assert (Hl : 1 <= len (action :: rest))
    by (rewrite len_cons; pose proof (len_nonneg rest); lia).
  rewrite (handleControlDevice_run _ _ _ _ _ H Hl), number_at_0.
  assert (Hact : controlAction (Z_of_byte action)
                 = (fst (controlAction (Z_of_byte action)), Some state)).
  { destruct Hin as [E|[E|[E|[]]]]; injection E as E1 E2;
      rewrite <- E1, <- E2; reflexivity. }
  rewrite Hact. cbn [fst snd app].
  eexists _, _. split; [reflexivity|].
  apply responseFrame_decodes; try lia; vm_compute; discriminate.
Qed.

Lemma control_device_persists_and_acknowledges_witness :
  exists response text,
    processFrame 1 Sample.bypassStart (Sample.service Sample.fresh)
    = (tt, Sample.service Sample.fresh,
       [InsertDeviceState 7 "Mowing";
        SocketWrite 1 response;
        InsertCommunicationLog 7 "Information" "Control_Command" (Text text)])
    /\ regularFrame response 1 0x81 [].
Proof.
  refine (control_device_persists_and_acknowledges
            (Sample.service Sample.fresh) 1 Sample.fresh Sample.bypassStart
            {| SessionMessage.hmac := [xfa; xde; xdb; xed];
               SessionMessage.messageType := 0;
               SessionMessage.payload := [x00; x01; x01; x01] |}
            {| PresentationMessage.iin := 1;
               PresentationMessage.payload := [x01; x01] |}
            x01 [] "Mowing" _ _ _ _ _ _ _);
    try (vm_compute; reflexivity).
  - right. reflexivity.
  - right. left. reflexivity.
Defined.

(** C10. Once a connection is authenticated, the handling of a REGULAR
    message does not depend on the four HMAC bytes of the message: two
    messages that differ in that field only give the same response, the
    same log rows and the same inserts, and leave the service in the same
    state.  The incoming HMAC is never checked against the shared secret
    ([verifyAuthenticatedHMAC] is not called by any handler). *)
Theorem authenticated_regular_ignores_hmac st connectionId c hmac1 hmac2 body :
  connections st !! connectionId = Some c ->
  ConnectionInfo.authenticated c = true ->
  len hmac1 = 4 -> len hmac2 = 4 ->
  processFrame connectionId (hmac1 ++ [byte_of_Z REGULAR] ++ body) st
  = processFrame connectionId (hmac2 ++ [byte_of_Z REGULAR] ++ body) st.
Proof.
  intros H Ha H1 H2.
  pose proof (parseSessionMessage_app hmac1 body (byte_of_Z REGULAR) H1) as P1.
  pose proof (parseSessionMessage_app hmac2 body (byte_of_Z REGULAR) H2) as P2.
  rewrite (processFrame_regular _ _ _ _ _ H P1) by reflexivity.
  rewrite (processFrame_regular _ _ _ _ _ H P2) by reflexivity.
  rewrite !(handleRegularMessage_passed _ _ c) by (assumption || now left).
  reflexivity.
Qed.

Lemma authenticated_regular_ignores_hmac_witness :
  CryptoService.verifyAuthenticatedHMAC 1476263253
    [x00; x01; x00; xde; xad; xbe; xef] [x00; x00; x00; x00] = false
  /\ processFrame 1 ([x00; x00; x00; x00] ++ [byte_of_Z REGULAR]
                     ++ [x00; x01; x00; xde; xad; xbe; xef])
       (Sample.service Sample.authenticated)
     = processFrame 1 (CryptoService.createAuthenticatedHMAC 1476263253
                         [x00; x01; x00; xde; xad; xbe; xef]
                       ++ [byte_of_Z REGULAR]
                       ++ [x00; x01; x00; xde; xad; xbe; xef])
         (Sample.service Sample.authenticated).
Proof.
  split; [vm_compute; reflexivity|].
  apply (authenticated_regular_ignores_hmac
           (Sample.service Sample.authenticated) 1 Sample.authenticated);
    vm_compute; reflexivity.
Defined.

End ResponseClaims.

Section NotificationClaims.

Import ProtocolService TCPService Observed.

(** C9, as the code has it.  A DeviceStatus notification (ntype 0x00)
    whose body is shorter than 6 bytes is dropped without a trace: no
    insert, no change of the service, no frame written, and no log row of
    any severity. *)
Theorem short_device_status_dropped st connectionId hmac data :
  len hmac = 4 ->
  len data < 6 ->
  processFrame connectionId
    (hmac ++ [byte_of_Z NOTIFICATION] ++ byte_of_Z DEVICE_STATUS :: data) st
  = (tt, st, []).
Proof.
  intros Hh Hd. unfold processFrame.
  destruct (connections st !! connectionId) as [c|] eqn:H;
    [|now apply withConnection_none].
  rewrite (withConnection_some _ _ _ _ H).
  rewrite (parseSessionMessage_app hmac _ (byte_of_Z NOTIFICATION) Hh).
  cbv zeta. cbn [SessionMessage.messageType].
  change (Z_of_byte (byte_of_Z NOTIFICATION)) with NOTIFICATION.
  change (NOTIFICATION =? HELLO) with false.
  change (NOTIFICATION =? CLIENT_AUTH) with false.
  change (NOTIFICATION =? REGULAR) with false.
  change (NOTIFICATION =? NOTIFICATION) with true. cbv iota.
  unfold handleNotification. rewrite (withConnection_some _ _ _ _ H).
  cbv zeta. cbn [SessionMessage.payload].
  destruct (Z.ltb_spec (len (byte_of_Z DEVICE_STATUS :: data)) 1) as [Hl|_].
  { rewrite len_cons in Hl. pose proof (len_nonneg data). lia. }
  rewrite number_at_0, slice_from_1.
  change (Z_of_byte (byte_of_Z DEVICE_STATUS) =? DEVICE_STATUS) with true. cbv iota.
  unfold handleDeviceStatusNotification. rewrite (withConnection_some _ _ _ _ H).
  destruct (Z.ltb_spec (len data) 6); [reflexivity | lia].
Qed.

Lemma short_device_status_dropped_witness :
  processFrame 1
    ([x00; x00; x00; x00] ++ [byte_of_Z NOTIFICATION]
     ++ byte_of_Z DEVICE_STATUS :: [xc8; x00; x00; x04; xb0])
    (Sample.service Sample.fresh)
  = (tt, Sample.service Sample.fresh, []).
Proof.
  apply (short_device_status_dropped (Sample.service Sample.fresh) 1
           [x00; x00; x00; x00] [xc8; x00; x00; x04; xb0]);
    vm_compute; reflexivity.
Defined.

(** C9, counterexample to the claim as stated: a DeviceStatus notification
    with a five-byte body leaves no row of severity Warning; it leaves no
    event at all. *)
Lemma short_device_status_logs_no_warning :
  exists events,
    processFrame 1 [x00; x00; x00; x00; x80; x00; xc8; x00; x00; x04; xb0]
      (Sample.service Sample.fresh)
    = (tt, Sample.service Sample.fresh, events)
    /\ forall lawnmowerId eventType message,
         ~ In (InsertCommunicationLog lawnmowerId "Warning" eventType message) events.
Proof.
  exists []. split; [vm_compute; reflexivity|].
  intros ? ? ? [].
Qed.

End NotificationClaims.

Section HandshakeClaims.

Import ProtocolService TCPService Observed.

(** C2, as the code has it.  For every HELLO whose body holds the four
    bytes of the client's public key, the reply is a single frame: its
    payload is a presentation message with IIN 0 that wraps exactly one
    session message, with HMAC field 0x00000000, type byte CHALLENGE (0x02)
    and body serverPub_BE[4] ++ nonce_BE[8] ++ authS_BE[4], where
    authS = mac(PSK, serverPub_BE ++ clientPub_BE ++ nonce_BE).  A HELLO
    with a shorter body gets no reply and leaves the service as it was:
    the one thing done is the row Error/Auth_Hello_Error. *)
Theorem hello_is_answered_by_challenge st connectionId c payload sessionMsg :
  connections st !! connectionId = Some c ->
  parseSessionMessage payload = Ok sessionMsg ->
  SessionMessage.messageType sessionMsg = HELLO ->
  (4 <= len (SessionMessage.payload sessionMsg) ->
   let clientPub := readUInt32BE (SessionMessage.payload sessionMsg) 0 in
   let serverSecret := CryptoService.generateRandomSecret (entropy st (drawn st)) in
   let nonce := CryptoService.generateNonce (entropy st (S (drawn st))) in
   let serverPub := CryptoService.calculatePublicKey serverSecret in
   let authS :=
     CryptoService.calculateMAC CryptoService.PSK
       (writeUInt32BE serverPub ++ writeUInt32BE clientPub ++ writeBigUInt64BE nonce) in
   exists st' frame framePayload presentationMsg text,
     processFrame connectionId payload st
     = (tt, st',
        [SocketWrite connectionId frame;
         InsertCommunicationLog (lawnmowerId c) "Information" "Auth_Challenge_Sent"
           (Text text)])
     /\ parseFrame frame
        = Ok {| Frame.payload := framePayload; Frame.totalLength := len frame |}
     /\ parsePresentationMessage framePayload = Ok presentationMsg
     /\ PresentationMessage.iin presentationMsg = 0
     /\ parseSessionMessage (PresentationMessage.payload presentationMsg)
        = Ok {| SessionMessage.hmac := [x00; x00; x00; x00];
                SessionMessage.messageType := CHALLENGE;
                SessionMessage.payload :=
                  writeUInt32BE serverPub ++ writeBigUInt64BE nonce
                  ++ writeUInt32BE authS |})
  /\ (len (SessionMessage.payload sessionMsg) < 4 ->
      processFrame connectionId payload st
      = (tt, st,
         [InsertCommunicationLog (lawnmowerId c) "Error" "Auth_Hello_Error"
            (Text "Failed to process Hello: Invalid Hello message length")])).
Proof.
  intros H Hs Ht.
  split; [intros Hlen clientPub serverSecret nonce serverPub authS | intros Hlen];
    rewrite (processFrame_hello _ _ _ _ _ H Hs Ht);
    unfold handleHello; rewrite (withConnection_some _ _ _ _ H);
    unfold CryptoService.parseHelloPayload;
    destruct (Z.ltb_spec (len (SessionMessage.payload sessionMsg)) 4);
    [lia | | reflexivity | lia].
  unfold bind, draw, setConnection, emit, logCommunication.
  cbv beta iota zeta. cbn [entropy drawn connections app].
  unfold CryptoService.createChallenge. cbv zeta.
  cbn [Challenge.serverPublicKey Challenge.nonce Challenge.authS].
  fold clientPub serverSecret nonce serverPub. fold authS.
  set (body := CryptoService.createChallengePayload serverPub nonce authS).
  set (sessionBytes := createSessionMessage CHALLENGE body (Some [x00; x00; x00; x00])).
  eexists _, _, (createPresentationMessage 0 sessionBytes),
    {| PresentationMessage.iin := 0; PresentationMessage.payload := sessionBytes |}, _.
  split; [reflexivity|].
  split.
  { rewrite <- (app_nil_r (createFrame _)) at 1.
    apply parseFrame_createFrame_app. vm_compute. discriminate. }
  split; [apply parsePresentationMessage_create; lia|].
  split; [reflexivity|].
  cbn [PresentationMessage.payload].
  apply parseSessionMessage_create; [reflexivity | unfold CHALLENGE; lia].
Qed.

(** A HELLO with the key 906815736 on a fresh connection, and one with a
    body of three bytes. *)
Lemma hello_is_answered_by_challenge_witness :
  (exists st' frame framePayload presentationMsg text,
    processFrame 1 ([x00; x00; x00; x00; x01] ++ writeUInt32BE 906815736)
      (Sample.service Sample.fresh)
    = (tt, st',
       [SocketWrite 1 frame;
        InsertCommunicationLog 7 "Information" "Auth_Challenge_Sent" (Text text)])
    /\ parseFrame frame
       = Ok {| Frame.payload := framePayload; Frame.totalLength := len frame |}
    /\ parsePresentationMessage framePayload = Ok presentationMsg
    /\ PresentationMessage.iin presentationMsg = 0
    /\ parseSessionMessage (PresentationMessage.payload presentationMsg)
       = Ok {| SessionMessage.hmac := [x00; x00; x00; x00];
               SessionMessage.messageType := CHALLENGE;
               SessionMessage.payload :=
                 writeUInt32BE 124418418 ++ writeBigUInt64BE 0x0102030405060708
                 ++ writeUInt32BE
                      (CryptoService.calculateMAC CryptoService.PSK
                         (writeUInt32BE 124418418 ++ writeUInt32BE 906815736
                          ++ writeBigUInt64BE 0x0102030405060708)) |})
  /\ processFrame 1 [x00; x00; x00; x00; x01; x36; x0c; xe9]
       (Sample.service Sample.fresh)
     = (tt, Sample.service Sample.fresh,
        [InsertCommunicationLog 7 "Error" "Auth_Hello_Error"
           (Text "Failed to process Hello: Invalid Hello message length")]).
Proof.
  assert (H : connections (Sample.service Sample.fresh) !! 1 = Some Sample.fresh)
    by (vm_compute; reflexivity).
  refine (conj _ (proj2 (hello_is_answered_by_challenge (Sample.service Sample.fresh) 1
                           Sample.fresh [x00; x00; x00; x00; x01; x36; x0c; xe9]
                           {| SessionMessage.hmac := [x00; x00; x00; x00];
                              SessionMessage.messageType := HELLO;
                              SessionMessage.payload := [x36; x0c; xe9] |}
                           H eq_refl eq_refl) eq_refl)).
  assert (Hs : parseSessionMessage ([x00; x00; x00; x00; x01] ++ writeUInt32BE 906815736)
               = Ok {| SessionMessage.hmac := [x00; x00; x00; x00];
                       SessionMessage.messageType := HELLO;
                       SessionMessage.payload := writeUInt32BE 906815736 |})
    by (vm_compute; reflexivity).
  assert (Hlen : 4 <= len (writeUInt32BE 906815736)) by (vm_compute; discriminate).
  pose proof (proj1 (hello_is_answered_by_challenge (Sample.service Sample.fresh) 1
                       Sample.fresh _ _ H Hs eq_refl) Hlen) as W.
  cbv zeta in W. cbn [SessionMessage.payload Sample.service entropy drawn] in W.
  replace (readUInt32BE (writeUInt32BE 906815736) 0) with 906815736 in W
    by (vm_compute; reflexivity).
  replace (CryptoService.generateRandomSecret (Sample.entropy 0)) with 0x5678 in W
    by (vm_compute; reflexivity).
  replace (CryptoService.generateNonce (Sample.entropy 1)) with 0x0102030405060708 in W
    by (vm_compute; reflexivity).
  replace (CryptoService.calculatePublicKey 0x5678) with 124418418 in W
    by (vm_compute; reflexivity).
  exact W.
Defined.

(** C2, counterexample to the claim as stated: a HELLO whose body is empty
    gets no reply at all; the handler logs Error/Auth_Hello_Error. *)
Lemma short_hello_gets_no_reply :
  handleHello 1
    {| SessionMessage.hmac := [x00; x00; x00; x00];
       SessionMessage.messageType := HELLO;
       SessionMessage.payload := [] |}
    (Sample.service Sample.fresh)
  = (tt, Sample.service Sample.fresh,
     [InsertCommunicationLog 7 "Error" "Auth_Hello_Error"
        (Text "Failed to process Hello: Invalid Hello message length")])
  /\ processFrame 1 [x00; x00; x00; x00; x01] (Sample.service Sample.fresh)
     = (tt, Sample.service Sample.fresh,
        [InsertCommunicationLog 7 "Error" "Auth_Hello_Error"
           (Text "Failed to process Hello: Invalid Hello message length")])
  /\ socketWrites 1
       [InsertCommunicationLog 7 "Error" "Auth_Hello_Error"
          (Text "Failed to process Hello: Invalid Hello message length")]
     = [].
Proof.
  split; [vm_compute; reflexivity|].
  split; [vm_compute; reflexivity | reflexivity].
Qed.

End HandshakeClaims.

(** ** The vectors of the specification *)

Section Vectors.

Import ProtocolService TCPService.

Example encodeLength_0 : encodeLength 0 = [x00].
Proof. vm_compute. reflexivity. Qed.

Example encodeLength_127 : encodeLength 127 = [x7f].
Proof. vm_compute. reflexivity. Qed.

Example encodeLength_128 : encodeLength 128 = [x80; x01].
Proof. vm_compute. reflexivity. Qed.

Example encodeLength_16383 : encodeLength 16383 = [xff; x7f].
Proof. vm_compute. reflexivity. Qed.

Example encodeLength_16384 : encodeLength 16384 = [x80; x80; x01].
Proof. vm_compute. reflexivity. Qed.

Example createFrame_empty : createFrame [] = [xaa; x00; xff; x56].
Proof. vm_compute. reflexivity. Qed.

Example calculateHash_01 : CryptoService.calculateHash [x01] = 1.
Proof. vm_compute. reflexivity. Qed.

Example calculateHash_01_02 : CryptoService.calculateHash [x01; x02] = 33.
Proof. vm_compute. reflexivity. Qed.

Example calculateMAC_zeros :
  CryptoService.calculateMAC CryptoService.PSK (repeat x00 16) = 0xFEED5EED.
Proof. vm_compute. reflexivity. Qed.

Example sample_keys :
  CryptoService.calculatePublicKey 0x1234 = 906815736
  /\ CryptoService.calculatePublicKey 0x5678 = 124418418
  /\ CryptoService.calculateSharedSecret 906815736 0x5678 = 1476263253
  /\ CryptoService.calculateSharedSecret 124418418 0x1234 = 1476263253.
Proof. repeat split; vm_compute; reflexivity. Qed.

(** Bypass echo: FA DE DB ED 00 00 01 00 DE AD BE EF is answered by
    FA DE DB ED 00 00 01 80 DE AD BE EF. *)
Example bypass_echo :
  processFrame 1 Sample.bypassEcho (Sample.service Sample.fresh)
  = (tt, Sample.service Sample.fresh,
     [SocketWrite 1
        (createFrame [xfa; xde; xdb; xed; x00; x00; x01; x80; xde; xad; xbe; xef]);
      InsertCommunicationLog 7 "Information" "Heartbeat_Response"
        (Text "Heartbeat echoed, payload length: 4")]).
Proof. vm_compute. reflexivity. Qed.

(** Status notification C8 00 00 04 B0 02: battery 100 %, blade time
    1200 s, state Mowing. *)
Example status_notification :
  processFrame 1 [x00; x00; x00; x00; x80; x00; xc8; x00; x00; x04; xb0; x02]
    (Sample.service Sample.fresh)
  = (tt, Sample.service Sample.fresh,
     [Await (InsertBatteryLevel 7 (Qmake 200 2)) [InsertDeviceState 7 "Mowing"];
      InsertCommunicationLog 7 "Information" "Status_Update"
        (Text "Battery: 100%, State: Mowing, Blade: 1200s")]).
Proof. vm_compute. reflexivity. Qed.

(** A whole frame that arrives in one piece is consumed by [handleData]. *)
Example handleData_whole_frame :
  handleData 1 (createFrame Sample.bypassEcho) (Sample.service Sample.fresh)
  = (tt, Sample.service Sample.fresh,
     [SocketWrite 1
        (createFrame [xfa; xde; xdb; xed; x00; x00; x01; x80; xde; xad; xbe; xef]);
      InsertCommunicationLog 7 "Information" "Heartbeat_Response"
        (Text "Heartbeat echoed, payload length: 4")]).
Proof. vm_compute. reflexivity. Qed.

End Vectors.

(** ** More on the frame codec *)

Section Checksum.

Import ProtocolService Expected.

Lemma mod_65536_toInt32 (x : Z) : JS.toInt32 x mod 2 ^ 16 = x mod 2 ^ 16.
Proof.
  assert (D : (2 ^ 16 | 2 ^ 32)) by (exists (2 ^ 16); reflexivity).
  rewrite <- (Z.mod_mod_divide (JS.toInt32 x) _ _ D), toInt32_cong.
  apply Z.mod_mod_divide, D.
Qed.

Lemma and_FFFF (x : Z) : JS.and x 0xFFFF = x mod 2 ^ 16.
Proof.
  unfold JS.and. rewrite (toInt32_small 0xFFFF) by lia.
  change 0xFFFF with (Z.ones 16). rewrite Z.land_ones by lia.
  apply mod_65536_toInt32.
Qed.

Lemma and_FF (x : Z) : 0 <= x < 2 ^ 31 -> JS.and x 0xFF = x mod 256.
Proof.
  intros Hx. unfold JS.and. rewrite !toInt32_small by lia.
  change 0xFF with (Z.ones 8). now rewrite Z.land_ones by lia.
Qed.

Lemma shr_8 (x : Z) : 0 <= x < 2 ^ 31 -> JS.shr x 8 = x / 256.
Proof.
  intros Hx. unfold JS.shr. rewrite toInt32_small by lia.
  change (JS.toUint32 8 mod 32) with 8. now rewrite Z.shiftr_div_pow2 by lia.
Qed.

Lemma shl_8 (x : Z) : 0 <= x < 256 -> JS.shl x 8 = x * 256.
Proof.
  intros Hx. unfold JS.shl. rewrite (toInt32_small x) by lia.
  change (JS.toUint32 8 mod 32) with 8. rewrite Z.shiftl_mul_pow2 by lia.
  apply toInt32_small. lia.
Qed.

Lemma calculateChecksum_spec (buffer : Buffer) :
  calculateChecksum buffer
  = [byte_of_Z (checksumValue buffer / 256); byte_of_Z (checksumValue buffer mod 256)].
Proof.
  unfold calculateChecksum. cbv zeta.
  assert (Hck : JS.and (JS.not (sum_bytes buffer) + 1) 0xFFFF = checksumValue buffer).
  { rewrite and_FFFF. unfold JS.not, Z.lnot, checksumValue.
    replace (Z.pred (- JS.toInt32 (sum_bytes buffer)) + 1)
      with (0 - JS.toInt32 (sum_bytes buffer)) by lia.
    rewrite Zminus_mod, mod_65536_toInt32, <- Zminus_mod. f_equal. }
  rewrite Hck.
  pose proof (Z.mod_pos_bound (- sum_bytes buffer) (2 ^ 16) ltac:(lia)) as Hr.
  fold (checksumValue buffer) in Hr.
  assert (0 <= checksumValue buffer / 256 < 256)
    by (split; [apply Z.div_pos; lia | apply Z.div_lt_upper_bound; lia]).
  rewrite shr_8, !and_FF by lia.
  rewrite (Z.mod_small (checksumValue buffer / 256)) by lia.
  reflexivity.
Qed.

Lemma checksumValue_range (buffer : Buffer) : 0 <= checksumValue buffer < 2 ^ 16.
Proof. apply Z.mod_pos_bound. lia. Qed.

Lemma two_bytes_value (c0 c1 : byte) (v : Z) :
  0 <= v < 2 ^ 16 ->
  ([c0; c1] = [byte_of_Z (v / 256); byte_of_Z (v mod 256)]
   <-> Z_of_byte c0 * 256 + Z_of_byte c1 = v).
Proof.
  intros Hv.
  assert (0 <= v / 256 < 256)
    by (split; [apply Z.div_pos; lia | apply Z.div_lt_upper_bound; lia]).
  pose proof (Z.mod_pos_bound v 256 ltac:(lia)) as Hm.
  pose proof (Z.div_mod v 256 ltac:(lia)) as Hdm.
  pose proof (Z_of_byte_range c0). pose proof (Z_of_byte_range c1).
  split.
  - intros [= -> ->]. rewrite !Z_of_byte_of_Z_small by lia. lia.
  - intros E.
    assert (Z_of_byte c0 = v / 256 /\ Z_of_byte c1 = v mod 256) as [E0 E1] by lia.
    now rewrite <- E0, <- E1, !byte_of_Z_of_byte.
Qed.

(** X1. With a two-byte checksum buffer, [verifyChecksum] accepts exactly
    what the comparison in [parseFrame] accepts: the bytes that
    [calculateChecksum] gives for the frame. *)
Theorem verifyChecksum_agrees_with_calculateChecksum (frameBuffer checksumBuffer : Buffer) :
  len checksumBuffer = 2 ->
  verifyChecksum frameBuffer checksumBuffer
  = equals checksumBuffer (calculateChecksum frameBuffer).
Proof.
  intros Hc.
  destruct checksumBuffer as [|c0 [|c1 [|c2 rest]]];
    try (unfold len in Hc; cbn [length] in Hc; lia).
  unfold verifyChecksum. cbv zeta.
  change (at_index [c0; c1] 0) with (Some c0).
  change (at_index [c0; c1] 1) with (Some c1).
  cbv beta iota.
  pose proof (Z_of_byte_range c0). pose proof (Z_of_byte_range c1).
  rewrite shl_8, and_FFFF by lia.
  rewrite calculateChecksum_spec. unfold equals.
  pose proof (checksumValue_range frameBuffer) as Hr.
  apply Bool.eq_iff_eq_true.
  rewrite Z.eqb_eq, bool_decide_eq_true, two_bytes_value by exact Hr.
  unfold checksumValue in *.
  set (s := sum_bytes frameBuffer) in *. set (v := Z_of_byte c0 * 256 + Z_of_byte c1).
  replace (s + Z_of_byte c0 * 256 + Z_of_byte c1) with (s + v) by (unfold v; lia).
  assert (Hv : 0 <= v < 2 ^ 16) by (unfold v; lia).
  split.
  - intros E.
    assert (E' : (- s) mod 2 ^ 16 = v mod 2 ^ 16).
    { replace (- s) with (v - (s + v)) by lia.
      rewrite Zminus_mod, E, Z.sub_0_r, Z.mod_mod by lia. reflexivity. }
    transitivity (v mod 2 ^ 16); [now rewrite Z.mod_small by lia | symmetry; exact E'].
  - intros E.
    replace ((s + v) mod 2 ^ 16) with ((s + (- s) mod 2 ^ 16) mod 2 ^ 16)
      by (f_equal; f_equal; symmetry; exact E).
    rewrite Zplus_mod_idemp_r. replace (s + - s) with 0 by lia. reflexivity.
Qed.

Lemma verifyChecksum_agrees_with_calculateChecksum_witness :
  len [xff; x56] = 2
  /\ verifyChecksum [xaa; x00] [xff; x56]
     = equals [xff; x56] (calculateChecksum [xaa; x00]).
Proof.
  split; [reflexivity|].
  apply verifyChecksum_agrees_with_calculateChecksum. reflexivity.
Defined.

End Checksum.

Section FrameShape.

Import ProtocolService Expected.

(** A length field that [decodeLength] read completely (the loop stopped
    on a byte without the continuation bit, not at the end of the buffer)
    is a prefix of one to three bytes that decodes the same way whatever
    follows it. *)
Lemma decodeLength_loop_field (r : Buffer) (offset n o : Z) :
  decodeLength_loop r 0 offset 0 = Ok (n, o) ->
  o - offset < len r ->
  exists L s,
    r = L ++ s /\ len L = o - offset /\ 1 <= len L <= 3
    /\ forall rest, decodeLength_loop (L ++ rest) 0 offset 0 = Ok (n, o).
Proof.
  destruct r as [|b1 r].
  { cbn [decodeLength_loop]. intros [= <- <-]. unfold len; cbn [length]. lia. }
  pose proof (Z_of_byte_range b1).
  rewrite decodeLength_loop_cons by lia.
  change (2 ^ 0) with 1.
  destruct (Z.ltb_spec (Z_of_byte b1) 128).
  { intros [= <- <-] _. exists [b1], r. repeat split; try (unfold len; cbn [length]; lia).
    intros rest. cbn [app]. rewrite decodeLength_loop_cons by lia.
    destruct (Z.ltb_spec (Z_of_byte b1) 128); [reflexivity|lia]. }
  change (0 + 7 >=? 21) with false. cbv iota.
  destruct r as [|b2 r].
  { cbn [decodeLength_loop]. intros [= <- <-]. unfold len; cbn [length]. lia. }
  pose proof (Z_of_byte_range b2).
  rewrite decodeLength_loop_cons by (change (2 ^ (0 + 7)) with 128; lia).
  change (2 ^ (0 + 7)) with 128.
  destruct (Z.ltb_spec (Z_of_byte b2) 128).
  { intros [= <- <-] _. exists [b1; b2], r.
    repeat split; try (unfold len; cbn [length]; lia).
    intros rest. cbn [app]. rewrite decodeLength_loop_cons by lia.
    destruct (Z.ltb_spec (Z_of_byte b1) 128); [lia|].
    change (0 + 7 >=? 21) with false. cbv iota.
    rewrite decodeLength_loop_cons by (change (2 ^ (0 + 7)) with 128; lia).
    destruct (Z.ltb_spec (Z_of_byte b2) 128); [reflexivity|lia]. }
  change (0 + 7 + 7 >=? 21) with false. cbv iota.
  destruct r as [|b3 r].
  { cbn [decodeLength_loop]. intros [= <- <-]. unfold len; cbn [length]. lia. }
  pose proof (Z_of_byte_range b3).
  rewrite decodeLength_loop_cons by (change (2 ^ (0 + 7 + 7)) with 16384; lia).
  change (2 ^ (0 + 7 + 7)) with 16384.
  destruct (Z.ltb_spec (Z_of_byte b3) 128).
  { intros [= <- <-] _. exists [b1; b2; b3], r.
    repeat split; try (unfold len; cbn [length]; lia).
    intros rest. cbn [app]. rewrite decodeLength_loop_cons by lia.
    destruct (Z.ltb_spec (Z_of_byte b1) 128); [lia|].
    change (0 + 7 >=? 21) with false. cbv iota.
    rewrite decodeLength_loop_cons by (change (2 ^ (0 + 7)) with 128; lia).
    destruct (Z.ltb_spec (Z_of_byte b2) 128); [lia|].
    change (0 + 7 + 7 >=? 21) with false. cbv iota.
    rewrite decodeLength_loop_cons by (change (2 ^ (0 + 7 + 7)) with 16384; lia).
    destruct (Z.ltb_spec (Z_of_byte b3) 128); [reflexivity|lia]. }
  change (0 + 7 + 7 + 7 >=? 21) with true. cbv iota. discriminate.
Qed.

(** [parseFrame] on SOF, a length field for [p], [p], two bytes [C] and
    anything after them: the outcome is fixed by the comparison of [C]
    with the checksum. *)
Lemma parseFrame_layout_checked (L p C tail : Buffer) :
  (forall rest, decodeLength_loop (L ++ rest) 0 1 0 = Ok (len p, 1 + len L)) ->
  1 <= len L ->
  len C = 2 ->
  let F := byte_of_Z SOF_MARKER :: L ++ p in
  parseFrame (F ++ C ++ tail)
  = if equals C (calculateChecksum F)
    then Ok {| Frame.payload := p; Frame.totalLength := len F + 2 |}
    else Throw "Checksum mismatch".
Proof.
  intros Hdec HL HC F.
  pose proof (len_nonneg p) as Hp. pose proof (len_nonneg tail) as Ht.
  assert (HF : len F = 1 + len L + len p).
  { unfold F. rewrite len_cons, len_app. lia. }
  unfold parseFrame.
  replace (len (F ++ C ++ tail) <? 4) with false
    by (symmetry; apply Z.ltb_ge; rewrite !len_app; lia).
  replace (at_index (F ++ C ++ tail) 0) with (Some (byte_of_Z SOF_MARKER))
    by reflexivity.
  rewrite bool_decide_eq_true_2 by reflexivity. cbn [negb].
  assert (Hd : decodeLength (F ++ C ++ tail) 1 = Ok (len p, 1 + len L)).
  { unfold decodeLength, slice_from. change (Z.to_nat 1) with 1%nat.
    unfold F. cbn [app drop]. rewrite <- app_assoc. apply Hdec. }
  rewrite Hd.
  replace (len (F ++ C ++ tail) <? 1 + len L + len p + 2) with false
    by (symmetry; apply Z.ltb_ge; rewrite !len_app; lia).
  assert (Hrecv : slice (F ++ C ++ tail) (1 + len L + len p) (1 + len L + len p + 2) = C).
  { rewrite <- HF. apply (slice_middle F C tail 2). now rewrite HC. }
  assert (Hfwc : slice (F ++ C ++ tail) 0 (1 + len L + len p) = F).
  { rewrite <- HF. apply slice_prefix. }
  assert (Hpay : slice (F ++ C ++ tail) (1 + len L) (1 + len L + len p) = p).
  { replace (F ++ C ++ tail) with ((byte_of_Z SOF_MARKER :: L) ++ p ++ (C ++ tail))
      by (unfold F; cbn [app]; now rewrite <- app_assoc).
    rewrite <- (len_cons (byte_of_Z SOF_MARKER) L).
    now apply slice_middle. }
  rewrite Hrecv, Hfwc, Hpay.
  destruct (equals C (calculateChecksum F)); cbn [negb]; [|reflexivity].
  f_equal. f_equal. lia.
Qed.

Lemma split_at (b : Buffer) (i : Z) :
  0 <= i <= len b ->
  b = slice b 0 i ++ slice_from b i /\ len (slice b 0 i) = i.
Proof.
  intros Hi. unfold slice, slice_from, len in *.
  rewrite Z.sub_0_r. change (drop (Z.to_nat 0) b) with b.
  split; [now rewrite take_drop|].
  rewrite length_take. lia.
Qed.

(** Every buffer that [parseFrame] accepts starts with a frame of the wire
    layout; the length field decodes the same way whatever follows. *)
Lemma parseFrame_shape (buffer : Buffer) (frame : Frame.t) :
  parseFrame buffer = Ok frame ->
  exists L rem,
    let F := byte_of_Z SOF_MARKER :: L ++ Frame.payload frame in
    buffer = F ++ calculateChecksum F ++ rem
    /\ 1 <= len L <= 3
    /\ (forall rest, decodeLength_loop (L ++ rest) 0 1 0
                     = Ok (len (Frame.payload frame), 1 + len L))
    /\ Frame.totalLength frame = len F + 2.
Proof.
  intros Hparse.
  destruct (parseFrame_inv _ _ Hparse) as (o & Hd & Hsof & H4 & Htot & Hle & Hlt).
  set (p := Frame.payload frame) in *.
  pose proof (len_nonneg p) as Hp0.
  destruct buffer as [|b0 r]; [unfold len in H4; cbn [length] in H4; lia|].
  assert (b0 = byte_of_Z SOF_MARKER) as -> by (cbv in Hsof |- *; congruence).
  unfold decodeLength in Hd. rewrite slice_from_1 in Hd.
  rewrite len_cons in Hle, H4.
  destruct (decodeLength_loop_field _ _ _ _ Hd ltac:(lia))
    as (L & s & -> & HLlen & HL & Hfield).
  (* the payload and the checksum, read off [parseFrame] *)
  revert Hparse. unfold parseFrame.
  destruct (Z.ltb_spec (len (byte_of_Z SOF_MARKER :: L ++ s)) 4) as [|_];
    [discriminate|].
  destruct (bool_decide _); [|discriminate]. cbn [negb].
  unfold decodeLength. rewrite slice_from_1, Hd.
  destruct (Z.ltb_spec (len (byte_of_Z SOF_MARKER :: L ++ s)) (o + len p + 2)) as [|_];
    [discriminate|].
  destruct (equals _ _) eqn:Heq; [|discriminate]. cbn [negb].
  intros Hok. apply bool_decide_eq_true_1 in Heq.
  assert (Hpay : p = slice (byte_of_Z SOF_MARKER :: L ++ s) o (o + len p)).
  { injection Hok as Hf. unfold p at 1. rewrite <- Hf. reflexivity. }
  clear Hok.
  assert (Ho : o = 1 + len L) by lia.
  rewrite len_app in Hle.
  (* split [s] into payload, checksum and remainder *)
  destruct (split_at s (len p) ltac:(lia)) as [Hs1 Hs1len].
  set (p' := slice s 0 (len p)) in *. set (s2 := slice_from s (len p)) in *.
  assert (Hs2len : 2 <= len s2).
  { apply (f_equal len) in Hs1. rewrite len_app in Hs1. lia. }
  destruct (split_at s2 2 ltac:(lia)) as [Hs2 HClen].
  set (C := slice s2 0 2) in *. set (rem := slice_from s2 2) in *.
  assert (Hp' : p = p').
  { rewrite Hpay at 1. rewrite Hs1.
    replace (byte_of_Z SOF_MARKER :: L ++ p' ++ s2)
      with ((byte_of_Z SOF_MARKER :: L) ++ p' ++ s2) by reflexivity.
    rewrite Ho, <- (len_cons (byte_of_Z SOF_MARKER) L).
    apply slice_middle. lia. }
  assert (Hwhole : byte_of_Z SOF_MARKER :: L ++ s
                   = (byte_of_Z SOF_MARKER :: L ++ p) ++ C ++ rem).
  { rewrite Hs1, <- Hp', Hs2. cbn [app]. now rewrite <- !app_assoc. }
  assert (HF : len (byte_of_Z SOF_MARKER :: L ++ p) = o + len p).
  { rewrite len_cons, len_app. lia. }
  rewrite Hwhole in Heq.
  rewrite <- HF in Heq.
  rewrite (slice_middle _ C rem 2) in Heq by (now rewrite HClen).
  rewrite slice_prefix in Heq.
  exists L, rem. cbv zeta. fold p.
  rewrite <- Heq.
  split; [exact Hwhole|].
  split; [lia|].
  split; [intros rest; rewrite Hfield; f_equal; f_equal; lia|].
  rewrite HF. lia.
Qed.

(** X3. Soundness of the frame parser: a buffer that [parseFrame] accepts
    begins with SOF, a length field of one to three bytes that decodes to
    the length of the returned payload, the payload and the checksum of
    all that; [totalLength] is the size of exactly that part, and the
    payload is shorter than 2^21 bytes. *)
Theorem parseFrame_sound (buffer : Buffer) (frame : Frame.t) :
  parseFrame buffer = Ok frame ->
  exists lengthBytes rest,
    let frameWithoutChecksum :=
      [byte_of_Z SOF_MARKER] ++ lengthBytes ++ Frame.payload frame in
    buffer = frameWithoutChecksum ++ calculateChecksum frameWithoutChecksum ++ rest
    /\ 1 <= len lengthBytes <= 3
    /\ decodeLength ([byte_of_Z SOF_MARKER] ++ lengthBytes) 1
       = Ok (len (Frame.payload frame), 1 + len lengthBytes)
    /\ len (Frame.payload frame) < 2 ^ 21
    /\ Frame.totalLength frame = len buffer - len rest.
Proof.
  intros Hparse.
  destruct (parseFrame_shape _ _ Hparse) as (L & rem & Hb & HL & Hdec & Htot).
  destruct (parseFrame_inv _ _ Hparse) as (_ & _ & _ & _ & _ & _ & Hlt).
  exists L, rem. cbv zeta in *. cbn [app].
  split; [exact Hb|].
  split; [exact HL|].
  split.
  { unfold decodeLength. rewrite slice_from_1.
    rewrite <- (app_nil_r L) at 1. apply Hdec. }
  split; [exact Hlt|].
  apply (f_equal len) in Hb. rewrite !len_app, len_calculateChecksum in Hb. lia.
Qed.

Lemma parseFrame_sound_witness :
  parseFrame [xaa; x01; x05; xff; x50] = Ok {| Frame.payload := [x05]; Frame.totalLength := 5 |}
  /\ exists lengthBytes rest,
    let frameWithoutChecksum := [byte_of_Z SOF_MARKER] ++ lengthBytes ++ [x05] in
    [xaa; x01; x05; xff; x50]
    = frameWithoutChecksum ++ calculateChecksum frameWithoutChecksum ++ rest
    /\ 1 <= len lengthBytes <= 3
    /\ decodeLength ([byte_of_Z SOF_MARKER] ++ lengthBytes) 1
       = Ok (len [x05], 1 + len lengthBytes)
    /\ len [x05] < 2 ^ 21
    /\ 5 = len [xaa; x01; x05; xff; x50] - len rest.
Proof.
  assert (H : parseFrame [xaa; x01; x05; xff; x50]
              = Ok {| Frame.payload := [x05]; Frame.totalLength := 5 |})
    by (vm_compute; reflexivity).
  exact (conj H (parseFrame_sound _ _ H)).
Defined.

(** X4. [parseFrame] reads no byte after the frame it returns: the first
    [totalLength] bytes of an accepted buffer, followed by any other
    bytes, give the same result. *)
Theorem parseFrame_ignores_trailing_bytes (buffer tail : Buffer) (frame : Frame.t) :
  parseFrame buffer = Ok frame ->
  parseFrame (slice buffer 0 (Frame.totalLength frame) ++ tail) = Ok frame.
Proof.
  intros Hparse.
  destruct (parseFrame_shape _ _ Hparse) as (L & rem & Hb & HL & Hdec & Htot).
  cbv zeta in *.
  set (F := byte_of_Z SOF_MARKER :: L ++ Frame.payload frame) in *.
  assert (Hsl : slice buffer 0 (Frame.totalLength frame) = F ++ calculateChecksum F).
  { rewrite Hb, Htot, app_assoc.
    replace (len F + 2) with (len (F ++ calculateChecksum F))
      by (rewrite len_app, len_calculateChecksum; lia).
    apply slice_prefix. }
  rewrite Hsl, <- app_assoc.
  unfold F. rewrite parseFrame_layout by (try exact Hdec; lia).
  fold F. rewrite <- Htot. now destruct frame.
Qed.

Lemma parseFrame_ignores_trailing_bytes_witness :
  parseFrame [xaa; x01; x05; xff; x50; x11; x22]
  = Ok {| Frame.payload := [x05]; Frame.totalLength := 5 |}
  /\ parseFrame (slice [xaa; x01; x05; xff; x50; x11; x22] 0 5 ++ [xaa; xff])
     = Ok {| Frame.payload := [x05]; Frame.totalLength := 5 |}.
Proof.
  assert (H : parseFrame [xaa; x01; x05; xff; x50; x11; x22]
              = Ok {| Frame.payload := [x05]; Frame.totalLength := 5 |})
    by (vm_compute; reflexivity).
  exact (conj H (parseFrame_ignores_trailing_bytes _ [xaa; xff] _ H)).
Defined.

Lemma calculateChecksum_inj_mod (a b : Buffer) :
  calculateChecksum a = calculateChecksum b ->
  (sum_bytes a - sum_bytes b) mod 2 ^ 16 = 0.
Proof.
  intros E.
  pose proof (checksumValue_range a) as Ha. pose proof (checksumValue_range b) as Hb.
  rewrite (calculateChecksum_spec a), (calculateChecksum_spec b) in E.
  apply two_bytes_value in E; [|exact Hb].
  assert (0 <= checksumValue a / 256 < 256)
    by (split; [apply Z.div_pos; lia | apply Z.div_lt_upper_bound; lia]).
  pose proof (Z.mod_pos_bound (checksumValue a) 256 ltac:(lia)) as Hm.
  pose proof (Z.div_mod (checksumValue a) 256 ltac:(lia)) as Hdm.
  rewrite !Z_of_byte_of_Z_small in E by lia.
  assert (E' : checksumValue a = checksumValue b) by lia.
  unfold checksumValue in E'.
  replace (sum_bytes a - sum_bytes b) with (- sum_bytes b - - sum_bytes a) by lia.
  rewrite Zminus_mod.
  replace ((- sum_bytes b) mod 2 ^ 16) with ((- sum_bytes a) mod 2 ^ 16)
    by exact E'.
  rewrite Z.sub_diag. reflexivity.
Qed.

Lemma sum_bytes_cons (x : byte) (a : Buffer) :
  sum_bytes (x :: a) = Z_of_byte x + sum_bytes a.
Proof. change (x :: a) with ([x] ++ a). rewrite sum_bytes_app. reflexivity. Qed.

Lemma Z_of_byte_inj (x y : byte) : Z_of_byte x = Z_of_byte y -> x = y.
Proof.
  intros E. rewrite <- (byte_of_Z_of_byte x), <- (byte_of_Z_of_byte y). now f_equal.
Qed.

(** X5. A frame built by [createFrame] in which one payload byte was
    changed afterwards is refused with "Checksum mismatch", whatever
    follows it in the buffer. *)
Theorem parseFrame_detects_changed_payload_byte
  (payload tail : Buffer) (i : nat) (y : byte) :
  len payload <= 2 ^ 21 - 1 ->
  (i < length payload)%nat ->
  payload !! i <> Some y ->
  let position := (1 + length (encodeLength (len payload)) + i)%nat in
  parseFrame (<[position := y]> (createFrame payload) ++ tail)
  = Throw "Checksum mismatch".
Proof.
  intros Hlen Hi Hneq position.
  pose proof (len_nonneg payload) as Hp0.
  set (L := encodeLength (len payload)) in *.
  destruct (lookup_lt_is_Some_2 payload i Hi) as [x Hx].
  assert (Hxy : x <> y) by (intros ->; exact (Hneq Hx)).
  destruct (list_elem_of_split_length payload i x Hx) as (a & b & Hsplit & Hia).
  set (p' := <[i := y]> payload).
  assert (Hp' : p' = a ++ y :: b).
  { unfold p', Buffer. rewrite Hsplit, Hia.
    rewrite insert_app_r_alt by lia. now rewrite Nat.sub_diag. }
  assert (Hlen' : len p' = len payload).
  { unfold p', len, Buffer. now rewrite length_insert. }
  set (C := calculateChecksum (byte_of_Z SOF_MARKER :: L ++ payload)).
  assert (Hfr : <[position := y]> (createFrame payload)
                = (byte_of_Z SOF_MARKER :: L ++ p') ++ C).
  { assert (Hcf : createFrame payload = (byte_of_Z SOF_MARKER :: L) ++ payload ++ C).
    { unfold createFrame. cbv zeta. fold L. cbn [app]. fold C.
      now rewrite <- app_assoc. }
    rewrite Hcf. unfold position, Buffer in *.
    change (1 + length L + i)%nat with (length (byte_of_Z SOF_MARKER :: L) + i)%nat.
    rewrite insert_app_r, insert_app_l by lia.
    cbn [app]. now rewrite <- app_assoc. }
  rewrite Hfr, <- app_assoc.
  pose proof (parseFrame_layout_checked L p' C tail) as Hlay.
  cbv zeta in Hlay. rewrite Hlay; cycle 1.
  { intros rest. rewrite Hlen'. unfold L.
    rewrite decodeLength_encodeLength by lia. reflexivity. }
  { apply encodeLength_nonempty. lia. }
  { reflexivity. }
  unfold equals. rewrite bool_decide_eq_false_2; [reflexivity|].
  unfold C. intros E. apply calculateChecksum_inj_mod in E.
  rewrite !sum_bytes_cons, !sum_bytes_app, Hp', Hsplit in E.
  rewrite !sum_bytes_app, !sum_bytes_cons in E.
  pose proof (Z_of_byte_range x). pose proof (Z_of_byte_range y).
  assert (Z_of_byte x <> Z_of_byte y) by (intros Q; apply Hxy, Z_of_byte_inj, Q).
  match type of E with ?t mod _ = 0 =>
    replace t with (Z_of_byte x - Z_of_byte y) in E by lia end.
  apply Z.mod_divide in E; [|lia].
  destruct E as [k Hk]. lia.
Qed.

Lemma parseFrame_detects_changed_payload_byte_witness :
  len [x05; x06] <= 2 ^ 21 - 1
  /\ (1 < length [x05; x06])%nat
  /\ [x05; x06] !! 1%nat <> Some x07
  /\ parseFrame (<[3%nat := x07]> (createFrame [x05; x06]) ++ [xaa])
     = Throw "Checksum mismatch".
Proof.
  assert (H1 : len [x05; x06] <= 2 ^ 21 - 1) by (vm_compute; discriminate).
  assert (H2 : (1 < length [x05; x06])%nat) by (cbn; lia).
  assert (H3 : [x05; x06] !! 1%nat <> Some x07) by (cbn; discriminate).
  exact (conj H1 (conj H2 (conj H3
    (parseFrame_detects_changed_payload_byte [x05; x06] [xaa] 1 x07 H1 H2 H3)))).
Defined.

(** X6. The size of a frame: payload plus four bytes up to 127 payload
    bytes, plus five up to 16383, plus six up to 2^21 - 1. *)
Theorem createFrame_length (payload : Buffer) :
  len payload < 2 ^ 21 ->
  len (createFrame payload)
  = len payload + (if len payload <? 2 ^ 7 then 4
                   else if len payload <? 2 ^ 14 then 5 else 6).
Proof.
  intros Hp. pose proof (len_nonneg payload) as Hp0.
  unfold createFrame. cbv zeta.
  rewrite len_app, len_calculateChecksum.
  change ([byte_of_Z SOF_MARKER] ++ encodeLength (len payload) ++ payload)
    with (byte_of_Z SOF_MARKER :: encodeLength (len payload) ++ payload).
  rewrite len_cons, len_app.
  destruct (Z.ltb_spec (len payload) (2 ^ 7)).
  { rewrite encodeLength_1 by lia. unfold len at 1. cbn [length]. lia. }
  destruct (Z.ltb_spec (len payload) (2 ^ 14)).
  { rewrite encodeLength_2 by lia. unfold len at 1. cbn [length]. lia. }
  rewrite encodeLength_3 by lia. unfold len at 1. cbn [length]. lia.
Qed.

Lemma createFrame_length_witness :
  len [x05; x06] < 2 ^ 21
  /\ len (createFrame [x05; x06])
     = len [x05; x06] + (if len [x05; x06] <? 2 ^ 7 then 4
                         else if len [x05; x06] <? 2 ^ 14 then 5 else 6).
Proof.
  assert (H1 : len [x05; x06] < 2 ^ 21) by (vm_compute; reflexivity).
  exact (conj H1 (createFrame_length [x05; x06] H1)).
Defined.

End FrameShape.

(** ** More on the crypto service *)

Section Integers.

Lemma div_range (v k n : Z) :
  0 < k -> 0 <= v < k * n -> 0 <= v / k < n.
Proof.
  intros Hk Hv. split; [apply Z.div_pos; lia | apply Z.div_lt_upper_bound; lia].
Qed.

Lemma readUIntBE_acc (bytes : Buffer) (acc : Z) :
  readUIntBE bytes acc = acc * 256 ^ len bytes + readUIntBE bytes 0.
Proof.
  revert acc. induction bytes as [|b bytes IH]; intros acc.
  - cbn [readUIntBE]. change (256 ^ len []) with 1. lia.
  - cbn [readUIntBE]. rewrite IH, (IH (0 * 256 + Z_of_byte b)).
    rewrite len_cons, Z.pow_add_r, Z.pow_1_r by (try lia; apply len_nonneg). lia.
Qed.

Lemma readUIntBE_app (a b : Buffer) (acc : Z) :
  readUIntBE (a ++ b) acc = readUIntBE b (readUIntBE a acc).
Proof.
  revert acc. induction a as [|x a IH]; intros acc; [reflexivity|].
  cbn [app readUIntBE]. apply IH.
Qed.

Lemma readUIntBE_writeUInt32BE (v : Z) :
  0 <= v < 2 ^ 32 -> readUIntBE (writeUInt32BE v) 0 = v.
Proof.
  intros Hv. unfold writeUInt32BE. cbn [readUIntBE]. rewrite !Z_of_byte_of_Z.
  pose proof (Z.div_mod v (2 ^ 8) ltac:(lia)) as H1.
  pose proof (Z.mod_pos_bound v (2 ^ 8) ltac:(lia)) as H1'.
  pose proof (Z.div_mod (v / 2 ^ 8) (2 ^ 8) ltac:(lia)) as H2.
  pose proof (Z.mod_pos_bound (v / 2 ^ 8) (2 ^ 8) ltac:(lia)) as H2'.
  pose proof (Z.div_mod (v / 2 ^ 8 / 2 ^ 8) (2 ^ 8) ltac:(lia)) as H3.
  pose proof (Z.mod_pos_bound (v / 2 ^ 8 / 2 ^ 8) (2 ^ 8) ltac:(lia)) as H3'.
  replace (v / 2 ^ 16) with (v / 2 ^ 8 / 2 ^ 8)
    by (rewrite Z.div_div by lia; reflexivity).
  replace (v / 2 ^ 24) with (v / 2 ^ 8 / 2 ^ 8 / 2 ^ 8)
    by (rewrite !Z.div_div by lia; reflexivity).
  assert (0 <= v / 2 ^ 8 / 2 ^ 8 / 2 ^ 8 < 256).
  { rewrite !Z.div_div by lia. apply div_range; lia. }
  rewrite (Z.mod_small (v / 2 ^ 8 / 2 ^ 8 / 2 ^ 8)) by lia.
  change (2 ^ 8) with 256 in *. lia.
Qed.

Lemma len_writeUInt32BE (v : Z) : len (writeUInt32BE v) = 4.
Proof. reflexivity. Qed.

Lemma len_writeBigUInt64BE (v : Z) : len (writeBigUInt64BE v) = 8.
Proof. reflexivity. Qed.

Lemma writeUInt32BE_mod (v : Z) : writeUInt32BE (v mod 2 ^ 32) = writeUInt32BE v.
Proof.
  unfold writeUInt32BE.
  assert (E : forall k, 0 <= k <= 24 -> byte_of_Z (v mod 2 ^ 32 / 2 ^ k) = byte_of_Z (v / 2 ^ k)).
  { intros k Hk.
    assert (Q : (v mod 2 ^ 32 / 2 ^ k) mod 2 ^ 8 = (v / 2 ^ k) mod 2 ^ 8).
    { rewrite <- !Z.land_ones by lia. apply Z.bits_inj'. intros n Hn.
      rewrite !Z.land_spec, <- !Z.shiftr_div_pow2, !Z.shiftr_spec by lia.
      destruct (Z.ltb_spec n 8).
      - rewrite Z.land_spec, Z.ones_spec_low by lia. now rewrite Bool.andb_true_r.
      - rewrite !Z.ones_spec_high by lia. now rewrite !Bool.andb_false_r. }
    unfold byte_of_Z. change 256 with (2 ^ 8). now rewrite Q. }
  rewrite (E 24), (E 16), (E 8) by lia.
  f_equal. f_equal. f_equal. f_equal.
  specialize (E 0 ltac:(lia)). change (2 ^ 0) with 1 in E. now rewrite !Z.div_1_r in E.
Qed.

Lemma readUIntBE_writeBigUInt64BE (v : Z) :
  0 <= v < 2 ^ 64 -> readUIntBE (writeBigUInt64BE v) 0 = v.
Proof.
  intros Hv. unfold writeBigUInt64BE.
  rewrite readUIntBE_app, readUIntBE_acc, len_writeUInt32BE.
  rewrite readUIntBE_writeUInt32BE by (apply div_range; lia).
  rewrite <- (writeUInt32BE_mod v).
  rewrite readUIntBE_writeUInt32BE by (apply Z.mod_pos_bound; lia).
  pose proof (Z.div_mod v (2 ^ 32) ltac:(lia)). change (256 ^ 4) with (2 ^ 32). lia.
Qed.

(** The field of [n] bytes at offset [len a]. *)
Lemma slice_field (a w rest : Buffer) (offset n : Z) :
  offset = len a -> n = len w ->
  slice (a ++ w ++ rest) offset (offset + n) = w.
Proof. intros -> ->. now apply slice_middle. Qed.

Lemma readUInt32BE_field (a rest : Buffer) (v offset : Z) :
  offset = len a -> 0 <= v < 2 ^ 32 ->
  readUInt32BE (a ++ writeUInt32BE v ++ rest) offset = v.
Proof.
  intros Ho Hv. unfold readUInt32BE.
  rewrite (slice_field a (writeUInt32BE v) rest) by (try exact Ho; reflexivity).
  now apply readUIntBE_writeUInt32BE.
Qed.

Lemma readBigUInt64BE_field (a rest : Buffer) (v offset : Z) :
  offset = len a -> 0 <= v < 2 ^ 64 ->
  readBigUInt64BE (a ++ writeBigUInt64BE v ++ rest) offset = v.
Proof.
  intros Ho Hv. unfold readBigUInt64BE.
  rewrite (slice_field a (writeBigUInt64BE v) rest) by (try exact Ho; reflexivity).
  now apply readUIntBE_writeBigUInt64BE.
Qed.

Lemma readUInt32BE_writeUInt32BE (v : Z) (rest : Buffer) :
  0 <= v < 2 ^ 32 -> readUInt32BE (writeUInt32BE v ++ rest) 0 = v.
Proof. intros Hv. now apply (readUInt32BE_field [] rest v 0). Qed.

(** Four bytes are the big-endian writing of the number they read as. *)
Lemma writeUInt32BE_readUIntBE (b0 b1 b2 b3 : byte) :
  writeUInt32BE (readUIntBE [b0; b1; b2; b3] 0) = [b0; b1; b2; b3].
Proof.
  pose proof (Z_of_byte_range b0). pose proof (Z_of_byte_range b1).
  pose proof (Z_of_byte_range b2). pose proof (Z_of_byte_range b3).
  cbn [readUIntBE]. unfold writeUInt32BE.
  set (v := (((0 * 256 + Z_of_byte b0) * 256 + Z_of_byte b1) * 256 + Z_of_byte b2) * 256
            + Z_of_byte b3).
  assert (E3 : v mod 256 = Z_of_byte b3).
  { unfold v. rewrite Z.add_comm, Z.mod_add by lia. apply Z.mod_small; lia. }
  assert (D1 : v / 2 ^ 8 = ((0 * 256 + Z_of_byte b0) * 256 + Z_of_byte b1) * 256 + Z_of_byte b2).
  { unfold v. change (2 ^ 8) with 256. rewrite Z.add_comm, Z.div_add by lia.
    rewrite Z.div_small by lia. lia. }
  assert (D2 : v / 2 ^ 16 = (0 * 256 + Z_of_byte b0) * 256 + Z_of_byte b1).
  { change (2 ^ 16) with (2 ^ 8 * 2 ^ 8). rewrite <- Z.div_div, D1 by lia.
    change (2 ^ 8) with 256. rewrite Z.add_comm, Z.div_add by lia.
    rewrite Z.div_small by lia. lia. }
  assert (D3 : v / 2 ^ 24 = Z_of_byte b0).
  { change (2 ^ 24) with (2 ^ 16 * 2 ^ 8). rewrite <- Z.div_div, D2 by lia.
    change (2 ^ 8) with 256. rewrite Z.add_comm, Z.div_add by lia.
    rewrite Z.div_small by lia. lia. }
  rewrite D1, D2, D3.
  assert (B : forall x, byte_of_Z x = byte_of_Z (x mod 256)).
  { intros x. unfold byte_of_Z. now rewrite Z.mod_mod by lia. }
  rewrite (B v), E3.
  rewrite (B (_ + Z_of_byte b2)), (B (_ + Z_of_byte b1)).
  rewrite (Z.add_comm _ (Z_of_byte b2)), (Z.add_comm _ (Z_of_byte b1)).
  rewrite !Z.mod_add by lia.
  rewrite !(Z.mod_small (Z_of_byte _)) by lia.
  now rewrite !byte_of_Z_of_byte.
Qed.

End Integers.

Section Mac.

Import CryptoService.

Lemma calculateHash_range (payload : Buffer) : 0 <= calculateHash payload < 2 ^ 32.
Proof.
  unfold calculateHash.
  assert (G : forall h, 0 <= h < 2 ^ 32 ->
            0 <= fold_left (fun hash b => JS.ushr0 (31 * hash + Z_of_byte b)) payload h
            < 2 ^ 32).
  { induction payload as [|b payload IH]; intros h Hh; cbn [fold_left]; [exact Hh|].
    apply IH. unfold JS.ushr0, JS.toUint32. apply Z.mod_pos_bound. lia. }
  apply G. lia.
Qed.

Lemma lxor_mod_pow2 (a b n : Z) :
  0 <= n -> Z.lxor a b mod 2 ^ n = Z.lxor (a mod 2 ^ n) (b mod 2 ^ n).
Proof.
  intros Hn. rewrite <- !Z.land_ones by lia. apply Z.bits_inj'. intros k Hk.
  rewrite !Z.lxor_spec, !Z.land_spec, !Z.lxor_spec.
  destruct (Z.testbit (Z.ones n) k); now rewrite ?Bool.andb_true_r, ?Bool.andb_false_r.
Qed.

(** The MAC is the hash of the payload XOR the key, on 32 bits. *)
Lemma calculateMAC_spec (key : Z) (payload : Buffer) :
  calculateMAC key payload = Z.lxor (calculateHash payload) (key mod 2 ^ 32).
Proof.
  unfold calculateMAC, JS.ushr0, JS.toUint32, JS.xor. cbv zeta.
  rewrite lxor_mod_pow2, !toInt32_cong by lia.
  f_equal. apply Z.mod_small, calculateHash_range.
Qed.

Lemma calculateMAC_range (key : Z) (payload : Buffer) :
  0 <= calculateMAC key payload < 2 ^ 32.
Proof.
  unfold calculateMAC, JS.ushr0, JS.toUint32. apply Z.mod_pos_bound. lia.
Qed.

End Mac.

Section CryptoProperties.

Import CryptoService.

(** X7. [modularExponentiation] computes [base ^ exponent mod modulus] for
    a modulus from 2 to 2^53 and a base and exponent that are not
    negative; up to that modulus the final [Number(result)] rounds
    nothing. *)
Theorem modularExponentiation_computes_power (base exponent modulus : Z) :
  1 < modulus <= 2 ^ 53 -> 0 <= base -> 0 <= exponent ->
  modularExponentiation base exponent modulus = base ^ exponent mod modulus
  /\ 0 <= modularExponentiation base exponent modulus < modulus.
Proof.
  intros Hm Hb He. rewrite modularExponentiation_spec by assumption.
  split; [reflexivity|]. apply Z.mod_pos_bound. lia.
Qed.

Lemma modularExponentiation_computes_power_witness :
  1 < 2 ^ 53 <= 2 ^ 53 /\ 0 <= 3 /\ 0 <= 37
  /\ modularExponentiation 3 37 (2 ^ 53) = 3 ^ 37 mod 2 ^ 53
  /\ 0 <= modularExponentiation 3 37 (2 ^ 53) < 2 ^ 53.
Proof.
  assert (H1 : 1 < 2 ^ 53 <= 2 ^ 53) by lia. assert (H2 : 0 <= 3) by lia.
  assert (H3 : 0 <= 37) by lia.
  exact (conj H1 (conj H2 (conj H3
    (modularExponentiation_computes_power 3 37 (2 ^ 53) H1 H2 H3)))).
Defined.

(** X8. The MAC gives its key away: the MAC of a payload, used as the key
    over the same payload, is the original 32-bit key. *)
Theorem calculateMAC_reveals_key (key : Z) (payload : Buffer) :
  0 <= key < 2 ^ 32 ->
  calculateMAC (calculateMAC key payload) payload = key.
Proof.
  intros Hk.
  pose proof (calculateMAC_range key payload) as Hr.
  rewrite (calculateMAC_spec (calculateMAC key payload)).
  rewrite (Z.mod_small (calculateMAC key payload)) by exact Hr.
  rewrite calculateMAC_spec, (Z.mod_small key) by exact Hk.
  rewrite <- Z.lxor_assoc, Z.lxor_nilpotent, Z.lxor_0_l. reflexivity.
Qed.

Lemma calculateMAC_reveals_key_witness :
  0 <= PSK < 2 ^ 32
  /\ calculateMAC (calculateMAC PSK [x01; x02; x03]) [x01; x02; x03] = PSK.
Proof.
  assert (H : 0 <= PSK < 2 ^ 32) by (unfold PSK; lia).
  exact (conj H (calculateMAC_reveals_key PSK [x01; x02; x03] H)).
Defined.

(** X9. [verifyAuthenticatedHMAC] accepts a four-byte HMAC field exactly
    when it is the one [createAuthenticatedHMAC] builds for the same
    secret and payload. *)
Theorem verifyAuthenticatedHMAC_iff (sharedSecret : Z) (payload receivedHMAC : Buffer) :
  len receivedHMAC = 4 ->
  (verifyAuthenticatedHMAC sharedSecret payload receivedHMAC = true
   <-> receivedHMAC = createAuthenticatedHMAC sharedSecret payload).
Proof.
  intros Hlen.
  destruct receivedHMAC as [|b0 [|b1 [|b2 [|b3 [|b4 r]]]]];
    try (unfold len in Hlen; cbn [length] in Hlen; lia).
  unfold verifyAuthenticatedHMAC, createAuthenticatedHMAC, calculateHMAC. cbv zeta.
  pose proof (calculateMAC_range sharedSecret payload) as Hr.
  change (readUInt32BE [b0; b1; b2; b3] 0) with (readUIntBE [b0; b1; b2; b3] 0).
  rewrite Z.eqb_eq. split.
  - intros ->. symmetry. apply writeUInt32BE_readUIntBE.
  - intros ->. symmetry. apply readUIntBE_writeUInt32BE, Hr.
Qed.

Lemma verifyAuthenticatedHMAC_iff_witness :
  len [x00; x00; x00; x00] = 4
  /\ (verifyAuthenticatedHMAC 7 [x01] [x00; x00; x00; x00] = true
      <-> [x00; x00; x00; x00] = createAuthenticatedHMAC 7 [x01]).
Proof.
  split; [reflexivity|].
  apply verifyAuthenticatedHMAC_iff. reflexivity.
Defined.

Lemma parseHelloPayload_create (clientPublicKey : Z) (rest : Buffer) :
  0 <= clientPublicKey < 2 ^ 32 ->
  parseHelloPayload (createHelloPayload clientPublicKey ++ rest) = Ok clientPublicKey.
Proof.
  intros HA. pose proof (len_nonneg rest) as Hrest.
  unfold parseHelloPayload, createHelloPayload.
  rewrite len_app, len_writeUInt32BE.
  destruct (Z.ltb_spec (4 + len rest) 4); [lia|].
  now rewrite readUInt32BE_writeUInt32BE.
Qed.

Lemma parseChallengePayload_create (serverPublicKey nonce authS : Z) (rest : Buffer) :
  0 <= serverPublicKey < 2 ^ 32 ->
  0 <= nonce < 2 ^ 64 ->
  0 <= authS < 2 ^ 32 ->
  parseChallengePayload (createChallengePayload serverPublicKey nonce authS ++ rest)
  = Ok {| Challenge.serverPublicKey := serverPublicKey;
          Challenge.nonce := nonce;
          Challenge.authS := authS |}.
Proof.
  intros HB HN HS. pose proof (len_nonneg rest) as Hrest.
  unfold parseChallengePayload, createChallengePayload.
  rewrite !len_app, !len_writeUInt32BE, len_writeBigUInt64BE.
  destruct (Z.ltb_spec (4 + (8 + 4) + len rest) 16); [lia|].
  rewrite <- !app_assoc.
  rewrite readUInt32BE_writeUInt32BE by exact HB.
  rewrite (readBigUInt64BE_field (writeUInt32BE serverPublicKey))
    by (try exact HN; reflexivity).
  rewrite (app_assoc (writeUInt32BE serverPublicKey)).
  rewrite (readUInt32BE_field (writeUInt32BE serverPublicKey ++ writeBigUInt64BE nonce))
    by (try exact HS; reflexivity).
  reflexivity.
Qed.

Lemma parseClientAuthPayload_create (authC : Z) (rest : Buffer) :
  0 <= authC < 2 ^ 32 ->
  parseClientAuthPayload (createClientAuthPayload authC ++ rest) = Ok authC.
Proof.
  intros HC. pose proof (len_nonneg rest) as Hrest.
  unfold parseClientAuthPayload, createClientAuthPayload.
  rewrite len_app, len_writeUInt32BE.
  destruct (Z.ltb_spec (4 + len rest) 4); [lia|].
  now rewrite readUInt32BE_writeUInt32BE.
Qed.

(** X10. The payloads of the three handshake messages survive writing and
    parsing, with any bytes after them: the public key of HELLO, the
    three fields of CHALLENGE and the MAC of CLIENT_AUTH. *)
Theorem handshake_payloads_round_trip
  (clientPublicKey serverPublicKey nonce authS authC : Z) (rest : Buffer) :
  0 <= clientPublicKey < 2 ^ 32 ->
  0 <= serverPublicKey < 2 ^ 32 ->
  0 <= nonce < 2 ^ 64 ->
  0 <= authS < 2 ^ 32 ->
  0 <= authC < 2 ^ 32 ->
  parseHelloPayload (createHelloPayload clientPublicKey ++ rest) = Ok clientPublicKey
  /\ parseChallengePayload (createChallengePayload serverPublicKey nonce authS ++ rest)
     = Ok {| Challenge.serverPublicKey := serverPublicKey;
             Challenge.nonce := nonce;
             Challenge.authS := authS |}
  /\ parseClientAuthPayload (createClientAuthPayload authC ++ rest) = Ok authC.
Proof.
  intros HA HB HN HS HC.
  split; [now apply parseHelloPayload_create|].
  split; [now apply parseChallengePayload_create|].
  now apply parseClientAuthPayload_create.
Qed.

Lemma handshake_payloads_round_trip_witness :
  parseHelloPayload (createHelloPayload 906815736 ++ [xff]) = Ok 906815736
  /\ parseChallengePayload (createChallengePayload 124418418 0x0102030405060708 5 ++ [xff])
     = Ok {| Challenge.serverPublicKey := 124418418;
             Challenge.nonce := 0x0102030405060708;
             Challenge.authS := 5 |}
  /\ parseClientAuthPayload (createClientAuthPayload 77 ++ [xff]) = Ok 77.
Proof.
  apply handshake_payloads_round_trip; lia.
Defined.

End CryptoProperties.

(** ** The receive buffer and the handlers *)

Section Stream.

Import ProtocolService TCPService Observed.

Lemma withBuffer_lookup st connectionId c buffer :
  connections (withBuffer st connectionId c buffer) !! connectionId
  = Some (ConnectionInfo.set_buffer c buffer).
Proof. apply lookup_insert_eq. Qed.

Lemma withBuffer_withBuffer st connectionId c c' b b' :
  withBuffer (withBuffer st connectionId c b) connectionId c' b'
  = withBuffer st connectionId c' b'.
Proof.
  unfold withBuffer. cbn [connections entropy drawn]. now rewrite insert_insert_eq.
Qed.

Lemma withBuffer_id st connectionId c :
  connections st !! connectionId = Some c ->
  withBuffer st connectionId c (ConnectionInfo.buffer c) = st.
Proof.
  intros H. unfold withBuffer.
  replace (ConnectionInfo.set_buffer c (ConnectionInfo.buffer c)) with c
    by now destruct c.
  rewrite insert_id by exact H. now destruct st.
Qed.

(** The handlers do not look at the receive buffer: with another buffer
    in the connection record they do the same, and leave that buffer. *)
Lemma processFrame_withBuffer st connectionId c payload b :
  connections st !! connectionId = Some c ->
  exists c' st' events,
    processFrame connectionId payload st = (tt, st', events)
    /\ connections st' !! connectionId = Some c'
    /\ ConnectionInfo.buffer c' = ConnectionInfo.buffer c
    /\ processFrame connectionId payload (withBuffer st connectionId c b)
       = (tt, withBuffer st' connectionId c' b, events).
Proof.
  intros H.
  pose proof (withBuffer_lookup st connectionId c b) as H1.
  set (st1 := withBuffer st connectionId c b) in *.
  set (c1 := ConnectionInfo.set_buffer c b) in *.
  assert (Hkeep : forall events : list Event,
            exists c' st' events',
              (tt, st, events) = (tt, st', events')
              /\ connections st' !! connectionId = Some c'
              /\ ConnectionInfo.buffer c' = ConnectionInfo.buffer c
              /\ (tt, st1, events) = (tt, withBuffer st' connectionId c' b, events')).
  { intros events. exists c, st, events. repeat split; assumption || reflexivity. }
  unfold processFrame.
  rewrite (withConnection_some _ _ _ _ H), (withConnection_some _ _ _ _ H1).
  destruct (parseSessionMessage payload) as [sessionMsg|message]; [|apply Hkeep].
  cbv zeta.
  destruct (_ =? HELLO).
  { unfold handleHello.
    rewrite (withConnection_some _ _ _ _ H), (withConnection_some _ _ _ _ H1).
    destruct (CryptoService.parseHelloPayload _) as [clientPublicKey|message];
      [|apply Hkeep].
    unfold bind, draw, setConnection, emit, logCommunication.
    cbv beta iota zeta. cbn [connections entropy drawn st1 withBuffer].
    eexists _, _, _. split; [reflexivity|].
    split; [cbn [connections]; apply lookup_insert_eq|].
    split; [reflexivity|].
    unfold withBuffer. cbn [connections entropy drawn].
    rewrite !insert_insert_eq. reflexivity. }
  destruct (_ =? CLIENT_AUTH).
  { unfold handleClientAuth.
    rewrite (withConnection_some _ _ _ _ H), (withConnection_some _ _ _ _ H1).
    cbv zeta.
    destruct (CryptoService.parseClientAuthPayload _) as [authC|message];
      [|apply Hkeep].
    change (ConnectionInfo.authState c1) with (ConnectionInfo.authState c).
    destruct (ConnectionInfo.authState c) as [authState|]; [|apply Hkeep].
    destruct (CryptoService.verifyAuth _ _ _ _ _); [|apply Hkeep].
    unfold bind, setConnection, emit, logCommunication.
    cbv beta iota zeta. cbn [connections entropy drawn st1 withBuffer].
    eexists _, _, _. split; [reflexivity|].
    split; [cbn [connections]; apply lookup_insert_eq|].
    split; [reflexivity|].
    unfold withBuffer. cbn [connections entropy drawn].
    rewrite !insert_insert_eq. reflexivity. }
  destruct (_ =? REGULAR).
  { unfold handleRegularMessage.
    rewrite (withConnection_some _ _ _ _ H), (withConnection_some _ _ _ _ H1).
    change (ConnectionInfo.authenticated c1) with (ConnectionInfo.authenticated c).
    destruct (negb (ConnectionInfo.authenticated c) && _); [apply Hkeep|].
    cbv zeta.
    destruct (parsePresentationMessage _) as [presentationMsg|message];
      [|apply Hkeep].
    destruct (parseCommand _) as [command|message]; [|apply Hkeep].
    rewrite (handleCommand_unfold _ _ _ _ _ H), (handleCommand_unfold _ _ _ _ _ H1).
    cbv zeta.
    destruct (_ =? HEARTBEAT).
    { rewrite (handleHeartbeat_run _ _ _ _ _ H), (handleHeartbeat_run _ _ _ _ _ H1).
      apply Hkeep. }
    destruct (_ =? CONTROL_DEVICE).
    { destruct (Z_lt_dec (len (Command.payload command)) 1) as [Hl|Hl].
      - rewrite (handleControlDevice_empty _ _ _ _ _ H Hl),
          (handleControlDevice_empty _ _ _ _ _ H1 Hl).
        rewrite (sendErrorResponse_run _ _ _ _ _ H), (sendErrorResponse_run _ _ _ _ _ H1).
        apply Hkeep.
      - assert (Hl' : 1 <= len (Command.payload command)) by lia.
        rewrite (handleControlDevice_run _ _ _ _ _ H Hl'),
          (handleControlDevice_run _ _ _ _ _ H1 Hl').
        apply Hkeep. }
    destruct (_ =? ACK_ERROR).
    { rewrite (handleAckError_run _ _ _ _ H), (handleAckError_run _ _ _ _ H1).
      apply Hkeep. }
    destruct (_ =? RESET_BLADE_TIME).
    { rewrite (handleResetBladeTime_run _ _ _ _ H), (handleResetBladeTime_run _ _ _ _ H1).
      apply Hkeep. }
    apply Hkeep. }
  destruct (_ =? NOTIFICATION).
  { unfold handleNotification.
    rewrite (withConnection_some _ _ _ _ H), (withConnection_some _ _ _ _ H1).
    cbv zeta.
    destruct (len (SessionMessage.payload sessionMsg) <? 1); [apply Hkeep|].
    destruct (_ =? DEVICE_STATUS).
    { unfold handleDeviceStatusNotification.
      rewrite (withConnection_some _ _ _ _ H), (withConnection_some _ _ _ _ H1).
      destruct (len _ <? 6); [apply Hkeep|].
      unfold bind, storeTelemetryData, emit, logCommunication, ret.
      cbv beta iota zeta.
      destruct (bool_decide _); apply Hkeep. }
    destruct (_ =? POSITION_UPDATE).
    { unfold handlePositionUpdateNotification.
      rewrite (withConnection_some _ _ _ _ H), (withConnection_some _ _ _ _ H1).
      destruct (len _ <? 12); [apply Hkeep|].
      unfold bind, storeGPSData, emit. cbv beta iota zeta. apply Hkeep. }
    apply Hkeep. }
  apply Hkeep.
Qed.

Lemma createFrame_len_ge_4 (p : Buffer) : 4 <= len (createFrame p).
Proof.
  unfold createFrame. cbv zeta.
  rewrite len_app, len_calculateChecksum.
  change ([byte_of_Z SOF_MARKER] ++ encodeLength (len p) ++ p)
    with (byte_of_Z SOF_MARKER :: encodeLength (len p) ++ p).
  rewrite len_cons, len_app.
  pose proof (encodeLength_nonempty (len p) (len_nonneg p)).
  pose proof (len_nonneg p). lia.
Qed.

(** One turn of the loop of [handleData] on a buffer that starts with a
    whole frame. *)
Lemma handleData_loop_frame (fuel : nat) st connectionId c frameResult :
  connections st !! connectionId = Some c ->
  parseFrame (ConnectionInfo.buffer c) = Ok frameResult ->
  (length (ConnectionInfo.buffer c) <= fuel)%nat ->
  handleData_loop fuel connectionId st
  = (processFrame connectionId (Frame.payload frameResult) ;;;
     handleData_loop (length (slice_from (ConnectionInfo.buffer c)
                                (Frame.totalLength frameResult))) connectionId)
      (withBuffer st connectionId c
         (slice_from (ConnectionInfo.buffer c) (Frame.totalLength frameResult))).
Proof.
  intros H Hp Hfuel.
  pose proof (parseFrame_inv _ _ Hp) as (o & Hd & _ & H4 & Htot & Hle & _).
  unfold decodeLength in Hd. apply decodeLength_loop_bound in Hd as [_ Ho].
  pose proof (len_nonneg (Frame.payload frameResult)) as Hp0.
  destruct fuel as [|fuel]; [unfold len in H4; lia|].
  cbn [handleData_loop]. rewrite (withConnection_some _ _ _ _ H). cbv zeta.
  destruct (Z.gtb_spec (len (ConnectionInfo.buffer c)) 0); [|lia].
  rewrite Hp.
  set (rest := slice_from (ConnectionInfo.buffer c) (Frame.totalLength frameResult)).
  unfold bind at 1. unfold setConnection at 1.
  fold (withBuffer st connectionId c rest).
  set (st1 := withBuffer st connectionId c rest).
  pose proof (withBuffer_lookup st connectionId c rest) as H1. fold st1 in H1.
  destruct (processFrame_keeps_buffer st1 connectionId _
              (Frame.payload frameResult) H1) as (c2 & H2 & Hb2).
  unfold bind.
  destruct (processFrame connectionId (Frame.payload frameResult) st1)
    as [[u st2] e2].
  cbn [fst snd] in H2.
  cbn [ConnectionInfo.buffer ConnectionInfo.set_buffer] in Hb2.
  assert (Hlen : (length rest <= fuel)%nat).
  { unfold rest, slice_from. rewrite length_drop. unfold len in *. lia. }
  rewrite (handleData_loop_enough_fuel connectionId fuel st2 c2 H2) by now rewrite Hb2.
  rewrite Hb2. destruct (handleData_loop _ _ _) as [[u' s'] e']. reflexivity.
Qed.

(** [handleData] is its loop on the buffer with the new bytes. *)
Lemma handleData_unfold st connectionId c data :
  connections st !! connectionId = Some c ->
  handleData connectionId data st
  = handleData_loop (length (ConnectionInfo.buffer c ++ data)) connectionId
      (withBuffer st connectionId c (ConnectionInfo.buffer c ++ data)).
Proof.
  intros H. unfold handleData. rewrite (withConnection_some _ _ _ _ H). cbv zeta.
  unfold bind at 1. unfold setConnection at 1.
  fold (withBuffer st connectionId c (ConnectionInfo.buffer c ++ data)).
  destruct (handleData_loop _ _ _) as [[u s] e]. reflexivity.
Qed.

(** A chunk that starts with a whole frame, on an empty receive buffer. *)
Lemma handleData_createFrame_app st connectionId c payload rest :
  connections st !! connectionId = Some c ->
  ConnectionInfo.buffer c = [] ->
  len payload <= 2 ^ 21 - 1 ->
  handleData connectionId (createFrame payload ++ rest) st
  = (processFrame connectionId payload ;;; handleData connectionId rest) st.
Proof.
  intros H Hbuf Hlen.
  rewrite (handleData_unfold _ _ _ _ H), Hbuf. cbn [app].
  set (data := createFrame payload ++ rest).
  pose proof (withBuffer_lookup st connectionId c data) as H1.
  set (st1 := withBuffer st connectionId c data) in *.
  pose proof (parseFrame_createFrame_app payload rest Hlen) as Hp. fold data in Hp.
  rewrite (handleData_loop_frame _ st1 connectionId _ _ H1 Hp) by reflexivity.
  cbn [ConnectionInfo.buffer ConnectionInfo.set_buffer Frame.payload Frame.totalLength].
  replace (slice_from data (len (createFrame payload))) with rest
    by (unfold data; now rewrite slice_from_app).
  unfold st1. rewrite withBuffer_withBuffer.
  change (withBuffer st connectionId (ConnectionInfo.set_buffer c data) rest)
    with (withBuffer st connectionId c rest).
  destruct (processFrame_withBuffer st connectionId c payload rest H)
    as (c' & st' & events & Hrun & H' & Hb' & Hrun').
  unfold bind. rewrite Hrun, Hrun'.
  rewrite (handleData_unfold _ _ _ _ H'), Hb', Hbuf. cbn [app].
  reflexivity.
Qed.

(** Nothing received, nothing done. *)
Lemma handleData_nil st connectionId c :
  connections st !! connectionId = Some c ->
  ConnectionInfo.buffer c = [] ->
  handleData connectionId [] st = (tt, st, []).
Proof.
  intros H Hbuf. rewrite (handleData_unfold _ _ _ _ H), Hbuf. cbn [app length].
  cbn [handleData_loop]. unfold ret. f_equal. f_equal.
  rewrite <- Hbuf. now apply withBuffer_id.
Qed.

(** One whole frame on an empty receive buffer. *)
Lemma handleData_createFrame st connectionId c payload :
  connections st !! connectionId = Some c ->
  ConnectionInfo.buffer c = [] ->
  len payload <= 2 ^ 21 - 1 ->
  handleData connectionId (createFrame payload) st
  = processFrame connectionId payload st.
Proof.
  intros H Hbuf Hlen.
  rewrite <- (app_nil_r (createFrame payload)).
  rewrite (handleData_createFrame_app _ _ _ _ _ H Hbuf Hlen).
  destruct (processFrame_keeps_buffer st connectionId c payload H) as (c' & H' & Hb').
  unfold bind.
  destruct (processFrame connectionId payload st) as [[[] st'] events].
  cbn [fst snd] in H'.
  rewrite (handleData_nil _ _ _ H') by congruence.
  now rewrite app_nil_r.
Qed.

(** X11. A chunk that starts with a whole frame: on an empty receive
    buffer [handleData] does what [processFrame] does for the payload of
    that frame and then what [handleData] does for the rest of the
    chunk. *)
Theorem handleData_frame_then_rest st connectionId c payload rest :
  connections st !! connectionId = Some c ->
  ConnectionInfo.buffer c = [] ->
  len payload <= 2 ^ 21 - 1 ->
  handleData connectionId (createFrame payload ++ rest) st
  = (processFrame connectionId payload ;;; handleData connectionId rest) st.
Proof. apply handleData_createFrame_app. Qed.

Lemma handleData_frame_then_rest_witness :
  connections (Sample.service Sample.fresh) !! 1 = Some Sample.fresh
  /\ ConnectionInfo.buffer Sample.fresh = []
  /\ len Sample.bypassEcho <= 2 ^ 21 - 1
  /\ handleData 1 (createFrame Sample.bypassEcho ++ [xaa; x01])
       (Sample.service Sample.fresh)
     = (processFrame 1 Sample.bypassEcho ;;; handleData 1 [xaa; x01])
         (Sample.service Sample.fresh).
Proof.
  assert (H1 : connections (Sample.service Sample.fresh) !! 1 = Some Sample.fresh)
    by reflexivity.
  assert (H2 : ConnectionInfo.buffer Sample.fresh = []) by reflexivity.
  assert (H3 : len Sample.bypassEcho <= 2 ^ 21 - 1) by (vm_compute; discriminate).
  exact (conj H1 (conj H2 (conj H3
    (handleData_frame_then_rest _ 1 _ Sample.bypassEcho [xaa; x01] H1 H2 H3)))).
Defined.

(** X12. A frame that arrives in two pieces: when the bytes received so
    far are an incomplete frame, delivering the next bytes afterwards
    gives what one delivery of all of them gives. *)
Theorem handleData_split_delivery st connectionId c first second :
  connections st !! connectionId = Some c ->
  parseFrame (ConnectionInfo.buffer c ++ first) = Throw "Incomplete frame" ->
  (handleData connectionId first ;;; handleData connectionId second) st
  = handleData connectionId (first ++ second) st.
Proof.
  intros H Hp.
  unfold bind. rewrite (handleData_waits _ _ _ _ H Hp).
  pose proof (withBuffer_lookup st connectionId c (ConnectionInfo.buffer c ++ first))
    as H1.
  rewrite (handleData_unfold _ _ _ _ H1), (handleData_unfold _ _ _ _ H).
  cbn [ConnectionInfo.buffer ConnectionInfo.set_buffer].
  rewrite withBuffer_withBuffer, <- app_assoc.
  change (withBuffer st connectionId (ConnectionInfo.set_buffer c _) ?b)
    with (withBuffer st connectionId c b).
  destruct (handleData_loop _ _ _) as [[u s] e]. reflexivity.
Qed.

Lemma handleData_split_delivery_witness :
  connections (Sample.service Sample.fresh) !! 1 = Some Sample.fresh
  /\ parseFrame (ConnectionInfo.buffer Sample.fresh ++ [xaa; x02; x00; x00])
     = Throw "Incomplete frame"
  /\ (handleData 1 [xaa; x02; x00; x00] ;;; handleData 1 [xff; x54])
       (Sample.service Sample.fresh)
     = handleData 1 ([xaa; x02; x00; x00] ++ [xff; x54]) (Sample.service Sample.fresh).
Proof.
  assert (H1 : connections (Sample.service Sample.fresh) !! 1 = Some Sample.fresh)
    by reflexivity.
  assert (H2 : parseFrame (ConnectionInfo.buffer Sample.fresh ++ [xaa; x02; x00; x00])
               = Throw "Incomplete frame") by (vm_compute; reflexivity).
  exact (conj H1 (conj H2
    (handleData_split_delivery _ 1 _ [xaa; x02; x00; x00] [xff; x54] H1 H2))).
Defined.

Lemma handleData_resets_exact st connectionId c data message :
  connections st !! connectionId = Some c ->
  ConnectionInfo.buffer c = [] ->
  0 < len data ->
  parseFrame data = Throw message ->
  message <> "Incomplete frame" ->
  handleData connectionId data st
  = (tt, st,
     [InsertCommunicationLog (lawnmowerId c) "Error" "Invalid_Frame"
        (Text ("Broken frame: " +:+ message +:+ ". Data: " +:+ toHex data))]).
Proof.
  intros H Hbuf Hpos Hp Hne.
  rewrite (handleData_unfold _ _ _ _ H), Hbuf. cbn [app].
  pose proof (withBuffer_lookup st connectionId c data) as H1.
  destruct (length data) as [|fuel] eqn:Hl; [unfold len in Hpos; lia|].
  cbn [handleData_loop]. rewrite (withConnection_some _ _ _ _ H1).
  cbv zeta. cbn [ConnectionInfo.buffer ConnectionInfo.set_buffer].
  destruct (Z.gtb_spec (len data) 0); [|lia].
  rewrite Hp, bool_decide_eq_false_2 by exact Hne.
  unfold bind, logCommunication, emit, setConnection. cbv beta iota zeta.
  cbn [app]. f_equal. f_equal.
  change (mkState _ _ _)
    with (withBuffer (withBuffer st connectionId c data) connectionId
            (ConnectionInfo.set_buffer c data) []).
  rewrite withBuffer_withBuffer.
  change (withBuffer st connectionId (ConnectionInfo.set_buffer c data) [])
    with (withBuffer st connectionId c []).
  rewrite <- Hbuf. now apply withBuffer_id.
Qed.

(** X13. The loop never looks for the next SOF: on an empty receive
    buffer, a chunk whose first byte is not the SOF marker is thrown away
    whole, with any frame that follows in it; the only effect is the
    Invalid_Frame row. *)
Theorem handleData_does_not_resynchronise st connectionId c first junk payload :
  connections st !! connectionId = Some c ->
  ConnectionInfo.buffer c = [] ->
  first <> byte_of_Z SOF_MARKER ->
  let data := first :: junk ++ createFrame payload in
  handleData connectionId data st
  = (tt, st,
     [InsertCommunicationLog (lawnmowerId c) "Error" "Invalid_Frame"
        (Text ("Broken frame: Invalid SOF marker. Data: " +:+ toHex data))]).
Proof.
  intros H Hbuf Hfirst data.
  assert (Hlen : 4 < len data).
  { unfold data. rewrite len_cons, len_app.
    pose proof (createFrame_len_ge_4 payload). pose proof (len_nonneg junk). lia. }
  apply (handleData_resets_exact _ _ _ _ "Invalid SOF marker" H Hbuf);
    [lia| |discriminate].
  unfold parseFrame.
  destruct (Z.ltb_spec (len data) 4); [lia|].
  rewrite bool_decide_eq_false_2; [reflexivity|].
  unfold data. cbv [at_index Z.ltb Z.compare Z.to_nat]. cbn [lookup list_lookup].
  congruence.
Qed.

Lemma handleData_does_not_resynchronise_witness :
  connections (Sample.service Sample.fresh) !! 1 = Some Sample.fresh
  /\ ConnectionInfo.buffer Sample.fresh = []
  /\ x00 <> byte_of_Z SOF_MARKER
  /\ handleData 1 (x00 :: [] ++ createFrame Sample.bypassEcho)
       (Sample.service Sample.fresh)
     = (tt, Sample.service Sample.fresh,
        [InsertCommunicationLog (lawnmowerId Sample.fresh) "Error" "Invalid_Frame"
           (Text ("Broken frame: Invalid SOF marker. Data: "
                  +:+ toHex (x00 :: [] ++ createFrame Sample.bypassEcho)))]).
Proof.
  assert (H1 : connections (Sample.service Sample.fresh) !! 1 = Some Sample.fresh)
    by reflexivity.
  assert (H2 : ConnectionInfo.buffer Sample.fresh = []) by reflexivity.
  assert (H3 : x00 <> byte_of_Z SOF_MARKER) by (vm_compute; discriminate).
  exact (conj H1 (conj H2 (conj H3
    (handleData_does_not_resynchronise _ 1 _ x00 [] Sample.bypassEcho H1 H2 H3)))).
Defined.

(** X14. Fewer than four bytes on an empty receive buffer are never kept
    for later: the loop logs "Frame too short" and drops them. *)
Theorem handleData_drops_short_chunk st connectionId c data :
  connections st !! connectionId = Some c ->
  ConnectionInfo.buffer c = [] ->
  0 < len data < 4 ->
  handleData connectionId data st
  = (tt, st,
     [InsertCommunicationLog (lawnmowerId c) "Error" "Invalid_Frame"
        (Text ("Broken frame: Frame too short. Data: " +:+ toHex data))]).
Proof.
  intros H Hbuf Hlen.
  apply (handleData_resets_exact _ _ _ _ "Frame too short" H Hbuf);
    [lia| |discriminate].
  unfold parseFrame. destruct (Z.ltb_spec (len data) 4); [reflexivity|lia].
Qed.

Lemma handleData_drops_short_chunk_witness :
  connections (Sample.service Sample.fresh) !! 1 = Some Sample.fresh
  /\ ConnectionInfo.buffer Sample.fresh = []
  /\ 0 < len [xaa; x05; x00] < 4
  /\ handleData 1 [xaa; x05; x00] (Sample.service Sample.fresh)
     = (tt, Sample.service Sample.fresh,
        [InsertCommunicationLog (lawnmowerId Sample.fresh) "Error" "Invalid_Frame"
           (Text ("Broken frame: Frame too short. Data: " +:+ toHex [xaa; x05; x00]))]).
Proof.
  assert (H1 : connections (Sample.service Sample.fresh) !! 1 = Some Sample.fresh)
    by reflexivity.
  assert (H2 : ConnectionInfo.buffer Sample.fresh = []) by reflexivity.
  assert (H3 : 0 < len [xaa; x05; x00] < 4) by (vm_compute; split; reflexivity).
  exact (conj H1 (conj H2 (conj H3
    (handleData_drops_short_chunk _ 1 _ [xaa; x05; x00] H1 H2 H3)))).
Defined.

End Stream.

(** ** Authentication *)

Section Authentication.

Import ProtocolService TCPService Observed Invariant Expected.

Lemma readUInt32BE_range (buffer : Buffer) (offset : Z) :
  0 <= readUInt32BE buffer offset < 2 ^ 32.
Proof.
  unfold readUInt32BE.
  pose proof (readUIntBE_bound (slice buffer offset (offset + 4)) 0 ltac:(lia)) as Hb.
  assert (Hl : len (slice buffer offset (offset + 4)) <= 4).
  { unfold slice, len. rewrite length_take. lia. }
  pose proof (len_nonneg (slice buffer offset (offset + 4))) as Hl0.
  assert (256 ^ len (slice buffer offset (offset + 4)) <= 256 ^ 4)
    by (apply Z.pow_le_mono_r; lia).
  change (2 ^ 32) with (256 ^ 4). lia.
Qed.

Lemma generateRandomSecret_range (e : Z) :
  1 <= CryptoService.generateRandomSecret e <= 0xFFFF.
Proof.
  unfold CryptoService.generateRandomSecret.
  pose proof (Z.mod_pos_bound e 0xFFFF ltac:(lia)). lia.
Qed.

Lemma generateNonce_range (e : Z) : 0 <= CryptoService.generateNonce e < 2 ^ 64.
Proof. unfold CryptoService.generateNonce. apply Z.mod_pos_bound. lia. Qed.

Lemma calculateSharedSecret_range (otherPublicKey mySecret : Z) :
  0 <= otherPublicKey -> 0 <= mySecret ->
  0 <= CryptoService.calculateSharedSecret otherPublicKey mySecret
  < CryptoService.DH_MODULUS.
Proof.
  intros Hk Hs. unfold CryptoService.calculateSharedSecret.
  rewrite modularExponentiation_spec by (unfold CryptoService.DH_MODULUS; lia).
  apply Z.mod_pos_bound. reflexivity.
Qed.

Lemma wellFormed_helloAuthState st clientPublicKey :
  0 <= clientPublicKey < 2 ^ 32 ->
  wellFormedAuthState (helloAuthState st clientPublicKey).
Proof.
  intros Hk. unfold wellFormedAuthState, helloAuthState. cbv zeta.
  cbn [AuthState.serverSecret AuthState.clientPublicKey AuthState.nonce
       AuthState.serverPublicKey].
  split; [apply generateRandomSecret_range|].
  split; [exact Hk|].
  split; [apply generateNonce_range | reflexivity].
Qed.

Lemma handleHello_run st connectionId c sessionMsg :
  connections st !! connectionId = Some c ->
  4 <= len (SessionMessage.payload sessionMsg) ->
  let clientPublicKey := readUInt32BE (SessionMessage.payload sessionMsg) 0 in
  handleHello connectionId sessionMsg st
  = (tt, afterHello st connectionId c clientPublicKey,
     [SocketWrite connectionId (challengeFrame (helloAuthState st clientPublicKey));
      InsertCommunicationLog (lawnmowerId c) "Information" "Auth_Challenge_Sent"
        (Text ("Challenge sent with g=" +:+ decimal CryptoService.DH_GENERATOR
               +:+ ", p=" +:+ decimal CryptoService.DH_MODULUS
               +:+ ", a=" +:+ decimal clientPublicKey))]).
Proof.
  intros H Hlen clientPublicKey.
  unfold handleHello. rewrite (withConnection_some _ _ _ _ H).
  unfold CryptoService.parseHelloPayload.
  destruct (Z.ltb_spec (len (SessionMessage.payload sessionMsg)) 4); [lia|].
  reflexivity.
Qed.

Lemma verifyAuth_server (a : AuthState.t) (authC : Z) :
  CryptoService.verifyAuth (AuthState.clientPublicKey a) (AuthState.serverPublicKey a)
    (AuthState.nonce a) authC true
  = (expectedAuthC a =? authC).
Proof.
  unfold CryptoService.verifyAuth, expectedAuthC. cbv zeta.
  now rewrite <- app_assoc.
Qed.

Lemma handleClientAuth_accepts st connectionId c sessionMsg a :
  connections st !! connectionId = Some c ->
  4 <= len (SessionMessage.payload sessionMsg) ->
  ConnectionInfo.authState c = Some a ->
  readUInt32BE (SessionMessage.payload sessionMsg) 0 = expectedAuthC a ->
  handleClientAuth connectionId sessionMsg st
  = (tt, afterClientAuth st connectionId c a,
     [InsertCommunicationLog (lawnmowerId c) "Information" "Auth_Success"
        (Text ("Authentication successful. Shared secret: 0x"
               +:+ padStart8 (hex (CryptoService.calculateSharedSecret
                                     (AuthState.clientPublicKey a)
                                     (AuthState.serverSecret a)))))]).
Proof.
  intros H Hlen Ha Hmac.
  unfold handleClientAuth. rewrite (withConnection_some _ _ _ _ H). cbv zeta.
  unfold CryptoService.parseClientAuthPayload.
  destruct (Z.ltb_spec (len (SessionMessage.payload sessionMsg)) 4); [lia|].
  rewrite Ha, verifyAuth_server, Hmac, Z.eqb_refl.
  reflexivity.
Qed.

(** Every other CLIENT_AUTH leaves the service as it was and ends with
    the destruction of the socket. *)
Lemma handleClientAuth_refuses st connectionId c sessionMsg :
  connections st !! connectionId = Some c ->
  (forall a, ConnectionInfo.authState c = Some a ->
             4 <= len (SessionMessage.payload sessionMsg) ->
             readUInt32BE (SessionMessage.payload sessionMsg) 0 <> expectedAuthC a) ->
  exists severity eventType text,
    handleClientAuth connectionId sessionMsg st
    = (tt, st,
       [InsertCommunicationLog (lawnmowerId c) severity eventType (Text text);
        SocketDestroy connectionId]).
Proof.
  intros H Hbad.
  unfold handleClientAuth. rewrite (withConnection_some _ _ _ _ H). cbv zeta.
  unfold CryptoService.parseClientAuthPayload.
  destruct (Z.ltb_spec (len (SessionMessage.payload sessionMsg)) 4) as [|Hlen];
    [eexists _, _, _; reflexivity|].
  destruct (ConnectionInfo.authState c) as [a|]; [|eexists _, _, _; reflexivity].
  rewrite verifyAuth_server.
  destruct (Z.eqb_spec (expectedAuthC a)
              (readUInt32BE (SessionMessage.payload sessionMsg) 0)) as [E|_].
  { exfalso. apply (Hbad a eq_refl Hlen). now symmetry. }
  eexists _, _, _. reflexivity.
Qed.

Lemma processFrame_client_auth st connectionId c payload sessionMsg :
  connections st !! connectionId = Some c ->
  parseSessionMessage payload = Ok sessionMsg ->
  SessionMessage.messageType sessionMsg = CLIENT_AUTH ->
  processFrame connectionId payload st = handleClientAuth connectionId sessionMsg st.
Proof.
  intros H Hs Ht. unfold processFrame.
  rewrite (withConnection_some _ _ _ _ H), Hs. cbv zeta. rewrite Ht.
  reflexivity.
Qed.

(** What [processFrame] can do to the record of the connection. *)
Lemma processFrame_connection st connectionId c payload :
  connections st !! connectionId = Some c ->
  let st' := stateAfter (processFrame connectionId payload) st in
  st' = st
  \/ (exists sessionMsg,
        parseSessionMessage payload = Ok sessionMsg
        /\ SessionMessage.messageType sessionMsg = HELLO
        /\ 4 <= len (SessionMessage.payload sessionMsg)
        /\ st' = afterHello st connectionId c
                   (readUInt32BE (SessionMessage.payload sessionMsg) 0))
  \/ (exists sessionMsg a,
        parseSessionMessage payload = Ok sessionMsg
        /\ SessionMessage.messageType sessionMsg = CLIENT_AUTH
        /\ 4 <= len (SessionMessage.payload sessionMsg)
        /\ ConnectionInfo.authState c = Some a
        /\ readUInt32BE (SessionMessage.payload sessionMsg) 0 = expectedAuthC a
        /\ st' = afterClientAuth st connectionId c a).
Proof.
  intros H st'. unfold st', stateAfter, processFrame.
  rewrite (withConnection_some _ _ _ _ H).
  destruct (parseSessionMessage payload) as [sessionMsg|message]; [|now left].
  cbv zeta.
  destruct (Z.eqb_spec (SessionMessage.messageType sessionMsg) HELLO) as [Eh|_].
  { destruct (Z_lt_dec (len (SessionMessage.payload sessionMsg)) 4) as [Hl|Hl].
    - left. unfold handleHello. rewrite (withConnection_some _ _ _ _ H).
      unfold CryptoService.parseHelloPayload.
      destruct (Z.ltb_spec (len (SessionMessage.payload sessionMsg)) 4); [|lia].
      reflexivity.
    - right. left. exists sessionMsg.
      rewrite (handleHello_run _ _ _ _ H) by lia.
      repeat split; try assumption; lia. }
  destruct (Z.eqb_spec (SessionMessage.messageType sessionMsg) CLIENT_AUTH) as [Ec|_].
  { destruct (Z_lt_dec (len (SessionMessage.payload sessionMsg)) 4) as [Hl|Hl].
    { left. destruct (handleClientAuth_refuses st connectionId c sessionMsg H)
        as (s & e & t & ->); [intros; lia | reflexivity]. }
    destruct (ConnectionInfo.authState c) as [a|] eqn:Ha.
    2:{ left. destruct (handleClientAuth_refuses st connectionId c sessionMsg H)
          as (s & e & t & ->); [intros a' Ha'; congruence | reflexivity]. }
    destruct (Z.eq_dec (readUInt32BE (SessionMessage.payload sessionMsg) 0)
                (expectedAuthC a)) as [E|N].
    - right. right. exists sessionMsg, a.
      rewrite (handleClientAuth_accepts st connectionId c sessionMsg a H ltac:(lia) Ha E).
      repeat split; try assumption; lia.
    - left. destruct (handleClientAuth_refuses st connectionId c sessionMsg H)
        as (s & e & t & ->); [|reflexivity].
      intros a' Ha' _. assert (a' = a) as -> by congruence. exact N. }
  destruct (_ =? REGULAR).
  { left. apply preservesState_handleRegularMessage. }
  destruct (_ =? NOTIFICATION).
  { left. apply preservesState_handleNotification. }
  now left.
Qed.

(** X15. Only a CLIENT_AUTH that carries the MAC over the keys and nonce
    of the stored handshake makes a connection authenticated; the shared
    secret is then the stored client key raised to the server secret. *)
Theorem only_valid_client_auth_authenticates st connectionId c payload c' :
  connections st !! connectionId = Some c ->
  ConnectionInfo.authenticated c = false ->
  connections (stateAfter (processFrame connectionId payload) st) !! connectionId
  = Some c' ->
  ConnectionInfo.authenticated c' = true ->
  exists sessionMsg a,
    parseSessionMessage payload = Ok sessionMsg
    /\ SessionMessage.messageType sessionMsg = CLIENT_AUTH
    /\ ConnectionInfo.authState c = Some a
    /\ CryptoService.parseClientAuthPayload (SessionMessage.payload sessionMsg)
       = Ok (CryptoService.calculateMAC CryptoService.PSK
               (writeUInt32BE (AuthState.clientPublicKey a)
                ++ writeUInt32BE (AuthState.serverPublicKey a)
                ++ writeBigUInt64BE (AuthState.nonce a)))
    /\ ConnectionInfo.sharedSecret c'
       = Some (CryptoService.calculateSharedSecret
                 (AuthState.clientPublicKey a) (AuthState.serverSecret a)).
Proof.
  intros H Hno H' Hyes.
  destruct (processFrame_connection st connectionId c payload H)
    as [E|[(sessionMsg & Hs & Ht & Hl & E)|(sessionMsg & a & Hs & Ht & Hl & Ha & Hm & E)]];
    rewrite E in H'.
  - rewrite H in H'. injection H' as <-. congruence.
  - unfold afterHello in H'. cbn [connections] in H'.
    rewrite lookup_insert_eq in H'. injection H' as <-.
    cbn [ConnectionInfo.authenticated ConnectionInfo.set_authState] in Hyes. congruence.
  - unfold afterClientAuth in H'. cbn [connections] in H'.
    rewrite lookup_insert_eq in H'. injection H' as <-.
    exists sessionMsg, a. repeat split; try assumption.
    unfold CryptoService.parseClientAuthPayload.
    destruct (Z.ltb_spec (len (SessionMessage.payload sessionMsg)) 4); [lia|].
    now rewrite Hm.
Qed.

Lemma only_valid_client_auth_authenticates_witness :
  exists sessionMsg a,
    parseSessionMessage
      ([x00; x00; x00; x00; x03]
       ++ writeUInt32BE (expectedAuthC
                           {| AuthState.serverSecret := 0x5678;
                              AuthState.clientPublicKey := 906815736;
                              AuthState.nonce := 0x0102030405060708;
                              AuthState.serverPublicKey := 124418418 |}))
    = Ok sessionMsg
    /\ SessionMessage.messageType sessionMsg = CLIENT_AUTH
    /\ Some {| AuthState.serverSecret := 0x5678;
               AuthState.clientPublicKey := 906815736;
               AuthState.nonce := 0x0102030405060708;
               AuthState.serverPublicKey := 124418418 |} = Some a
    /\ CryptoService.parseClientAuthPayload (SessionMessage.payload sessionMsg)
       = Ok (CryptoService.calculateMAC CryptoService.PSK
               (writeUInt32BE (AuthState.clientPublicKey a)
                ++ writeUInt32BE (AuthState.serverPublicKey a)
                ++ writeBigUInt64BE (AuthState.nonce a)))
    /\ Some 1476263253
       = Some (CryptoService.calculateSharedSecret
                 (AuthState.clientPublicKey a) (AuthState.serverSecret a)).
Proof.
  set (a := {| AuthState.serverSecret := 0x5678;
               AuthState.clientPublicKey := 906815736;
               AuthState.nonce := 0x0102030405060708;
               AuthState.serverPublicKey := 124418418 |}).
  set (c := ConnectionInfo.mk 1 Sample.mower false None [] (Some a)).
  set (c' := ConnectionInfo.mk 1 Sample.mower true (Some 1476263253) [] (Some a)).
  set (payload := [x00; x00; x00; x00; x03] ++ writeUInt32BE (expectedAuthC a)).
  assert (H : connections (Sample.service c) !! 1 = Some c) by reflexivity.
  assert (Hno : ConnectionInfo.authenticated c = false) by reflexivity.
  assert (H' : connections (stateAfter (processFrame 1 payload) (Sample.service c)) !! 1
               = Some c') by (vm_compute; reflexivity).
  assert (Hyes : ConnectionInfo.authenticated c' = true) by reflexivity.
  exact (only_valid_client_auth_authenticates _ 1 c payload c' H Hno H' Hyes).
Defined.



(** An invariant of the connection record that [processFrame] keeps and
    that does not depend on the receive buffer is kept by [handleData]. *)
Lemma handleData_loop_invariant (P : ConnectionInfo.t -> Prop) connectionId :
  (forall c b, P c -> P (ConnectionInfo.set_buffer c b)) ->
  (forall st c payload,
      connections st !! connectionId = Some c -> P c ->
      exists c',
        connections (stateAfter (processFrame connectionId payload) st) !! connectionId
        = Some c' /\ P c') ->
  forall fuel st c,
    connections st !! connectionId = Some c -> P c ->
    exists c',
      connections (stateAfter (handleData_loop fuel connectionId) st) !! connectionId
      = Some c' /\ P c'.
Proof.
  intros Hbuf Hframe. induction fuel as [|fuel IH]; intros st c H HP.
  { exists c. split; [exact H | exact HP]. }
  unfold stateAfter. cbn [handleData_loop].
  rewrite (withConnection_some _ _ _ _ H). cbv zeta.
  destruct (len (ConnectionInfo.buffer c) >? 0); [|exists c; split; assumption].
  destruct (parseFrame (ConnectionInfo.buffer c)) as [frameResult|message].
  - unfold bind at 1. unfold setConnection at 1.
    set (c1 := ConnectionInfo.set_buffer c _).
    set (st1 := mkState _ _ _).
    assert (H1 : connections st1 !! connectionId = Some c1) by apply lookup_insert_eq.
    destruct (Hframe st1 c1 (Frame.payload frameResult) H1 (Hbuf _ _ HP))
      as (c2 & H2 & HP2).
    unfold stateAfter in H2. unfold bind.
    destruct (processFrame connectionId (Frame.payload frameResult) st1)
      as [[u st2] e2].
    cbn [fst snd] in H2.
    destruct (IH st2 c2 H2 HP2) as (c3 & H3 & HP3).
    unfold stateAfter in H3.
    destruct (handleData_loop fuel connectionId st2) as [[u3 st3] e3].
    cbn [fst snd] in *. exists c3. split; assumption.
  - destruct (bool_decide _); [exists c; split; assumption|].
    unfold bind, logCommunication, emit, setConnection. cbv beta iota zeta.
    cbn [fst snd connections].
    eexists. split; [apply lookup_insert_eq | apply Hbuf, HP].
Qed.

Lemma handleData_invariant (P : ConnectionInfo.t -> Prop) connectionId :
  (forall c b, P c -> P (ConnectionInfo.set_buffer c b)) ->
  (forall st c payload,
      connections st !! connectionId = Some c -> P c ->
      exists c',
        connections (stateAfter (processFrame connectionId payload) st) !! connectionId
        = Some c' /\ P c') ->
  forall st c data,
    connections st !! connectionId = Some c -> P c ->
    exists c',
      connections (stateAfter (handleData connectionId data) st) !! connectionId
      = Some c' /\ P c'.
Proof.
  intros Hbuf Hframe st c data H HP.
  unfold stateAfter. rewrite (handleData_unfold _ _ _ _ H).
  apply (handleData_loop_invariant P connectionId Hbuf Hframe _ _
           (ConnectionInfo.set_buffer c (ConnectionInfo.buffer c ++ data))).
  - apply withBuffer_lookup.
  - apply Hbuf, HP.
Qed.

Lemma wellFormed_set_buffer c b :
  wellFormed c -> wellFormed (ConnectionInfo.set_buffer c b).
Proof. intros H. exact H. Qed.

Lemma processFrame_wellFormed (flag : bool) st connectionId c payload :
  connections st !! connectionId = Some c ->
  wellFormed c /\ (flag = true -> ConnectionInfo.authenticated c = true) ->
  exists c',
    connections (stateAfter (processFrame connectionId payload) st) !! connectionId
    = Some c'
    /\ wellFormed c' /\ (flag = true -> ConnectionInfo.authenticated c' = true).
Proof.
  intros H [(Hstate & Hyes & Hno) Hflag].
  destruct (processFrame_connection st connectionId c payload H)
    as [E|[(sessionMsg & Hs & Ht & Hl & E)|(sessionMsg & a & Hs & Ht & Hl & Ha & Hm & E)]];
    rewrite E.
  - exists c. split; [exact H|].
    split; [exact (conj Hstate (conj Hyes Hno)) | exact Hflag].
  - eexists. split; [apply lookup_insert_eq|].
    split; [|exact Hflag].
    split; [|split].
    + intros a [= <-]. apply wellFormed_helloAuthState, readUInt32BE_range.
    + cbn [ConnectionInfo.authenticated ConnectionInfo.set_authState
           ConnectionInfo.authState ConnectionInfo.sharedSecret].
      intros Hauth. destruct (Hyes Hauth) as (a & k & _ & Hk & Hr).
      eexists _, k. repeat split; try reflexivity; assumption || apply Hr.
    + exact Hno.
  - eexists. split; [apply lookup_insert_eq|].
    split; [|reflexivity].
    split; [|split].
    + exact Hstate.
    + intros _. exists a, (CryptoService.calculateSharedSecret
                             (AuthState.clientPublicKey a) (AuthState.serverSecret a)).
      split; [exact Ha|]. split; [reflexivity|].
      destruct (Hstate a Ha) as (Hsec & Hkey & _).
      apply calculateSharedSecret_range; lia.
    + intros [=].
Qed.

(** X17. The record of a connection stays well formed through everything
    [handleData] receives: the stored handshake holds a server secret of
    1..0xFFFF with its public key, a 32-bit client key and a 64-bit nonce;
    an authenticated connection has a shared secret below the modulus and
    an unauthenticated one has none.  The connection is never removed and
    an authenticated connection stays authenticated. *)
Theorem handleData_keeps_connection_well_formed st connectionId c data :
  connections st !! connectionId = Some c ->
  wellFormed c ->
  exists c',
    connections (stateAfter (handleData connectionId data) st) !! connectionId = Some c'
    /\ wellFormed c'
    /\ (ConnectionInfo.authenticated c = true -> ConnectionInfo.authenticated c' = true).
Proof.
  intros H Hwf.
  apply (handleData_invariant
           (fun c' => wellFormed c'
                      /\ (ConnectionInfo.authenticated c = true ->
                          ConnectionInfo.authenticated c' = true))
           connectionId) with (c := c).
  - intros c0 b HP. exact HP.
  - intros st0 c0 payload H0 HP.
    exact (processFrame_wellFormed (ConnectionInfo.authenticated c) st0 connectionId
             c0 payload H0 HP).
  - exact H.
  - split; [exact Hwf | tauto].
Qed.

(** An authenticated connection, with its handshake stored, that receives
    the HELLO frame of another client secret: the stored handshake is
    replaced, and the record is still well formed and authenticated. *)
Lemma handleData_keeps_connection_well_formed_witness :
  ConnectionInfo.authenticated Sample.authenticated = true
  /\ connections (stateAfter (handleData 1 (helloFrame 0x4321))
                    (Sample.service Sample.authenticated)) !! 1
     <> Some Sample.authenticated
  /\ exists c',
       connections (stateAfter (handleData 1 (helloFrame 0x4321))
                      (Sample.service Sample.authenticated)) !! 1 = Some c'
       /\ wellFormed c'
       /\ (ConnectionInfo.authenticated Sample.authenticated = true ->
           ConnectionInfo.authenticated c' = true).
Proof.
  refine (conj eq_refl (conj _ _)).
  - vm_compute. discriminate.
  - refine (handleData_keeps_connection_well_formed
              (Sample.service Sample.authenticated) 1 Sample.authenticated
              (helloFrame 0x4321) eq_refl (conj _ (conj _ _))).
    + intros a Ha. vm_compute in Ha. injection Ha as <-.
      refine (conj _ (conj _ (conj _ _)));
        [cbn; lia | cbn; lia | cbn; lia | vm_compute; reflexivity].
    + intros _.
      refine (ex_intro _ _ (ex_intro _ _ (conj eq_refl (conj eq_refl _)))).
      vm_compute. split; [discriminate | reflexivity].
    + intros Ha. vm_compute in Ha. discriminate Ha.
Defined.

Lemma len_session (hmac : Buffer) (messageType : Z) (payload : Buffer) :
  len (hmac ++ [byte_of_Z messageType] ++ payload) = len hmac + 1 + len payload.
Proof. rewrite !len_app. change (len [byte_of_Z messageType]) with 1. lia. Qed.

(** The server's side of the handshake on whole frames: a HELLO frame
    with the client key [A], then a CLIENT_AUTH frame with the MAC that
    the stored handshake expects. *)
Lemma handleData_hello st connectionId c hmac A :
  connections st !! connectionId = Some c ->
  ConnectionInfo.buffer c = [] ->
  len hmac = 4 ->
  0 <= A < 2 ^ 32 ->
  handleData connectionId
    (createFrame (hmac ++ [byte_of_Z HELLO] ++ writeUInt32BE A)) st
  = (tt, afterHello st connectionId c A,
     [SocketWrite connectionId (challengeFrame (helloAuthState st A));
      InsertCommunicationLog (lawnmowerId c) "Information" "Auth_Challenge_Sent"
        (Text ("Challenge sent with g=" +:+ decimal CryptoService.DH_GENERATOR
               +:+ ", p=" +:+ decimal CryptoService.DH_MODULUS
               +:+ ", a=" +:+ decimal A))]).
Proof.
  intros H Hbuf Hh HA.
  rewrite (handleData_createFrame _ _ _ _ H Hbuf)
    by (rewrite len_session, Hh, len_writeUInt32BE; lia).
  pose proof (parseSessionMessage_app hmac (writeUInt32BE A) (byte_of_Z HELLO) Hh) as Hs.
  rewrite (processFrame_hello _ _ _ _ _ H Hs) by reflexivity.
  rewrite (handleHello_run _ _ _ _ H)
    by (cbn [SessionMessage.payload]; rewrite len_writeUInt32BE; lia).
  cbv zeta. cbn [SessionMessage.payload].
  replace (readUInt32BE (writeUInt32BE A) 0) with A; [reflexivity|].
  rewrite <- (app_nil_r (writeUInt32BE A)). symmetry.
  now apply readUInt32BE_writeUInt32BE.
Qed.

Lemma handleData_client_auth st connectionId c hmac a :
  connections st !! connectionId = Some c ->
  ConnectionInfo.buffer c = [] ->
  len hmac = 4 ->
  ConnectionInfo.authState c = Some a ->
  handleData connectionId
    (createFrame (hmac ++ [byte_of_Z CLIENT_AUTH] ++ writeUInt32BE (expectedAuthC a))) st
  = (tt, afterClientAuth st connectionId c a,
     [InsertCommunicationLog (lawnmowerId c) "Information" "Auth_Success"
        (Text ("Authentication successful. Shared secret: 0x"
               +:+ padStart8 (hex (CryptoService.calculateSharedSecret
                                     (AuthState.clientPublicKey a)
                                     (AuthState.serverSecret a)))))]).
Proof.
  intros H Hbuf Hh Ha.
  rewrite (handleData_createFrame _ _ _ _ H Hbuf)
    by (rewrite len_session, Hh, len_writeUInt32BE; lia).
  pose proof (parseSessionMessage_app hmac (writeUInt32BE (expectedAuthC a))
                (byte_of_Z CLIENT_AUTH) Hh) as Hs.
  rewrite (processFrame_client_auth _ _ _ _ _ H Hs) by reflexivity.
  apply (handleClientAuth_accepts st connectionId c _ a H).
  - cbn [SessionMessage.payload]. rewrite len_writeUInt32BE. lia.
  - exact Ha.
  - cbn [SessionMessage.payload].
    rewrite <- (app_nil_r (writeUInt32BE _)).
    apply readUInt32BE_writeUInt32BE. unfold expectedAuthC. apply calculateMAC_range.
Qed.

(** The challenge frame, read the way the clients read a frame from the
    server: presentation header first, session message inside. *)
Lemma challengeFrame_decodes (a : AuthState.t) :
  0 <= AuthState.serverPublicKey a < 2 ^ 32 ->
  0 <= AuthState.nonce a < 2 ^ 64 ->
  let authS :=
    CryptoService.calculateMAC CryptoService.PSK
      (writeUInt32BE (AuthState.serverPublicKey a)
       ++ writeUInt32BE (AuthState.clientPublicKey a)
       ++ writeBigUInt64BE (AuthState.nonce a)) in
  let challengePayload :=
    CryptoService.createChallengePayload (AuthState.serverPublicKey a)
      (AuthState.nonce a) authS in
  let sessionBytes :=
    createSessionMessage CHALLENGE challengePayload (Some [x00; x00; x00; x00]) in
  parseFrame (challengeFrame a)
  = Ok {| Frame.payload := createPresentationMessage 0 sessionBytes;
          Frame.totalLength := len (challengeFrame a) |}
  /\ parsePresentationMessage (createPresentationMessage 0 sessionBytes)
     = Ok {| PresentationMessage.iin := 0; PresentationMessage.payload := sessionBytes |}
  /\ parseSessionMessage sessionBytes
     = Ok {| SessionMessage.hmac := [x00; x00; x00; x00];
             SessionMessage.messageType := CHALLENGE;
             SessionMessage.payload := challengePayload |}
  /\ CryptoService.parseChallengePayload challengePayload
     = Ok {| Challenge.serverPublicKey := AuthState.serverPublicKey a;
             Challenge.nonce := AuthState.nonce a;
             Challenge.authS := authS |}
  /\ len challengePayload = 16.
Proof.
  intros HB HN authS challengePayload sessionBytes.
  assert (Hcp : len challengePayload = 16) by reflexivity.
  split.
  { unfold challengeFrame. fold authS. fold challengePayload. fold sessionBytes.
    rewrite <- (app_nil_r (createFrame _)) at 1.
    apply parseFrame_createFrame_app.
    unfold createPresentationMessage, sessionBytes, createSessionMessage, writeUInt16BE,
      challengePayload, CryptoService.createChallengePayload.
    rewrite !len_app, !len_writeUInt32BE, len_writeBigUInt64BE.
    unfold len. cbn [length]. lia. }
  split; [apply parsePresentationMessage_create; lia|].
  split; [apply parseSessionMessage_create; [reflexivity | unfold CHALLENGE; lia]|].
  split; [|exact Hcp].
  unfold challengePayload.
  rewrite <- (app_nil_r (CryptoService.createChallengePayload _ _ _)).
  apply parseChallengePayload_create; try assumption.
  apply calculateMAC_range.
Qed.

Lemma helloFrame_eq (clientSecret : Z) :
  helloFrame clientSecret
  = createFrame ([xfa; xde; xdb; xed] ++ [byte_of_Z HELLO]
                 ++ writeUInt32BE (CryptoService.calculatePublicKey clientSecret)).
Proof. reflexivity. Qed.

Lemma clientAuthFrame_eq (clientSecret authS : Z) (a : AuthState.t) :
  AuthState.clientPublicKey a = CryptoService.calculatePublicKey clientSecret ->
  clientAuthFrame clientSecret
    {| Challenge.serverPublicKey := AuthState.serverPublicKey a;
       Challenge.nonce := AuthState.nonce a;
       Challenge.authS := authS |}
  = createFrame ([xfa; xde; xdb; xed] ++ [byte_of_Z CLIENT_AUTH]
                 ++ writeUInt32BE (expectedAuthC a)).
Proof.
  intros E. unfold clientAuthFrame, expectedAuthC, CryptoService.createClientAuth.
  cbv zeta. cbn [ClientAuth.authC Challenge.serverPublicKey Challenge.nonce].
  rewrite E. reflexivity.
Qed.

Lemma shared_secret_agrees (clientSecret serverSecret : Z) :
  0 <= clientSecret -> 0 <= serverSecret ->
  CryptoService.calculateSharedSecret
    (CryptoService.calculatePublicKey clientSecret) serverSecret
  = CryptoService.calculateSharedSecret
      (CryptoService.calculatePublicKey serverSecret) clientSecret.
Proof.
  intros Hc Hs. rewrite !shared_secret_spec by lia. f_equal. f_equal. lia.
Qed.

(** X18. The handshake end to end, for a client that uses the client-side
    functions of [cryptoService]: the server answers its HELLO with one
    frame that decodes to a challenge the client verifies; the CLIENT_AUTH
    built from that challenge is accepted without any reply or close; the
    connection is then authenticated, and its shared secret is the one the
    client computes from the server's public key and its own secret. *)
Theorem handshake_completes st connectionId c clientSecret :
  connections st !! connectionId = Some c ->
  ConnectionInfo.buffer c = [] ->
  0 <= clientSecret ->
  exists st1 frame text1 framePayload presentationMsg sessionMsg challenge st2 c2 text2,
    handleData connectionId (helloFrame clientSecret) st
    = (tt, st1,
       [SocketWrite connectionId frame;
        InsertCommunicationLog (lawnmowerId c) "Information" "Auth_Challenge_Sent"
          (Text text1)])
    /\ parseFrame frame
       = Ok {| Frame.payload := framePayload; Frame.totalLength := len frame |}
    /\ parsePresentationMessage framePayload = Ok presentationMsg
    /\ parseSessionMessage (PresentationMessage.payload presentationMsg) = Ok sessionMsg
    /\ SessionMessage.messageType sessionMsg = CHALLENGE
    /\ CryptoService.parseChallengePayload (SessionMessage.payload sessionMsg)
       = Ok challenge
    /\ CryptoService.verifyAuth (CryptoService.calculatePublicKey clientSecret)
         (Challenge.serverPublicKey challenge) (Challenge.nonce challenge)
         (Challenge.authS challenge) false = true
    /\ handleData connectionId (clientAuthFrame clientSecret challenge) st1
       = (tt, st2,
          [InsertCommunicationLog (lawnmowerId c) "Information" "Auth_Success"
             (Text text2)])
    /\ connections st2 !! connectionId = Some c2
    /\ ConnectionInfo.authenticated c2 = true
    /\ ConnectionInfo.sharedSecret c2
       = Some (CryptoService.calculateSharedSecret
                 (Challenge.serverPublicKey challenge) clientSecret).
Proof.
  intros H Hbuf Hsecret.
  set (A := CryptoService.calculatePublicKey clientSecret).
  assert (HA : 0 <= A < 2 ^ 32).
  { pose proof (calculatePublicKey_range clientSecret Hsecret) as Hr.
    unfold CryptoService.DH_MODULUS in Hr. fold A in Hr. lia. }
  set (a := helloAuthState st A).
  destruct (wellFormed_helloAuthState st A HA) as (Hs & _ & Hn & HB). fold a in Hs, Hn, HB.
  assert (HBr : 0 <= AuthState.serverPublicKey a < 2 ^ 32).
  { rewrite HB.
    pose proof (calculatePublicKey_range (AuthState.serverSecret a) ltac:(lia)) as Hr.
    unfold CryptoService.DH_MODULUS in Hr. lia. }
  destruct (challengeFrame_decodes a HBr Hn) as (Hpf & Hpp & Hps & Hpc & _).
  cbv zeta in Hpf, Hpp, Hps, Hpc.
  set (st1 := afterHello st connectionId c A).
  set (c1 := ConnectionInfo.set_authState c a).
  assert (H1 : connections st1 !! connectionId = Some c1) by apply lookup_insert_eq.
  eexists st1, _, _, _, _, _, _, _, _, _.
  split.
  { rewrite helloFrame_eq. fold A.
    apply (handleData_hello st connectionId c [xfa; xde; xdb; xed] A H Hbuf);
      [reflexivity | exact HA]. }
  split; [exact Hpf|].
  split; [exact Hpp|].
  split; [exact Hps|].
  split; [reflexivity|].
  split; [exact Hpc|].
  split.
  { unfold CryptoService.verifyAuth. cbv zeta.
    cbn [Challenge.serverPublicKey Challenge.nonce Challenge.authS].
    rewrite <- app_assoc. apply Z.eqb_refl. }
  split.
  { rewrite (clientAuthFrame_eq clientSecret _ a eq_refl).
    apply (handleData_client_auth st1 connectionId c1 [xfa; xde; xdb; xed] a H1 Hbuf);
      reflexivity. }
  split; [apply lookup_insert_eq|].
  split; [reflexivity|].
  cbn [ConnectionInfo.sharedSecret ConnectionInfo.set_authenticated
       Challenge.serverPublicKey].
  f_equal. rewrite HB. apply shared_secret_agrees; lia.
Qed.

Lemma handshake_completes_witness :
  exists st1 frame text1 framePayload presentationMsg sessionMsg challenge st2 c2 text2,
    handleData 1 (helloFrame 0x1234) (Sample.service Sample.fresh)
    = (tt, st1,
       [SocketWrite 1 frame;
        InsertCommunicationLog (lawnmowerId Sample.fresh) "Information"
          "Auth_Challenge_Sent" (Text text1)])
    /\ parseFrame frame
       = Ok {| Frame.payload := framePayload; Frame.totalLength := len frame |}
    /\ parsePresentationMessage framePayload = Ok presentationMsg
    /\ parseSessionMessage (PresentationMessage.payload presentationMsg) = Ok sessionMsg
    /\ SessionMessage.messageType sessionMsg = CHALLENGE
    /\ CryptoService.parseChallengePayload (SessionMessage.payload sessionMsg)
       = Ok challenge
    /\ CryptoService.verifyAuth (CryptoService.calculatePublicKey 0x1234)
         (Challenge.serverPublicKey challenge) (Challenge.nonce challenge)
         (Challenge.authS challenge) false = true
    /\ handleData 1 (clientAuthFrame 0x1234 challenge) st1
       = (tt, st2,
          [InsertCommunicationLog (lawnmowerId Sample.fresh) "Information"
             "Auth_Success" (Text text2)])
    /\ connections st2 !! 1 = Some c2
    /\ ConnectionInfo.authenticated c2 = true
    /\ ConnectionInfo.sharedSecret c2
       = Some (CryptoService.calculateSharedSecret
                 (Challenge.serverPublicKey challenge) 0x1234).
Proof.
  apply (handshake_completes (Sample.service Sample.fresh) 1 Sample.fresh 0x1234);
    [reflexivity | reflexivity | lia].
Defined.

End Authentication.

(** ** Messages *)

Section Messages.

Import ProtocolService TCPService Observed Invariant Expected.

(** X19. The four layers together: what [createCommand],
    [createPresentationMessage], [createSessionMessage] and [createFrame]
    build is taken apart again, layer by layer, by [parseFrame],
    [parseSessionMessage], [parsePresentationMessage] and [parseCommand],
    with any bytes after the frame. *)
Theorem protocol_stack_round_trip
  (messageType iin command : Z) (hmac body tail : Buffer) :
  len hmac = 4 ->
  0 <= messageType < 256 ->
  0 <= iin < 2 ^ 16 ->
  0 <= command < 256 ->
  len body + 8 <= 2 ^ 21 - 1 ->
  let applicationMsg := createCommand command body in
  let presentationMsg := createPresentationMessage iin applicationMsg in
  let sessionMsg := createSessionMessage messageType presentationMsg (Some hmac) in
  parseFrame (createFrame sessionMsg ++ tail)
  = Ok {| Frame.payload := sessionMsg;
          Frame.totalLength := len (createFrame sessionMsg) |}
  /\ parseSessionMessage sessionMsg
     = Ok {| SessionMessage.hmac := hmac;
             SessionMessage.messageType := messageType;
             SessionMessage.payload := presentationMsg |}
  /\ parsePresentationMessage presentationMsg
     = Ok {| PresentationMessage.iin := iin;
             PresentationMessage.payload := applicationMsg |}
  /\ parseCommand applicationMsg
     = Ok {| Command.command := command; Command.payload := body |}.
Proof.
  intros Hh Ht Hi Hc Hlen applicationMsg presentationMsg sessionMsg.
  split.
  { apply parseFrame_createFrame_app.
    unfold sessionMsg, createSessionMessage, presentationMsg,
      createPresentationMessage, writeUInt16BE, applicationMsg, createCommand.
    unfold len in *. rewrite !length_app. cbn [length]. lia. }
  split; [now apply parseSessionMessage_create|].
  split; [now apply parsePresentationMessage_create|].
  now apply parseCommand_create.
Qed.

Lemma protocol_stack_round_trip_witness :
  let applicationMsg := createCommand 1 [x02] in
  let presentationMsg := createPresentationMessage 7 applicationMsg in
  let sessionMsg := createSessionMessage 0 presentationMsg (Some [xfa; xde; xdb; xed]) in
  parseFrame (createFrame sessionMsg ++ [xaa])
  = Ok {| Frame.payload := sessionMsg;
          Frame.totalLength := len (createFrame sessionMsg) |}
  /\ parseSessionMessage sessionMsg
     = Ok {| SessionMessage.hmac := [xfa; xde; xdb; xed];
             SessionMessage.messageType := 0;
             SessionMessage.payload := presentationMsg |}
  /\ parsePresentationMessage presentationMsg
     = Ok {| PresentationMessage.iin := 7;
             PresentationMessage.payload := applicationMsg |}
  /\ parseCommand applicationMsg
     = Ok {| Command.command := 1; Command.payload := [x02] |}.
Proof.
  apply (protocol_stack_round_trip 0 7 1 [xfa; xde; xdb; xed] [x02] [xaa]);
    try reflexivity; try lia.
  vm_compute. discriminate.
Defined.

Lemma stateMap_nonempty (status : Z) : stateMap status <> EmptyString.
Proof.
  unfold stateMap.
  repeat match goal with |- context [if ?b then _ else _] => destruct b end;
    discriminate.
Qed.

(** X20. Notifications are not gated: a DeviceStatus notification with at
    least six bytes is stored on any connection, authenticated or not and
    whatever its HMAC field.  The insert of the battery level (half of the
    first byte) is issued first and awaited, the Status_Update row is
    issued next, and the insert of the device state (the state named by
    the sixth byte) waits for the battery insert to resolve; nothing is
    written to the socket and the service is left as it was. *)
Theorem device_status_needs_no_authentication st connectionId c hmac data :
  connections st !! connectionId = Some c ->
  len hmac = 4 ->
  6 <= len data ->
  processFrame connectionId
    (hmac ++ [byte_of_Z NOTIFICATION] ++ byte_of_Z DEVICE_STATUS :: data) st
  = (tt, st,
     [Await (InsertBatteryLevel (lawnmowerId c) (Qmake (number_at data 0) 2))
        [InsertDeviceState (lawnmowerId c) (stateMap (number_at data 5))];
      InsertCommunicationLog (lawnmowerId c) "Information" "Status_Update"
        (Text ("Battery: " +:+ showHalf (number_at data 0) +:+ "%, State: "
               +:+ stateMap (number_at data 5)
               +:+ ", Blade: " +:+ decimal (readUInt32BE data 1) +:+ "s"))]).
Proof.
  intros H Hh Hd. unfold processFrame.
  rewrite (withConnection_some _ _ _ _ H).
  rewrite (parseSessionMessage_app hmac _ (byte_of_Z NOTIFICATION) Hh).
  cbv zeta. cbn [SessionMessage.messageType].
  change (Z_of_byte (byte_of_Z NOTIFICATION)) with NOTIFICATION.
  change (NOTIFICATION =? HELLO) with false.
  change (NOTIFICATION =? CLIENT_AUTH) with false.
  change (NOTIFICATION =? REGULAR) with false.
  change (NOTIFICATION =? NOTIFICATION) with true. cbv iota.
  unfold handleNotification. rewrite (withConnection_some _ _ _ _ H).
  cbv zeta. cbn [SessionMessage.payload].
  destruct (Z.ltb_spec (len (byte_of_Z DEVICE_STATUS :: data)) 1) as [Hl|_].
  { rewrite len_cons in Hl. pose proof (len_nonneg data). lia. }
  rewrite number_at_0, slice_from_1.
  change (Z_of_byte (byte_of_Z DEVICE_STATUS) =? DEVICE_STATUS) with true. cbv iota.
  unfold handleDeviceStatusNotification. rewrite (withConnection_some _ _ _ _ H).
  destruct (Z.ltb_spec (len data) 6); [lia|].
  unfold bind, storeTelemetryData, emit, logCommunication, ret.
  cbv beta iota zeta.
  rewrite bool_decide_eq_false_2 by apply stateMap_nonempty.
  reflexivity.
Qed.

Lemma device_status_needs_no_authentication_witness :
  processFrame 1
    ([x00; x00; x00; x00] ++ [byte_of_Z NOTIFICATION]
     ++ byte_of_Z DEVICE_STATUS :: [xc8; x00; x00; x04; xb0; x02])
    (Sample.service Sample.fresh)
  = (tt, Sample.service Sample.fresh,
     [Await (InsertBatteryLevel (lawnmowerId Sample.fresh)
               (Qmake (number_at [xc8; x00; x00; x04; xb0; x02] 0) 2))
        [InsertDeviceState (lawnmowerId Sample.fresh)
           (stateMap (number_at [xc8; x00; x00; x04; xb0; x02] 5))];
      InsertCommunicationLog (lawnmowerId Sample.fresh) "Information" "Status_Update"
        (Text ("Battery: " +:+ showHalf (number_at [xc8; x00; x00; x04; xb0; x02] 0)
               +:+ "%, State: "
               +:+ stateMap (number_at [xc8; x00; x00; x04; xb0; x02] 5)
               +:+ ", Blade: "
               +:+ decimal (readUInt32BE [xc8; x00; x00; x04; xb0; x02] 1) +:+ "s"))]).
Proof.
  apply (device_status_needs_no_authentication (Sample.service Sample.fresh) 1
           Sample.fresh [x00; x00; x00; x00] [xc8; x00; x00; x04; xb0; x02]);
    vm_compute; try reflexivity; discriminate.
Defined.

(** X21. A PositionUpdate notification with at least twelve bytes is
    stored on any connection, whatever its HMAC field: one GPS row with
    the seconds of bytes 0..3 and the float32 bytes 4..7 and 8..11, and
    one Position_Update row; a shorter one leaves no trace. *)
Theorem position_update_is_stored st connectionId c hmac data :
  connections st !! connectionId = Some c ->
  len hmac = 4 ->
  processFrame connectionId
    (hmac ++ [byte_of_Z NOTIFICATION] ++ byte_of_Z POSITION_UPDATE :: data) st
  = (tt, st,
     if len data <? 12 then []
     else [InsertGpsPosition (lawnmowerId c) (slice data 4 8) (slice data 8 12)
             (readUInt32BE data 0);
           InsertCommunicationLog (lawnmowerId c) "Information" "Position_Update"
             (PositionText (slice data 4 8) (slice data 8 12) (readUInt32BE data 0))]).
Proof.
  intros H Hh. unfold processFrame.
  rewrite (withConnection_some _ _ _ _ H).
  rewrite (parseSessionMessage_app hmac _ (byte_of_Z NOTIFICATION) Hh).
  cbv zeta. cbn [SessionMessage.messageType].
  change (Z_of_byte (byte_of_Z NOTIFICATION)) with NOTIFICATION.
  change (NOTIFICATION =? HELLO) with false.
  change (NOTIFICATION =? CLIENT_AUTH) with false.
  change (NOTIFICATION =? REGULAR) with false.
  change (NOTIFICATION =? NOTIFICATION) with true. cbv iota.
  unfold handleNotification. rewrite (withConnection_some _ _ _ _ H).
  cbv zeta. cbn [SessionMessage.payload].
  destruct (Z.ltb_spec (len (byte_of_Z POSITION_UPDATE :: data)) 1) as [Hl|_].
  { rewrite len_cons in Hl. pose proof (len_nonneg data). lia. }
  rewrite number_at_0, slice_from_1.
  change (Z_of_byte (byte_of_Z POSITION_UPDATE) =? DEVICE_STATUS) with false.
  change (Z_of_byte (byte_of_Z POSITION_UPDATE) =? POSITION_UPDATE) with true.
  cbv iota.
  unfold handlePositionUpdateNotification. rewrite (withConnection_some _ _ _ _ H).
  destruct (len data <? 12); reflexivity.
Qed.

(** A position of twelve bytes on a connection that is not
    authenticated: the GPS row and the Position_Update row. *)
Lemma position_update_is_stored_witness :
  processFrame 1
    ([x00; x00; x00; x00] ++ [byte_of_Z NOTIFICATION]
     ++ byte_of_Z POSITION_UPDATE
        :: [x65; x00; x00; x00; x42; x51; x33; x33; x41; x99; x99; x9a])
    (Sample.service Sample.fresh)
  = (tt, Sample.service Sample.fresh,
     [InsertGpsPosition 7 [x42; x51; x33; x33] [x41; x99; x99; x9a] 0x65000000;
      InsertCommunicationLog 7 "Information" "Position_Update"
        (PositionText [x42; x51; x33; x33] [x41; x99; x99; x9a] 0x65000000)]).
Proof.
  exact (position_update_is_stored (Sample.service Sample.fresh) 1 Sample.fresh
           [x00; x00; x00; x00]
           [x65; x00; x00; x00; x42; x51; x33; x33; x41; x99; x99; x9a]
           eq_refl eq_refl).
Defined.

Lemma responseFrame_session c presentationMsg :
  len presentationMsg + 5 <= 2 ^ 21 - 1 ->
  let sessionBytes :=
    createSessionMessage REGULAR presentationMsg
      (Some (responseHMAC c presentationMsg)) in
  parseFrame (createFrame sessionBytes)
  = Ok {| Frame.payload := sessionBytes; Frame.totalLength := len (createFrame sessionBytes) |}
  /\ parseSessionMessage sessionBytes
     = Ok {| SessionMessage.hmac := responseHMAC c presentationMsg;
             SessionMessage.messageType := REGULAR;
             SessionMessage.payload := presentationMsg |}.
Proof.
  intros Hlen sessionBytes.
  pose proof (len_responseHMAC c presentationMsg) as Hh.
  split.
  - rewrite <- (app_nil_r (createFrame sessionBytes)) at 1.
    apply parseFrame_createFrame_app.
    unfold sessionBytes, createSessionMessage. rewrite !len_app, Hh.
    change (len [byte_of_Z REGULAR]) with 1. lia.
  - apply parseSessionMessage_create; [exact Hh | unfold REGULAR; lia].
Qed.

Lemma verifyAuthenticatedHMAC_create (sharedSecret : Z) (payload : Buffer) :
  CryptoService.verifyAuthenticatedHMAC sharedSecret payload
    (CryptoService.createAuthenticatedHMAC sharedSecret payload) = true.
Proof.
  unfold CryptoService.verifyAuthenticatedHMAC, CryptoService.createAuthenticatedHMAC,
    CryptoService.calculateHMAC. cbv zeta.
  rewrite <- (app_nil_r (writeUInt32BE _)).
  rewrite readUInt32BE_writeUInt32BE by apply calculateMAC_range.
  apply Z.eqb_refl.
Qed.

Lemma len_createPresentationMessage (iin : Z) (payload : Buffer) :
  len (createPresentationMessage iin payload) = 2 + len payload.
Proof.
  unfold createPresentationMessage, writeUInt16BE. cbn [app]. rewrite !len_cons. lia.
Qed.

Lemma len_createCommand (command : Z) (payload : Buffer) :
  len (createCommand command payload) = 1 + len payload.
Proof. unfold createCommand. cbn [app]. now rewrite len_cons. Qed.

(** X22. Every frame that a command handler writes can be checked by the
    peer: it parses to a REGULAR session message whose HMAC field is, on
    an authenticated connection, the one that [verifyAuthenticatedHMAC]
    accepts for the shared secret and the message body, and on any other
    connection the bypass constant. *)
Theorem response_hmac_is_verifiable st connectionId c iin command frame :
  connections st !! connectionId = Some c ->
  len (Command.payload command) + 8 <= 2 ^ 21 - 1 ->
  In frame (socketWrites connectionId
              (eventsOf (handleCommand connectionId iin command) st)) ->
  exists payload sessionMsg,
    parseFrame frame = Ok {| Frame.payload := payload; Frame.totalLength := len frame |}
    /\ parseSessionMessage payload = Ok sessionMsg
    /\ SessionMessage.messageType sessionMsg = REGULAR
    /\ (if ConnectionInfo.authenticated c
        then forall k, ConnectionInfo.sharedSecret c = Some k ->
                       CryptoService.verifyAuthenticatedHMAC k
                         (SessionMessage.payload sessionMsg)
                         (SessionMessage.hmac sessionMsg) = true
        else CryptoService.isBypassHMAC (SessionMessage.hmac sessionMsg) = true).
Proof.
  intros H Hlen Hin.
  pose proof (len_nonneg (Command.payload command)) as Hp0.
  assert (Hframe : forall cmd body,
            len body <= Z.max (len (Command.payload command)) 23 ->
            frame = createFrame
                      (createSessionMessage REGULAR
                         (createPresentationMessage iin (createCommand cmd body))
                         (Some (responseHMAC c
                                  (createPresentationMessage iin
                                     (createCommand cmd body))))) ->
            exists payload sessionMsg,
              parseFrame frame
              = Ok {| Frame.payload := payload; Frame.totalLength := len frame |}
              /\ parseSessionMessage payload = Ok sessionMsg
              /\ SessionMessage.messageType sessionMsg = REGULAR
              /\ (if ConnectionInfo.authenticated c
                  then forall k, ConnectionInfo.sharedSecret c = Some k ->
                                 CryptoService.verifyAuthenticatedHMAC k
                                   (SessionMessage.payload sessionMsg)
                                   (SessionMessage.hmac sessionMsg) = true
                  else CryptoService.isBypassHMAC (SessionMessage.hmac sessionMsg)
                       = true)).
  { intros cmd body Hb ->.
    set (pm := createPresentationMessage iin (createCommand cmd body)).
    assert (Hpm : len pm + 5 <= 2 ^ 21 - 1).
    { unfold pm. rewrite len_createPresentationMessage, len_createCommand. lia. }
    destruct (responseFrame_session c pm Hpm) as [Hpf Hps].
    eexists _, _. split; [exact Hpf|]. split; [exact Hps|].
    split; [reflexivity|].
    cbn [SessionMessage.payload SessionMessage.hmac]. unfold responseHMAC.
    destruct (ConnectionInfo.authenticated c).
    - intros k ->. apply verifyAuthenticatedHMAC_create.
    - reflexivity. }
  unfold eventsOf in Hin.
  rewrite (handleCommand_unfold _ _ _ _ _ H) in Hin. cbv zeta in Hin.
  destruct (_ =? HEARTBEAT).
  { rewrite (handleHeartbeat_run _ _ _ _ _ H) in Hin. cbn [snd] in Hin.
    rewrite socketWrites_write in Hin. cbn [socketWrites In] in Hin.
    destruct Hin as [<-|[]]. eapply Hframe; [|reflexivity]. lia. }
  destruct (_ =? CONTROL_DEVICE).
  { destruct (Z_lt_dec (len (Command.payload command)) 1) as [Hl|Hl].
    - rewrite (handleControlDevice_empty _ _ _ _ _ H Hl) in Hin.
      rewrite (sendErrorResponse_run _ _ _ _ _ H) in Hin. cbn [snd] in Hin.
      rewrite socketWrites_write in Hin. cbn [socketWrites In] in Hin.
      destruct Hin as [<-|[]]. eapply Hframe; [|reflexivity].
      change (len (list_byte_of_string "Invalid control command")) with 23. lia.
    - assert (Hl' : 1 <= len (Command.payload command)) by lia.
      rewrite (handleControlDevice_run _ _ _ _ _ H Hl') in Hin. cbn [snd] in Hin.
      destruct (snd (controlAction _)); cbn [app socketWrites In] in Hin;
        rewrite Z.eqb_refl in Hin; cbn [In] in Hin;
        destruct Hin as [<-|[]]; (eapply Hframe; [|reflexivity]);
        change (len []) with 0; lia. }
  destruct (_ =? ACK_ERROR).
  { rewrite (handleAckError_run _ _ _ _ H) in Hin. cbn [snd socketWrites] in Hin.
    rewrite Z.eqb_refl in Hin. cbn [In] in Hin.
    destruct Hin as [<-|[]]. eapply Hframe; [|reflexivity].
    change (len []) with 0. lia. }
  destruct (_ =? RESET_BLADE_TIME).
  { rewrite (handleResetBladeTime_run _ _ _ _ H) in Hin. cbn [snd socketWrites] in Hin.
    rewrite Z.eqb_refl in Hin. cbn [In] in Hin.
    destruct Hin as [<-|[]]. eapply Hframe; [|reflexivity].
    change (len []) with 0. lia. }
  cbn [snd socketWrites In] in Hin. destruct Hin.
Qed.

Lemma response_hmac_is_verifiable_witness :
  exists payload sessionMsg,
    parseFrame
      (createFrame
         (createSessionMessage REGULAR
            (createPresentationMessage 1 (createCommand 0x82 []))
            (Some (CryptoService.createAuthenticatedHMAC 1476263253
                     (createPresentationMessage 1 (createCommand 0x82 []))))))
    = Ok {| Frame.payload := payload;
            Frame.totalLength :=
              len (createFrame
                     (createSessionMessage REGULAR
                        (createPresentationMessage 1 (createCommand 0x82 []))
                        (Some (CryptoService.createAuthenticatedHMAC 1476263253
                                 (createPresentationMessage 1
                                    (createCommand 0x82 [])))))) |}
    /\ parseSessionMessage payload = Ok sessionMsg
    /\ SessionMessage.messageType sessionMsg = REGULAR
    /\ (if ConnectionInfo.authenticated Sample.authenticated
        then forall k, ConnectionInfo.sharedSecret Sample.authenticated = Some k ->
                       CryptoService.verifyAuthenticatedHMAC k
                         (SessionMessage.payload sessionMsg)
                         (SessionMessage.hmac sessionMsg) = true
        else CryptoService.isBypassHMAC (SessionMessage.hmac sessionMsg) = true).
Proof.
  apply (response_hmac_is_verifiable (Sample.service Sample.authenticated) 1
           Sample.authenticated 1
           {| Command.command := ACK_ERROR; Command.payload := [] |}).
  - reflexivity.
  - vm_compute. discriminate.
  - vm_compute. left. reflexivity.
Defined.

(** X23. The state that a DeviceStatus notification stores is one that
    [StateService.addStateChange] accepts exactly when the status byte is
    one of the six codes of the state table; any other status is stored
    as "Unknown", which [addStateChange] refuses. *)
Theorem stored_status_is_valid_iff_known (lawnmowerId status : Z) :
  (knownStatus status
   <-> StateService.addStateChange lawnmowerId (stateMap status)
       = Ok (lawnmowerId, stateMap status))
  /\ (~ knownStatus status
      <-> stateMap status = "Unknown"
          /\ StateService.addStateChange lawnmowerId (stateMap status)
             = Throw ("Invalid state: Unknown. Valid states are: StationCharging, "
                      +:+ "StationChargingCompleted, Mowing, ReturningToStation, "
                      +:+ "Paused, Error")).
Proof.
  unfold knownStatus, stateMap.
  destruct (Z.eqb_spec status 0x00) as [->|N0];
    [split; split; [reflexivity | intros _; now left | intros K; exfalso; apply K; now left
     | intros [[=] _]]|].
  destruct (Z.eqb_spec status 0x01) as [->|N1];
    [split; split; [reflexivity | intros _; right; now left
     | intros K; exfalso; apply K; right; now left | intros [[=] _]]|].
  destruct (Z.eqb_spec status 0x02) as [->|N2];
    [split; split; [reflexivity | intros _; do 2 right; now left
     | intros K; exfalso; apply K; do 2 right; now left | intros [[=] _]]|].
  destruct (Z.eqb_spec status 0x03) as [->|N3];
    [split; split; [reflexivity | intros _; do 3 right; now left
     | intros K; exfalso; apply K; do 3 right; now left | intros [[=] _]]|].
  destruct (Z.eqb_spec status 0x04) as [->|N4];
    [split; split; [reflexivity | intros _; do 4 right; now left
     | intros K; exfalso; apply K; do 4 right; now left | intros [[=] _]]|].
  destruct (Z.eqb_spec status 0x80) as [->|N5];
    [split; split; [reflexivity | intros _; do 5 right; reflexivity
     | intros K; exfalso; apply K; do 5 right; reflexivity | intros [[=] _]]|].
  split; split.
  - intros K. exfalso. intuition congruence.
  - intros [=].
  - intros _. split; reflexivity.
  - intros _ K. intuition congruence.
Qed.

End Messages.

(** ** The client *)

Section Client.

Import ProtocolService TCPService Observed Invariant Expected.

(** Where the server's [decodeLength] gives a result, the client's gives
    the same. *)
Lemma client_decodeLength_loop (rest : Buffer) :
  forall acc offset shift result,
    ProtocolService.decodeLength_loop rest acc offset shift = Ok result ->
    LawnmowerTCPClient.decodeLength_loop rest acc offset shift = result.
Proof.
  induction rest as [|b rest IH]; intros acc offset shift result.
  - cbn [ProtocolService.decodeLength_loop LawnmowerTCPClient.decodeLength_loop].
    now intros [= <-].
  - cbn [ProtocolService.decodeLength_loop LawnmowerTCPClient.decodeLength_loop].
    cbv zeta.
    destruct (JS.and (Z_of_byte b) 0x80 =? 0); [now intros [= <-]|].
    destruct (shift + 7 >=? 21); [discriminate|].
    apply IH.
Qed.

Lemma sliceAny_slice (buffer : Buffer) (start stop : Z) :
  0 <= start <= stop -> stop <= len buffer ->
  LawnmowerTCPClient.sliceAny buffer start stop = slice buffer start stop.
Proof.
  intros Hs He. unfold LawnmowerTCPClient.sliceAny, LawnmowerTCPClient.adjustOffset, slice.
  cbv zeta.
  destruct (Z.ltb_spec start 0); [lia|].
  destruct (Z.ltb_spec stop 0); [lia|].
  now rewrite !Z.min_l by lia.
Qed.

Lemma client_parseFrame_of_server (buffer : Buffer) (frame : Frame.t) :
  ProtocolService.parseFrame buffer = Ok frame ->
  LawnmowerTCPClient.parseFrame buffer
  = Ok {| ClientFrame.payload := Frame.payload frame;
          ClientFrame.checksum :=
            slice buffer (Frame.totalLength frame - 2) (Frame.totalLength frame) |}.
Proof.
  intros Hparse.
  pose proof (parseFrame_inv _ _ Hparse) as (o & Hd & Hsof & H4 & Htot & Hle & Hlt).
  pose proof (len_nonneg (Frame.payload frame)) as Hp0.
  pose proof Hd as Hd'. unfold ProtocolService.decodeLength in Hd'.
  apply decodeLength_loop_bound in Hd' as [_ Ho].
  unfold LawnmowerTCPClient.parseFrame.
  rewrite Hsof, bool_decide_eq_true_2 by reflexivity. cbn [negb].
  unfold LawnmowerTCPClient.decodeLength.
  unfold ProtocolService.decodeLength in Hd.
  rewrite (client_decodeLength_loop _ _ _ _ _ Hd).
  destruct (Z.ltb_spec (len buffer) (o + len (Frame.payload frame) + 2)); [lia|].
  rewrite !sliceAny_slice by lia.
  f_equal.
  assert (Hpay : Frame.payload frame = slice buffer o (o + len (Frame.payload frame))).
  { revert Hparse. unfold ProtocolService.parseFrame.
    destruct (len buffer <? 4); [discriminate|].
    destruct (negb _); [discriminate|].
    unfold ProtocolService.decodeLength. rewrite Hd.
    destruct (len buffer <? _); [discriminate|].
    destruct (negb _); [discriminate|].
    intros [= Hf]. apply (f_equal Frame.payload) in Hf.
    cbn [Frame.payload] in Hf. symmetry. exact Hf. }
  rewrite <- Hpay, Htot.
  replace (o + len (Frame.payload frame) + 2 - 2) with (o + len (Frame.payload frame))
    by lia.
  reflexivity.
Qed.

(** X24. The client's frame parser is the lenient one: every buffer that
    the server's [parseFrame] accepts is accepted by the client's, with
    the same payload; the client returns the two checksum bytes instead
    of the length. *)
Theorem client_parseFrame_accepts_server_frames (buffer : Buffer) (frame : Frame.t) :
  ProtocolService.parseFrame buffer = Ok frame ->
  LawnmowerTCPClient.parseFrame buffer
  = Ok {| ClientFrame.payload := Frame.payload frame;
          ClientFrame.checksum :=
            slice buffer (Frame.totalLength frame - 2) (Frame.totalLength frame) |}.
Proof. apply client_parseFrame_of_server. Qed.

Lemma client_parseFrame_accepts_server_frames_witness :
  ProtocolService.parseFrame [xaa; x01; x05; xff; x50; x11]
  = Ok {| Frame.payload := [x05]; Frame.totalLength := 5 |}
  /\ LawnmowerTCPClient.parseFrame [xaa; x01; x05; xff; x50; x11]
     = Ok {| ClientFrame.payload := [x05];
             ClientFrame.checksum := slice [xaa; x01; x05; xff; x50; x11] (5 - 2) 5 |}.
Proof.
  assert (H : ProtocolService.parseFrame [xaa; x01; x05; xff; x50; x11]
              = Ok {| Frame.payload := [x05]; Frame.totalLength := 5 |})
    by (vm_compute; reflexivity).
  exact (conj H (client_parseFrame_accepts_server_frames _ _ H)).
Defined.

(** X25. The converse fails: a frame with a wrong checksum, which the
    server refuses with "Checksum mismatch", is accepted by the client
    with its payload. *)
Theorem client_parseFrame_ignores_checksum (payload checksum : Buffer) :
  len payload <= 2 ^ 21 - 1 ->
  len checksum = 2 ->
  let frameWithoutChecksum :=
    [byte_of_Z SOF_MARKER] ++ encodeLength (len payload) ++ payload in
  checksum <> calculateChecksum frameWithoutChecksum ->
  ProtocolService.parseFrame (frameWithoutChecksum ++ checksum)
  = Throw "Checksum mismatch"
  /\ LawnmowerTCPClient.parseFrame (frameWithoutChecksum ++ checksum)
     = Ok {| ClientFrame.payload := payload; ClientFrame.checksum := checksum |}.
Proof.
  intros Hlen Hc F Hne.
  pose proof (len_nonneg payload) as Hp0.
  set (L := encodeLength (len payload)) in *.
  assert (HL : 1 <= len L) by (apply encodeLength_nonempty; lia).
  assert (Hdec : forall rest,
            ProtocolService.decodeLength_loop (L ++ rest) 0 1 0
            = Ok (len payload, 1 + len L)).
  { intros rest. unfold L. now rewrite decodeLength_encodeLength by lia. }
  assert (HF : len F = 1 + len L + len payload).
  { unfold F. cbn [app]. rewrite len_cons, len_app. lia. }
  split.
  - pose proof (parseFrame_layout_checked L payload checksum [] Hdec HL Hc) as Hlay.
    cbv zeta in Hlay. rewrite app_nil_r in Hlay.
    change (byte_of_Z SOF_MARKER :: L ++ payload) with F in Hlay.
    rewrite Hlay. unfold equals. now rewrite bool_decide_eq_false_2.
  - unfold LawnmowerTCPClient.parseFrame.
    replace (at_index (F ++ checksum) 0) with (Some (byte_of_Z SOF_MARKER))
      by reflexivity.
    rewrite bool_decide_eq_true_2 by reflexivity. cbn [negb].
    unfold LawnmowerTCPClient.decodeLength.
    replace (slice_from (F ++ checksum) 1) with (L ++ payload ++ checksum)
      by (unfold F, slice_from; cbn [app]; change (Z.to_nat 1) with 1%nat;
          cbn [drop]; now rewrite <- app_assoc).
    rewrite (client_decodeLength_loop _ _ _ _ _ (Hdec (payload ++ checksum))).
    destruct (Z.ltb_spec (len (F ++ checksum)) (1 + len L + len payload + 2)) as [Hs|_].
    { rewrite len_app in Hs. lia. }
    rewrite !sliceAny_slice by (rewrite ?len_app; lia).
    f_equal. f_equal.
    + replace (F ++ checksum)
        with ((byte_of_Z SOF_MARKER :: L) ++ payload ++ checksum)
        by (unfold F; cbn [app]; now rewrite <- app_assoc).
      rewrite <- (len_cons (byte_of_Z SOF_MARKER) L). now apply slice_middle.
    + replace (1 + len L + len payload + 2) with (len F + 2) by lia.
      replace (1 + len L + len payload) with (len F) by lia.
      replace (F ++ checksum) with (F ++ checksum ++ []) by now rewrite app_nil_r.
      apply slice_middle. now rewrite Hc.
Qed.

Lemma client_parseFrame_ignores_checksum_witness :
  ProtocolService.parseFrame
    (([byte_of_Z SOF_MARKER] ++ encodeLength (len [x05]) ++ [x05]) ++ [x00; x00])
  = Throw "Checksum mismatch"
  /\ LawnmowerTCPClient.parseFrame
       (([byte_of_Z SOF_MARKER] ++ encodeLength (len [x05]) ++ [x05]) ++ [x00; x00])
     = Ok {| ClientFrame.payload := [x05]; ClientFrame.checksum := [x00; x00] |}.
Proof.
  apply (client_parseFrame_ignores_checksum [x05] [x00; x00]).
  - vm_compute. discriminate.
  - reflexivity.
  - vm_compute. discriminate.
Defined.

Lemma client_calculatePublicKey (secret : Z) :
  LawnmowerTCPClient.calculatePublicKey secret = CryptoService.calculatePublicKey secret.
Proof. reflexivity. Qed.

Lemma client_calculateSharedSecret (otherPublicKey mySecret : Z) :
  LawnmowerTCPClient.calculateSharedSecret otherPublicKey mySecret
  = CryptoService.calculateSharedSecret otherPublicKey mySecret.
Proof. reflexivity. Qed.

Lemma client_calculateAuth (keyA keyB nonce : Z) :
  LawnmowerTCPClient.calculateAuth keyA keyB nonce
  = CryptoService.calculateMAC CryptoService.PSK
      (writeUInt32BE keyA ++ writeUInt32BE keyB ++ writeBigUInt64BE nonce).
Proof. reflexivity. Qed.

Lemma client_createFrame (payload : Buffer) :
  LawnmowerTCPClient.createFrame payload = ProtocolService.createFrame payload.
Proof. reflexivity. Qed.

Lemma client_createSessionMessage (messageType : Z) (payload : Buffer)
    (hmac : option Buffer) :
  LawnmowerTCPClient.createSessionMessage messageType payload hmac
  = default [x00; x00; x00; x00] hmac ++ [byte_of_Z messageType] ++ payload.
Proof. destruct hmac; reflexivity. Qed.

Lemma client_parseSessionMessage (h0 h1 h2 h3 t : byte) (payload : Buffer) :
  LawnmowerTCPClient.parseSessionMessage ([h0; h1; h2; h3] ++ [t] ++ payload)
  = {| ClientSessionMessage.hmac := [h0; h1; h2; h3];
       ClientSessionMessage.messageType := Some (Z_of_byte t);
       ClientSessionMessage.payload := payload |}.
Proof. reflexivity. Qed.

(** The reads of [parseChallengePayload], one by one. *)
Lemma challengePayload_fields (serverPublicKey nonce authS : Z) :
  0 <= serverPublicKey < 2 ^ 32 ->
  0 <= nonce < 2 ^ 64 ->
  0 <= authS < 2 ^ 32 ->
  let payload := CryptoService.createChallengePayload serverPublicKey nonce authS in
  16 <= len payload
  /\ readUInt32BE payload 0 = serverPublicKey
  /\ readBigUInt64BE payload 4 = nonce
  /\ readUInt32BE payload 12 = authS.
Proof.
  intros HB HN HS payload.
  pose proof (parseChallengePayload_create serverPublicKey nonce authS [] HB HN HS) as Hp.
  rewrite app_nil_r in Hp. fold payload in Hp.
  unfold CryptoService.parseChallengePayload in Hp.
  destruct (Z.ltb_spec (len payload) 16); [discriminate|].
  injection Hp as E1 E2 E3. repeat split; assumption.
Qed.

(** [handleData] of the client up to its dispatch. *)
Lemma client_handleData_dispatch (data : Buffer) (client : LawnmowerTCPClient.t)
    (frame : ClientFrame.t) (presentationMsg : PresentationMessage.t) (t : Z) :
  LawnmowerTCPClient.parseFrame data = Ok frame ->
  ProtocolService.parsePresentationMessage (ClientFrame.payload frame)
  = Ok presentationMsg ->
  ClientSessionMessage.messageType
    (LawnmowerTCPClient.parseSessionMessage (PresentationMessage.payload presentationMsg))
  = Some t ->
  LawnmowerTCPClient.handleData data client
  = let sessionMsg :=
      LawnmowerTCPClient.parseSessionMessage
        (PresentationMessage.payload presentationMsg) in
    if t =? 0x02
    then LawnmowerTCPClient.handleChallenge (ClientSessionMessage.payload sessionMsg)
           client
    else if (t =? 0x00) || (t =? 0x01)
    then (client, [LawnmowerTCPClient.EmitResponse sessionMsg])
    else (client, []).
Proof.
  intros Hf Hp Ht. unfold LawnmowerTCPClient.handleData.
  rewrite Hf. unfold LawnmowerTCPClient.parsePresentationMessage. rewrite Hp.
  cbv zeta. rewrite Ht. reflexivity.
Qed.

(** A connected client has its socket. *)
Lemma client_connected_socket (client : LawnmowerTCPClient.t) :
  LawnmowerTCPClient.connected client = true ->
  LawnmowerTCPClient.client client = LawnmowerTCPClient.Socket true.
Proof.
  unfold LawnmowerTCPClient.connected.
  destruct (LawnmowerTCPClient.client client) as [|[|]]; intros Hc;
    [discriminate Hc | reflexivity | discriminate Hc].
Qed.

(** [handleChallenge] on a payload that holds the three fields and the
    MAC that the client expects. *)
Lemma client_handleChallenge_accepts (payload : Buffer) (client : LawnmowerTCPClient.t)
    (B n key secret : Z) :
  LawnmowerTCPClient.connected client = true ->
  16 <= len payload ->
  readUInt32BE payload 0 = B ->
  readBigUInt64BE payload 4 = n ->
  readUInt32BE payload 12 = LawnmowerTCPClient.calculateAuth B key n ->
  LawnmowerTCPClient.clientPublicKey client = Some key ->
  LawnmowerTCPClient.clientSecret client = Some secret ->
  LawnmowerTCPClient.handleChallenge payload client
  = (LawnmowerTCPClient.mk (LawnmowerTCPClient.client client) true
       (Some (LawnmowerTCPClient.calculateSharedSecret B secret))
       (LawnmowerTCPClient.iinCounter client)
       (LawnmowerTCPClient.clientSecret client)
       (LawnmowerTCPClient.clientPublicKey client)
       (Some B) (Some n),
     [LawnmowerTCPClient.Write
        (LawnmowerTCPClient.createFrame
           (LawnmowerTCPClient.createSessionMessage 0x03
              (writeUInt32BE (LawnmowerTCPClient.calculateAuth key B n)) None));
      LawnmowerTCPClient.EmitAuthenticated]).
Proof.
  intros Hc Hlen HB Hn HS Hkey Hsecret. apply client_connected_socket in Hc.
  unfold LawnmowerTCPClient.handleChallenge.
  destruct (Z.ltb_spec (len payload) 4); [lia|].
  destruct (Z.ltb_spec (len payload) 12); [lia|].
  destruct (Z.ltb_spec (len payload) 16); [lia|].
  cbv zeta. rewrite HB, Hn, HS, Hkey, Hsecret, Hc. cbn [default].
  rewrite Z.eqb_refl. reflexivity.
Qed.

Lemma client_session_of_challenge (cp : Buffer) :
  LawnmowerTCPClient.parseSessionMessage
    (createSessionMessage CHALLENGE cp (Some [x00; x00; x00; x00]))
  = {| ClientSessionMessage.hmac := [x00; x00; x00; x00];
       ClientSessionMessage.messageType := Some 2;
       ClientSessionMessage.payload := cp |}.
Proof. reflexivity. Qed.

(** The client hands the body of the server's challenge frame to
    [handleChallenge]. *)
Lemma client_handleData_challengeFrame (a : AuthState.t)
    (client : LawnmowerTCPClient.t) :
  0 <= AuthState.serverPublicKey a < 2 ^ 32 ->
  0 <= AuthState.nonce a < 2 ^ 64 ->
  LawnmowerTCPClient.handleData (challengeFrame a) client
  = LawnmowerTCPClient.handleChallenge
      (CryptoService.createChallengePayload (AuthState.serverPublicKey a)
         (AuthState.nonce a)
         (CryptoService.calculateMAC CryptoService.PSK
            (writeUInt32BE (AuthState.serverPublicKey a)
             ++ writeUInt32BE (AuthState.clientPublicKey a)
             ++ writeBigUInt64BE (AuthState.nonce a)))) client.
Proof.
  intros HB HN.
  destruct (challengeFrame_decodes a HB HN) as (Hpf & Hpp & Hps & Hpc & Hlen).
  cbv zeta in Hpf, Hpp, Hps, Hpc, Hlen.
  set (cp := CryptoService.createChallengePayload _ _ _) in *.
  clearbody cp.
  apply client_parseFrame_of_server in Hpf.
  rewrite (client_handleData_dispatch _ client _ _ 2 Hpf Hpp)
    by (cbn [PresentationMessage.payload]; rewrite client_session_of_challenge;
        reflexivity).
  cbv zeta. cbn [PresentationMessage.payload].
  rewrite client_session_of_challenge. cbn [ClientSessionMessage.payload].
  reflexivity.
Qed.

Lemma client_handleChallenge_of_server (a : AuthState.t)
    (client : LawnmowerTCPClient.t) (secret : Z) (cp : Buffer) :
  LawnmowerTCPClient.connected client = true ->
  16 <= len cp ->
  readUInt32BE cp 0 = AuthState.serverPublicKey a ->
  readBigUInt64BE cp 4 = AuthState.nonce a ->
  readUInt32BE cp 12
  = CryptoService.calculateMAC CryptoService.PSK
      (writeUInt32BE (AuthState.serverPublicKey a)
       ++ writeUInt32BE (AuthState.clientPublicKey a)
       ++ writeBigUInt64BE (AuthState.nonce a)) ->
  LawnmowerTCPClient.clientPublicKey client = Some (AuthState.clientPublicKey a) ->
  LawnmowerTCPClient.clientSecret client = Some secret ->
  LawnmowerTCPClient.handleChallenge cp client
  = (LawnmowerTCPClient.mk (LawnmowerTCPClient.client client) true
       (Some (CryptoService.calculateSharedSecret (AuthState.serverPublicKey a) secret))
       (LawnmowerTCPClient.iinCounter client)
       (LawnmowerTCPClient.clientSecret client)
       (LawnmowerTCPClient.clientPublicKey client)
       (Some (AuthState.serverPublicKey a)) (Some (AuthState.nonce a)),
     [LawnmowerTCPClient.Write
        (createFrame ([x00; x00; x00; x00] ++ [byte_of_Z CLIENT_AUTH]
                      ++ writeUInt32BE (expectedAuthC a)));
      LawnmowerTCPClient.EmitAuthenticated]).
Proof.
  intros Hc Hl HrB HrN HrS Hkey Hsecret.
  rewrite (client_handleChallenge_accepts cp client
             (AuthState.serverPublicKey a) (AuthState.nonce a)
             (AuthState.clientPublicKey a) secret Hc Hl HrB HrN)
    by (assumption || (rewrite HrS, client_calculateAuth; reflexivity)).
  rewrite client_calculateSharedSecret, client_createFrame,
    client_createSessionMessage, client_calculateAuth.
  cbn [default]. unfold expectedAuthC.
  reflexivity.
Qed.

(** What the client does with the challenge frame of the server. *)
Lemma client_handleData_challenge (a : AuthState.t) (client : LawnmowerTCPClient.t)
    (secret : Z) :
  LawnmowerTCPClient.connected client = true ->
  0 <= AuthState.serverPublicKey a < 2 ^ 32 ->
  0 <= AuthState.nonce a < 2 ^ 64 ->
  LawnmowerTCPClient.clientPublicKey client = Some (AuthState.clientPublicKey a) ->
  LawnmowerTCPClient.clientSecret client = Some secret ->
  LawnmowerTCPClient.handleData (challengeFrame a) client
  = (LawnmowerTCPClient.mk (LawnmowerTCPClient.client client) true
       (Some (CryptoService.calculateSharedSecret (AuthState.serverPublicKey a) secret))
       (LawnmowerTCPClient.iinCounter client)
       (LawnmowerTCPClient.clientSecret client)
       (LawnmowerTCPClient.clientPublicKey client)
       (Some (AuthState.serverPublicKey a)) (Some (AuthState.nonce a)),
     [LawnmowerTCPClient.Write
        (createFrame ([x00; x00; x00; x00] ++ [byte_of_Z CLIENT_AUTH]
                      ++ writeUInt32BE (expectedAuthC a)));
      LawnmowerTCPClient.EmitAuthenticated]).
Proof.
  intros Hc HB HN Hkey Hsecret.
  rewrite (client_handleData_challengeFrame a client HB HN).
  destruct (challengePayload_fields (AuthState.serverPublicKey a) (AuthState.nonce a)
              (CryptoService.calculateMAC CryptoService.PSK
                 (writeUInt32BE (AuthState.serverPublicKey a)
                  ++ writeUInt32BE (AuthState.clientPublicKey a)
                  ++ writeBigUInt64BE (AuthState.nonce a)))
              HB HN (calculateMAC_range _ _)) as (Hl & HrB & HrN & HrS).
  exact (client_handleChallenge_of_server a client secret _ Hc Hl HrB HrN HrS Hkey
           Hsecret).
Qed.

(** X26. The handshake between [LawnmowerTCPClient] and [TCPService], for
    a client whose socket is connected: the HELLO frame that
    [authenticate] writes is answered with a challenge frame, the
    client's [handleData] answers that with a CLIENT_AUTH frame and
    announces 'authenticated', the server accepts this frame, and both
    sides then hold the same shared secret. *)
Theorem client_server_handshake st connectionId c client entropy :
  connections st !! connectionId = Some c ->
  ConnectionInfo.buffer c = [] ->
  LawnmowerTCPClient.connected client = true ->
  LawnmowerTCPClient.authenticated client = false ->
  exists client1 hello st1 challenge text1 client2 auth st2 c2 text2 k,
    LawnmowerTCPClient.authenticate entropy client
    = (client1, LawnmowerTCPClient.Written hello)
    /\ handleData connectionId hello st
       = (tt, st1,
          [SocketWrite connectionId challenge;
           InsertCommunicationLog (lawnmowerId c) "Information" "Auth_Challenge_Sent"
             (Text text1)])
    /\ LawnmowerTCPClient.handleData challenge client1
       = (client2, [LawnmowerTCPClient.Write auth; LawnmowerTCPClient.EmitAuthenticated])
    /\ handleData connectionId auth st1
       = (tt, st2,
          [InsertCommunicationLog (lawnmowerId c) "Information" "Auth_Success"
             (Text text2)])
    /\ connections st2 !! connectionId = Some c2
    /\ ConnectionInfo.authenticated c2 = true
    /\ LawnmowerTCPClient.authenticated client2 = true
    /\ ConnectionInfo.sharedSecret c2 = Some k
    /\ LawnmowerTCPClient.sharedSecret client2 = Some k.
Proof.
  intros H Hbuf Hconn Hno.
  pose proof (client_connected_socket client Hconn) as Hsock.
  set (secret := LawnmowerTCPClient.generateRandomSecret entropy).
  assert (Hsecret : 1 <= secret <= 0xFFFF) by apply generateRandomSecret_range.
  set (A := CryptoService.calculatePublicKey secret).
  assert (HA : 0 <= A < 2 ^ 32).
  { pose proof (calculatePublicKey_range secret ltac:(lia)) as Hr.
    unfold CryptoService.DH_MODULUS in Hr. fold A in Hr. lia. }
  set (a := helloAuthState st A).
  destruct (wellFormed_helloAuthState st A HA) as (Hs & _ & Hn & HB). fold a in Hs, Hn, HB.
  assert (HBr : 0 <= AuthState.serverPublicKey a < 2 ^ 32).
  { rewrite HB.
    pose proof (calculatePublicKey_range (AuthState.serverSecret a) ltac:(lia)) as Hr.
    unfold CryptoService.DH_MODULUS in Hr. lia. }
  set (client1 := LawnmowerTCPClient.mk (LawnmowerTCPClient.Socket true)
                    false
                    (LawnmowerTCPClient.sharedSecret client)
                    (LawnmowerTCPClient.iinCounter client)
                    (Some secret) (Some A)
                    (LawnmowerTCPClient.serverPublicKey client)
                    (LawnmowerTCPClient.nonce client)).
  assert (Hconn1 : LawnmowerTCPClient.connected client1 = true) by reflexivity.
  set (st1 := afterHello st connectionId c A).
  set (c1 := ConnectionInfo.set_authState c a).
  assert (H1 : connections st1 !! connectionId = Some c1) by apply lookup_insert_eq.
  exists client1,
    (createFrame ([x00; x00; x00; x00] ++ [byte_of_Z HELLO] ++ writeUInt32BE A)),
    st1.
  eexists (challengeFrame a), _, _,
    (createFrame ([x00; x00; x00; x00] ++ [byte_of_Z CLIENT_AUTH]
                  ++ writeUInt32BE (expectedAuthC a))),
    _, _, _, _.
  split.
  { unfold LawnmowerTCPClient.authenticate. rewrite Hno. cbv zeta.
    rewrite Hsock.
    rewrite client_calculatePublicKey, client_createFrame, client_createSessionMessage.
    fold secret. fold A. reflexivity. }
  split.
  { apply (handleData_hello st connectionId c [x00; x00; x00; x00] A H Hbuf);
      [reflexivity | exact HA]. }
  split.
  { apply (client_handleData_challenge a client1 secret Hconn1 HBr Hn); reflexivity. }
  split.
  { apply (handleData_client_auth st1 connectionId c1 [x00; x00; x00; x00] a H1 Hbuf);
      reflexivity. }
  split; [apply lookup_insert_eq|].
  split; [reflexivity|].
  split; [reflexivity|].
  split; [reflexivity|].
  cbn [LawnmowerTCPClient.sharedSecret]. f_equal.
  change (AuthState.clientPublicKey a) with A. unfold A. rewrite HB.
  symmetry. apply shared_secret_agrees; lia.
Qed.

(** The client as [connect] leaves it, its socket connected, and a
    connection that the server has just accepted. *)
Lemma client_server_handshake_witness :
  let client :=
    LawnmowerTCPClient.mk (LawnmowerTCPClient.Socket true) false None 1
      None None None None in
  exists client1 hello st1 challenge text1 client2 auth st2 c2 text2 k,
    LawnmowerTCPClient.authenticate 0x1233 client
    = (client1, LawnmowerTCPClient.Written hello)
    /\ handleData 1 hello (Sample.service Sample.fresh)
       = (tt, st1,
          [SocketWrite 1 challenge;
           InsertCommunicationLog (lawnmowerId Sample.fresh) "Information"
             "Auth_Challenge_Sent" (Text text1)])
    /\ LawnmowerTCPClient.handleData challenge client1
       = (client2, [LawnmowerTCPClient.Write auth; LawnmowerTCPClient.EmitAuthenticated])
    /\ handleData 1 auth st1
       = (tt, st2,
          [InsertCommunicationLog (lawnmowerId Sample.fresh) "Information"
             "Auth_Success" (Text text2)])
    /\ connections st2 !! 1 = Some c2
    /\ ConnectionInfo.authenticated c2 = true
    /\ LawnmowerTCPClient.authenticated client2 = true
    /\ ConnectionInfo.sharedSecret c2 = Some k
    /\ LawnmowerTCPClient.sharedSecret client2 = Some k.
Proof.
  exact (client_server_handshake (Sample.service Sample.fresh) 1 Sample.fresh
           (LawnmowerTCPClient.mk (LawnmowerTCPClient.Socket true) false None 1
              None None None None)
           0x1233 eq_refl eq_refl eq_refl eq_refl).
Defined.

(** The client reads a frame of the server's command handlers with the
    layers in the other order: the session HMAC is taken for the IIN. *)
Lemma client_reads_response (hmac : Buffer) (iin command : Z) (body : Buffer)
    (client : LawnmowerTCPClient.t) :
  len hmac = 4 ->
  len body + 8 <= 2 ^ 21 - 1 ->
  let presentationMsg := createPresentationMessage iin (createCommand command body) in
  let frame := createFrame (createSessionMessage REGULAR presentationMsg (Some hmac)) in
  let sessionMsg :=
    {| ClientSessionMessage.hmac := drop 2 hmac ++ [x00; byte_of_Z (iin / 2 ^ 8)];
       ClientSessionMessage.messageType := Some (iin mod 256);
       ClientSessionMessage.payload := createCommand command body |} in
  LawnmowerTCPClient.handleData frame client
  = if iin mod 256 =? 0x02
    then LawnmowerTCPClient.handleChallenge (createCommand command body) client
    else if (iin mod 256 =? 0x00) || (iin mod 256 =? 0x01)
    then (client, [LawnmowerTCPClient.EmitResponse sessionMsg])
    else (client, []).
Proof.
  intros Hh Hlen presentationMsg frame sessionMsg.
  destruct hmac as [|h0 [|h1 [|h2 [|h3 [|h4 hmac]]]]];
    try (unfold len in Hh; cbn [length] in Hh; lia).
  set (sessionBytes := createSessionMessage REGULAR presentationMsg (Some [h0; h1; h2; h3])).
  assert (Hsb : sessionBytes
                = h0 :: h1 :: h2 :: h3 :: x00 :: byte_of_Z (iin / 2 ^ 8) :: byte_of_Z iin
                  :: byte_of_Z command :: body) by reflexivity.
  assert (Hpf : ProtocolService.parseFrame frame
                = Ok {| Frame.payload := sessionBytes; Frame.totalLength := len frame |}).
  { change frame with (createFrame sessionBytes).
    rewrite <- (app_nil_r (createFrame sessionBytes)) at 1.
    apply parseFrame_createFrame_app.
    rewrite Hsb, !len_cons. pose proof (len_nonneg body). lia. }
  apply client_parseFrame_of_server in Hpf. cbn [Frame.payload] in Hpf.
  assert (Hpp : ProtocolService.parsePresentationMessage sessionBytes
                = Ok {| PresentationMessage.iin := readUInt16BE sessionBytes 0;
                        PresentationMessage.payload :=
                          h2 :: h3 :: x00 :: byte_of_Z (iin / 2 ^ 8) :: byte_of_Z iin
                          :: byte_of_Z command :: body |}).
  { unfold ProtocolService.parsePresentationMessage.
    destruct (Z.ltb_spec (len sessionBytes) 2) as [Hs|_].
    { rewrite Hsb, !len_cons in Hs. pose proof (len_nonneg body). lia. }
    rewrite Hsb. reflexivity. }
  rewrite (client_handleData_dispatch frame client _ _ (iin mod 256) Hpf Hpp)
    by (cbn [PresentationMessage.payload]; unfold LawnmowerTCPClient.parseSessionMessage;
        cbn [ClientSessionMessage.messageType];
        change (at_index _ 4) with (Some (byte_of_Z iin));
        cbn [fmap option_fmap option_map]; now rewrite Z_of_byte_of_Z).
  cbv zeta. cbn [PresentationMessage.payload].
  replace (LawnmowerTCPClient.parseSessionMessage
             (h2 :: h3 :: x00 :: byte_of_Z (iin / 2 ^ 8) :: byte_of_Z iin
              :: byte_of_Z command :: body))
    with sessionMsg; [reflexivity|].
  unfold sessionMsg, LawnmowerTCPClient.parseSessionMessage.
  change (at_index _ 4) with (Some (byte_of_Z iin)).
  cbn [fmap option_fmap option_map]. rewrite Z_of_byte_of_Z. reflexivity.
Qed.

(** X27. The client reads a response of the server with the layers in the
    other order, so that the low byte of the request's IIN is taken for
    the session message type: the response is announced as 'response'
    only when that byte is 0 or 1, is handed to [handleChallenge] when it
    is 2, and is dropped otherwise. *)
Theorem client_takes_iin_for_message_type c iin command body client :
  0 <= iin < 2 ^ 16 ->
  len body + 8 <= 2 ^ 21 - 1 ->
  let presentationMsg := createPresentationMessage iin (createCommand command body) in
  let hmac := responseHMAC c presentationMsg in
  let frame := createFrame (createSessionMessage REGULAR presentationMsg (Some hmac)) in
  let sessionMsg :=
    {| ClientSessionMessage.hmac := drop 2 hmac ++ [x00; byte_of_Z (iin / 2 ^ 8)];
       ClientSessionMessage.messageType := Some (iin mod 256);
       ClientSessionMessage.payload := createCommand command body |} in
  LawnmowerTCPClient.handleData frame client
  = if iin mod 256 =? 0x02
    then LawnmowerTCPClient.handleChallenge (createCommand command body) client
    else if (iin mod 256 =? 0x00) || (iin mod 256 =? 0x01)
    then (client, [LawnmowerTCPClient.EmitResponse sessionMsg])
    else (client, []).
Proof.
  intros _ Hlen presentationMsg hmac.
  apply (client_reads_response hmac iin command body client); [|exact Hlen].
  apply len_responseHMAC.
Qed.

Lemma client_takes_iin_for_message_type_witness :
  let presentationMsg := createPresentationMessage 3 (createCommand 0x81 []) in
  let hmac := responseHMAC Sample.authenticated presentationMsg in
  let frame := createFrame (createSessionMessage REGULAR presentationMsg (Some hmac)) in
  let sessionMsg :=
    {| ClientSessionMessage.hmac := drop 2 hmac ++ [x00; byte_of_Z (3 / 2 ^ 8)];
       ClientSessionMessage.messageType := Some (3 mod 256);
       ClientSessionMessage.payload := createCommand 0x81 [] |} in
  LawnmowerTCPClient.handleData frame LawnmowerTCPClient.new
  = if 3 mod 256 =? 0x02
    then LawnmowerTCPClient.handleChallenge (createCommand 0x81 [])
           LawnmowerTCPClient.new
    else if (3 mod 256 =? 0x00) || (3 mod 256 =? 0x01)
    then (LawnmowerTCPClient.new, [LawnmowerTCPClient.EmitResponse sessionMsg])
    else (LawnmowerTCPClient.new, []).
Proof.
  apply (client_takes_iin_for_message_type Sample.authenticated 3 0x81 []
           LawnmowerTCPClient.new); [lia | vm_compute; discriminate].
Defined.

End Client.

(** ** Actions *)

Section Actions.

Import ProtocolService TCPService Observed Invariant Expected.

Lemma includes_true (x : string) (l : list string) : includes x l = true <-> In x l.
Proof.
  unfold includes. rewrite bool_decide_eq_true. apply list_elem_of_In.
Qed.

(** The pairs that [validateActionForState] lets through. *)
Lemma validateActionForState_cases (action currentState : string) :
  ActionsService.validateActionForState action currentState = true ->
  (action = "start" /\ (currentState = "StationCharging"
                        \/ currentState = "StationChargingCompleted"
                        \/ currentState = "Paused"))
  \/ (action = "stop" /\ (currentState = "Mowing"
                          \/ currentState = "ReturningToStation"))
  \/ (action = "home" /\ (currentState = "Mowing" \/ currentState = "Paused"))
  \/ (action = "ackerror" /\ currentState = "Error").
Proof.
  unfold ActionsService.validateActionForState, ActionsService.validTransitions.
  cbv zeta.
  repeat match goal with
         | |- context [String.eqb currentState ?s] =>
             destruct (String.eqb_spec currentState s) as [->|?]
         end;
    cbn [default]; unfold id; rewrite includes_true; cbn [In];
    intuition (subst; auto 10).
Qed.

(** X28. The two tables of the actions service agree: among the actions
    and states of the application, an action is valid in a state exactly
    when it has an expected next state there; that state is again one of
    the valid states and differs from the current one. *)
Theorem valid_action_has_expected_state (action currentState : string) :
  In action ActionsService.getValidActions ->
  In currentState StateService.validStates ->
  (ActionsService.validateActionForState action currentState = true
   <-> exists newState,
         ActionsService.getExpectedStateForAction action currentState = Some newState)
  /\ (forall newState,
        ActionsService.getExpectedStateForAction action currentState = Some newState ->
        In newState StateService.validStates /\ newState <> currentState).
Proof.
  intros Ha Hs.
  cbn [In ActionsService.getValidActions StateService.validStates] in Ha, Hs.
  unfold ActionsService.STOP, ActionsService.START, ActionsService.HOME,
    ActionsService.ACK_ERROR in Ha.
  destruct Ha as [<-|[<-|[<-|[<-|[]]]]];
    destruct Hs as [<-|[<-|[<-|[<-|[<-|[<-|[]]]]]]];
    (split;
     [ split;
       [ intros Hv; vm_compute in Hv; first [discriminate Hv | eexists; reflexivity]
       | intros [newState Hn]; vm_compute in Hn;
         first [discriminate Hn | reflexivity] ]
     | intros newState Hn; vm_compute in Hn;
       first [ discriminate Hn
             | injection Hn as <-; split; [vm_compute; tauto | discriminate] ] ]).
Qed.

Lemma valid_action_has_expected_state_witness :
  (ActionsService.validateActionForState "home" "Mowing" = true
   <-> exists newState,
         ActionsService.getExpectedStateForAction "home" "Mowing" = Some newState)
  /\ (forall newState,
        ActionsService.getExpectedStateForAction "home" "Mowing" = Some newState ->
        In newState StateService.validStates /\ newState <> "Mowing").
Proof.
  apply valid_action_has_expected_state; vm_compute; tauto.
Defined.

(** A REGULAR frame on an authenticated connection reaches
    [handleCommand] with the IIN, command and body it carries. *)
Lemma handleData_regular st connectionId c hmac iin command body :
  connections st !! connectionId = Some c ->
  ConnectionInfo.buffer c = [] ->
  ConnectionInfo.authenticated c = true ->
  len hmac = 4 ->
  0 <= iin < 2 ^ 16 ->
  0 <= command < 256 ->
  len body + 8 <= 2 ^ 21 - 1 ->
  handleData connectionId
    (createFrame (hmac ++ [byte_of_Z REGULAR]
                  ++ createPresentationMessage iin (createCommand command body))) st
  = handleCommand connectionId iin
      {| Command.command := command; Command.payload := body |} st.
Proof.
  intros H Hbuf Hauth Hh Hiin Hc Hlen.
  set (pm := createPresentationMessage iin (createCommand command body)).
  assert (Hpm : len pm = 3 + len body).
  { unfold pm. rewrite len_createPresentationMessage, len_createCommand. lia. }
  rewrite (handleData_createFrame _ _ _ _ H Hbuf)
    by (rewrite len_session, Hh, Hpm; lia).
  pose proof (parseSessionMessage_app hmac pm (byte_of_Z REGULAR) Hh) as Hs.
  rewrite (processFrame_regular _ _ _ _ _ H Hs) by reflexivity.
  rewrite (handleRegularMessage_passed _ _ _ _ H) by (left; exact Hauth).
  cbn [SessionMessage.payload]. unfold pm.
  rewrite parsePresentationMessage_create by exact Hiin.
  cbn [PresentationMessage.payload PresentationMessage.iin].
  now rewrite parseCommand_create by exact Hc.
Qed.

(** The frame of [sendControlCommand]. *)
Lemma sendControlCommand_frame (client : LawnmowerTCPClient.t)
    (command : Z) (actionPayload : option Z) :
  LawnmowerTCPClient.connected client = true ->
  LawnmowerTCPClient.authenticated client = true ->
  0 <= LawnmowerTCPClient.iinCounter client <= 65535 ->
  let iin := LawnmowerTCPClient.iinCounter client in
  let body := match actionPayload with
              | Some a => [byte_of_Z a]
              | None => []
              end in
  let presentationMsg := createPresentationMessage iin (createCommand command body) in
  let hmac :=
    LawnmowerTCPClient.calculateHMAC
      (default 0 (LawnmowerTCPClient.sharedSecret client)) presentationMsg in
  LawnmowerTCPClient.sendControlCommand command actionPayload client
  = (LawnmowerTCPClient.mk (LawnmowerTCPClient.client client)
       (LawnmowerTCPClient.authenticated client)
       (LawnmowerTCPClient.sharedSecret client) (iin + 1)
       (LawnmowerTCPClient.clientSecret client)
       (LawnmowerTCPClient.clientPublicKey client)
       (LawnmowerTCPClient.serverPublicKey client)
       (LawnmowerTCPClient.nonce client),
     LawnmowerTCPClient.Written
       (createFrame (hmac ++ [byte_of_Z REGULAR] ++ presentationMsg))).
Proof.
  intros Hc Ha Hi iin body presentationMsg hmac.
  unfold LawnmowerTCPClient.sendControlCommand. rewrite Hc, Ha. cbn [negb]. cbv zeta.
  fold iin.
  destruct (Z.ltb_spec iin 0); [lia|].
  destruct (Z.ltb_spec 65535 iin); [lia|].
  cbn [orb].
  rewrite client_createFrame, client_createSessionMessage.
  apply client_connected_socket in Hc.
  destruct (LawnmowerTCPClient.client client); [discriminate Hc | reflexivity].
Qed.

(** X29. An action of the actions service, end to end.  For an action
    that is valid in the current state, the command that
    [actionToCommandMap] names, sent by an authenticated client with its
    first IIN, makes the server store exactly the state that
    [getExpectedStateForAction] gives and write one response, which the
    client announces as 'response'. *)
Theorem executed_action_reaches_expected_state
  st connectionId c client action currentState :
  connections st !! connectionId = Some c ->
  ConnectionInfo.buffer c = [] ->
  ConnectionInfo.authenticated c = true ->
  LawnmowerTCPClient.connected client = true ->
  LawnmowerTCPClient.authenticated client = true ->
  LawnmowerTCPClient.iinCounter client = 1 ->
  ActionsService.validateActionForState action currentState = true ->
  exists mapping newState client' frame events response sessionMsg,
    ActionsService.actionToCommandMap action = Some mapping
    /\ ActionsService.getExpectedStateForAction action currentState = Some newState
    /\ LawnmowerTCPClient.sendControlCommand (CommandMapping.command mapping)
         (CommandMapping.action mapping) client
       = (client', LawnmowerTCPClient.Written frame)
    /\ handleData connectionId frame st = (tt, st, events)
    /\ In (InsertDeviceState (lawnmowerId c) newState) events
    /\ (forall state, In (InsertDeviceState (lawnmowerId c) state) events ->
                      state = newState)
    /\ socketWrites connectionId events = [response]
    /\ LawnmowerTCPClient.handleData response client'
       = (client', [LawnmowerTCPClient.EmitResponse sessionMsg]).
Proof.
  intros H Hbuf Hauth Hcc Hca Hiin Hvalid.
  assert (Hrange : 0 <= LawnmowerTCPClient.iinCounter client <= 65535)
    by (rewrite Hiin; lia).
  assert (Hrun : forall command actionPayload,
            0 <= command < 256 ->
            exists client' hmac,
              let body := match actionPayload with
                          | Some a => [byte_of_Z a]
                          | None => []
                          end in
              LawnmowerTCPClient.sendControlCommand command actionPayload client
              = (client',
                 LawnmowerTCPClient.Written
                   (createFrame
                      (hmac ++ [byte_of_Z REGULAR]
                       ++ createPresentationMessage 1 (createCommand command body))))
              /\ handleData connectionId
                   (createFrame
                      (hmac ++ [byte_of_Z REGULAR]
                       ++ createPresentationMessage 1 (createCommand command body))) st
                 = handleCommand connectionId 1
                     {| Command.command := command; Command.payload := body |} st
              /\ forall responseCommand,
                   exists sessionMsg,
                     LawnmowerTCPClient.handleData
                       (createFrame
                          (createSessionMessage REGULAR
                             (createPresentationMessage 1
                                (createCommand responseCommand []))
                             (Some (responseHMAC c
                                      (createPresentationMessage 1
                                         (createCommand responseCommand []))))))
                       client'
                     = (client', [LawnmowerTCPClient.EmitResponse sessionMsg])).
  { intros command actionPayload Hcmd.
    pose proof (sendControlCommand_frame client command actionPayload Hcc Hca Hrange)
      as Hsend.
    cbv zeta in Hsend. rewrite Hiin in Hsend.
    set (hmac := LawnmowerTCPClient.calculateHMAC _ _) in Hsend.
    assert (Hh : len hmac = 4) by reflexivity.
    clearbody hmac.
    eexists _, hmac. cbv zeta. split; [exact Hsend|].
    split.
    { apply (handleData_regular st connectionId c hmac 1 command _ H Hbuf Hauth Hh);
        [lia | exact Hcmd | destruct actionPayload; vm_compute; discriminate]. }
    intros responseCommand. eexists.
    rewrite (client_reads_response _ 1 responseCommand [] _
               (len_responseHMAC c _)) by (vm_compute; discriminate).
    reflexivity. }
  destruct (validateActionForState_cases _ _ Hvalid)
    as [[-> Hs]|[[-> Hs]|[[-> Hs]|[-> ->]]]].
  - (* start *)
    destruct (Hrun 0x01 (Some 0x01) ltac:(lia)) as (client' & hmac & Hsend & Hdata & Hresp).
    cbv zeta in Hsend, Hdata.
    destruct (Hresp 0x81) as [sessionMsg Hclient].
    rewrite (handleCommand_unfold _ _ _ _ _ H) in Hdata. cbv zeta in Hdata.
    cbn [Command.command Command.payload] in Hdata.
    change (1 =? HEARTBEAT) with false in Hdata.
    change (1 =? CONTROL_DEVICE) with true in Hdata. cbv iota in Hdata.
    rewrite (handleControlDevice_run _ _ _ _ _ H) in Hdata by (vm_compute; discriminate).
    change (controlAction (number_at [byte_of_Z 1] 0)) with ("START", Some "Mowing")
      in Hdata.
    cbn [fst snd app default] in Hdata.
    exists (CommandMapping.mk 0x01 (Some 0x01)), "Mowing", client'.
    eexists _, _, _, sessionMsg.
    split; [reflexivity|].
    split; [destruct Hs as [->|[->| ->]]; reflexivity|].
    split; [exact Hsend|].
    split; [exact Hdata|].
    split; [left; reflexivity|].
    split; [intros state [[= <-]|[[=]|[[=]|[]]]]; reflexivity|].
    split; [cbn [socketWrites]; rewrite Z.eqb_refl; reflexivity|].
    exact Hclient.
  - (* stop *)
    destruct (Hrun 0x01 (Some 0x00) ltac:(lia)) as (client' & hmac & Hsend & Hdata & Hresp).
    cbv zeta in Hsend, Hdata.
    destruct (Hresp 0x81) as [sessionMsg Hclient].
    rewrite (handleCommand_unfold _ _ _ _ _ H) in Hdata. cbv zeta in Hdata.
    cbn [Command.command Command.payload] in Hdata.
    change (1 =? HEARTBEAT) with false in Hdata.
    change (1 =? CONTROL_DEVICE) with true in Hdata. cbv iota in Hdata.
    rewrite (handleControlDevice_run _ _ _ _ _ H) in Hdata by (vm_compute; discriminate).
    change (controlAction (number_at [byte_of_Z 0] 0)) with ("STOP", Some "Paused")
      in Hdata.
    cbn [fst snd app default] in Hdata.
    exists (CommandMapping.mk 0x01 (Some 0x00)), "Paused", client'.
    eexists _, _, _, sessionMsg.
    split; [reflexivity|].
    split; [destruct Hs as [->| ->]; reflexivity|].
    split; [exact Hsend|].
    split; [exact Hdata|].
    split; [left; reflexivity|].
    split; [intros state [[= <-]|[[=]|[[=]|[]]]]; reflexivity|].
    split; [cbn [socketWrites]; rewrite Z.eqb_refl; reflexivity|].
    exact Hclient.
  - (* home *)
    destruct (Hrun 0x01 (Some 0x02) ltac:(lia)) as (client' & hmac & Hsend & Hdata & Hresp).
    cbv zeta in Hsend, Hdata.
    destruct (Hresp 0x81) as [sessionMsg Hclient].
    rewrite (handleCommand_unfold _ _ _ _ _ H) in Hdata. cbv zeta in Hdata.
    cbn [Command.command Command.payload] in Hdata.
    change (1 =? HEARTBEAT) with false in Hdata.
    change (1 =? CONTROL_DEVICE) with true in Hdata. cbv iota in Hdata.
    rewrite (handleControlDevice_run _ _ _ _ _ H) in Hdata by (vm_compute; discriminate).
    change (controlAction (number_at [byte_of_Z 2] 0))
      with ("HOME", Some "ReturningToStation") in Hdata.
    cbn [fst snd app default] in Hdata.
    exists (CommandMapping.mk 0x01 (Some 0x02)), "ReturningToStation", client'.
    eexists _, _, _, sessionMsg.
    split; [reflexivity|].
    split; [destruct Hs as [->| ->]; reflexivity|].
    split; [exact Hsend|].
    split; [exact Hdata|].
    split; [left; reflexivity|].
    split; [intros state [[= <-]|[[=]|[[=]|[]]]]; reflexivity|].
    split; [cbn [socketWrites]; rewrite Z.eqb_refl; reflexivity|].
    exact Hclient.
  - (* ackerror *)
    destruct (Hrun 0x02 None ltac:(lia)) as (client' & hmac & Hsend & Hdata & Hresp).
    cbv zeta in Hsend, Hdata.
    destruct (Hresp 0x82) as [sessionMsg Hclient].
    rewrite (handleCommand_unfold _ _ _ _ _ H) in Hdata. cbv zeta in Hdata.
    cbn [Command.command Command.payload] in Hdata.
    change (2 =? HEARTBEAT) with false in Hdata.
    change (2 =? CONTROL_DEVICE) with false in Hdata.
    change (2 =? ACK_ERROR) with true in Hdata. cbv iota in Hdata.
    rewrite (handleAckError_run _ _ _ _ H) in Hdata.
    exists (CommandMapping.mk 0x02 None), "Paused", client'.
    eexists _, _, _, sessionMsg.
    split; [reflexivity|].
    split; [reflexivity|].
    split; [exact Hsend|].
    split; [exact Hdata|].
    split; [left; reflexivity|].
    split; [intros state [[= <-]|[[=]|[[=]|[]]]]; reflexivity|].
    split; [cbn [socketWrites]; rewrite Z.eqb_refl; reflexivity|].
    exact Hclient.
Qed.

Lemma executed_action_reaches_expected_state_witness :
  exists mapping newState client' frame events response sessionMsg,
    ActionsService.actionToCommandMap "start" = Some mapping
    /\ ActionsService.getExpectedStateForAction "start" "Paused" = Some newState
    /\ LawnmowerTCPClient.sendControlCommand (CommandMapping.command mapping)
         (CommandMapping.action mapping)
         (LawnmowerTCPClient.mk (LawnmowerTCPClient.Socket true) true
            (Some 1476263253) 1 (Some 0x1234)
            (Some 906815736) (Some 124418418) (Some 0x0102030405060708))
       = (client', LawnmowerTCPClient.Written frame)
    /\ handleData 1 frame (Sample.service Sample.authenticated)
       = (tt, Sample.service Sample.authenticated, events)
    /\ In (InsertDeviceState (lawnmowerId Sample.authenticated) newState) events
    /\ (forall state,
          In (InsertDeviceState (lawnmowerId Sample.authenticated) state) events ->
          state = newState)
    /\ socketWrites 1 events = [response]
    /\ LawnmowerTCPClient.handleData response client'
       = (client', [LawnmowerTCPClient.EmitResponse sessionMsg]).
Proof.
  apply (executed_action_reaches_expected_state (Sample.service Sample.authenticated) 1
           Sample.authenticated
           (LawnmowerTCPClient.mk (LawnmowerTCPClient.Socket true) true
              (Some 1476263253) 1 (Some 0x1234)
              (Some 906815736) (Some 124418418) (Some 0x0102030405060708))
           "start" "Paused"); reflexivity.
Defined.

End Actions.
